(** * mqtt_to_sqlite: a shallow embedding of the ingestion daemon

    Source: [freetz-ng/mqtt_to_sqlite/mqtt_to_sqlite.c].

    The program is a single-threaded C daemon.  Its process-wide variables
    become the fields of a [World] record that every function threads
    through; the answers of the operating system and of the two libraries it
    links against (SQLite, libmosquitto) are read from an [Env] record; the
    calls it makes to them are appended to a trace.  C strings are [string]
    (their characters are non-NUL by construction), message payloads are
    [list byte] with an explicit length, and all C integers are [Z] (the
    code performs no arithmetic that could leave the range of its types).
    A pointer that may be NULL is an [option]; a read past the end of a
    buffer is a fault, the only way a computation has no result. *)

From Stdlib Require Import ZArith Strings.String Strings.Ascii Strings.Byte List Lia Bool.
From stdpp Require Import base list strings gmap pretty.

Local Open Scope string_scope.
Local Open Scope list_scope.
Local Open Scope Z_scope.

(** ** C strings *)

Module CStr.

(** [isspace] and [isdigit] of the "C" locale. *)
Definition isspace (c : ascii) : bool :=
  let n := Z.of_nat (nat_of_ascii c) in
  (n =? 32) || ((9 <=? n) && (n <=? 13)).

Definition isdigit (c : ascii) : bool :=
  let n := Z.of_nat (nat_of_ascii c) in
  (48 <=? n) && (n <=? 57).

Definition digit_value (c : ascii) : Z := Z.of_nat (nat_of_ascii c) - 48.

(** Number of leading characters of [s] that satisfy [p]. *)
Fixpoint span_length (p : ascii -> bool) (s : string) : nat :=
  match s with
  | String c s' => if p c then S (span_length p s') else O
  | EmptyString => O
  end.

(** [s + n] for a [char *]: the string [n] characters further on. *)
Fixpoint advance (n : nat) (s : string) : string :=
  match n, s with
  | S n', String _ s' => advance n' s'
  | _, _ => s
  end.

(** The first [n] characters of [s]. *)
Fixpoint prefix (n : nat) (s : string) : string :=
  match n, s with
  | S n', String c s' => String c (prefix n' s')
  | _, _ => EmptyString
  end.

(** Value of a run of decimal digits, most significant first. *)
Fixpoint decimal_value (acc : Z) (s : string) : Z :=
  match s with
  | String c s' => decimal_value (10 * acc + digit_value c) s'
  | EmptyString => acc
  end.

(** [*p] is the terminating NUL exactly when nothing is left of the string. *)
Definition at_nul (s : string) : bool :=
  match s with
  | EmptyString => true
  | String _ _ => false
  end.

(** [*p == c]. *)
Definition starts_with (c : ascii) (s : string) : bool :=
  match s with
  | String c' _ => Ascii.eqb c' c
  | EmptyString => false
  end.

(** [snprintf(buf, size, "%s", s)]: at most [size - 1] characters are kept. *)
Definition snprintf_s (size : nat) (s : string) : string :=
  prefix (Nat.pred size) s.

End CStr.

(** ** [strtol] in base 10

    White space is skipped, one optional sign is read, then the longest run
    of digits.  The result is the pair of the converted value, clamped to
    the range of [long], and the offset of [end] from the start of the
    string; with no digit at all nothing is converted and [end] is the start
    of the string. *)

Section Strtol.

Variable LONG_MAX : Z.

Definition LONG_MIN : Z := - LONG_MAX - 1.

Definition clamp_long (x : Z) : Z := Z.max LONG_MIN (Z.min LONG_MAX x).

Definition strtol10 (v : string) : Z * nat :=
  let ws := CStr.span_length CStr.isspace v in
  let s1 := CStr.advance ws v in
  let neg := CStr.starts_with "-" s1 in
  let sg := if neg || CStr.starts_with "+" s1 then 1%nat else 0%nat in
  let s2 := CStr.advance sg s1 in
  let nd := CStr.span_length CStr.isdigit s2 in
  match nd with
  | O => (0, 0%nat)
  | _ =>
      let m := CStr.decimal_value 0 (CStr.prefix nd s2) in
      (clamp_long (if (neg : bool) then - m else m), (ws + sg + nd)%nat)
  end.

(** ** Configuration helpers *)

(** [env_or_default]: [getenv] answered [v]. *)
Definition env_or_default (v : option string) (defval : string) : string :=
  match v with
  | Some s => if CStr.at_nul s then defval else s
  | None => defval
  end.

(** [env_or_default_int]: [getenv] answered [v]. *)
Definition env_or_default_int (v : option string) (defval : Z) : Z :=
  match v with
  | None => defval
  | Some s =>
      if CStr.at_nul s then defval
      else
        let '(x, e) := strtol10 s in
        if (e =? 0)%nat || negb (CStr.at_nul (CStr.advance e s)) then defval
        else if (x <? 0) || (x >? 1000000) then defval
        else x
  end.

End Strtol.

(** ** SQLite, at the interface the program uses

    The engine is an external collaborator.  What is modelled is what the
    program can observe through the calls it makes: a database file holds a
    list of schema objects (a list, so that a duplicate would be visible),
    the rows of the [messages] table and the AUTOINCREMENT counter; a
    prepared statement holds its five parameter slots and whether it has
    been stepped since its last reset. *)

Module Sqlite.

Definition SQLITE_OK : Z := 0.
Definition SQLITE_ERROR : Z := 1.
Definition SQLITE_FULL : Z := 13.
Definition SQLITE_CANTOPEN : Z := 14.
Definition SQLITE_CONSTRAINT : Z := 19.
Definition SQLITE_MISUSE : Z := 21.
Definition SQLITE_RANGE : Z := 25.
Definition SQLITE_DONE : Z := 101.

Inductive value :=
| Null
| Integer (n : Z)
| Text (s : string).

Definition is_null (v : value) : bool :=
  match v with Null => true | _ => false end.

(** One row of [messages]: [id, ts, topic, payload, qos, retain]. *)
Record row := mkRow {
  row_id : Z;
  row_ts : value;
  row_topic : value;
  row_payload : value;
  row_qos : value;
  row_retain : value
}.

Inductive schema_object :=
| Table (name : string) (columns : list string)
| Index (name : string) (table : string) (column : string).

Definition is_table (name : string) (o : schema_object) : bool :=
  match o with
  | Table n _ => String.eqb n name
  | Index _ _ _ => false
  end.

Definition is_index (name : string) (o : schema_object) : bool :=
  match o with
  | Table _ _ => false
  | Index n _ _ => String.eqb n name
  end.

Record database := mkDatabase {
  db_schema : list schema_object;
  db_messages : list row;
  db_sequence : Z
}.

Definition empty_database : database := mkDatabase [] [] 0.

(** How often a table (an index) of that name occurs in the schema. *)
Definition count_tables (name : string) (d : database) : nat :=
  length (List.filter (is_table name) (db_schema d)).

Definition count_indexes (name : string) (d : database) : nat :=
  length (List.filter (is_index name) (db_schema d)).

Definition table_columns (name : string) (d : database) : option (list string) :=
  match List.find (is_table name) (db_schema d) with
  | Some (Table _ cols) => Some cols
  | _ => None
  end.

Definition has_column (c : string) (cols : list string) : bool :=
  existsb (String.eqb c) cols.

(** The data-definition statements the program issues. *)
Inductive ddl_stmt :=
| CreateTable (if_not_exists : bool) (name : string) (columns : list string)
| CreateIndex (if_not_exists : bool) (name : string) (table : string)
    (column : string).

(** One DDL statement: the result code and the database afterwards. *)
Definition exec_ddl (s : ddl_stmt) (d : database) : Z * database :=
  match s with
  | CreateTable ine name cols =>
      if existsb (is_table name) (db_schema d) then
        if ine then (SQLITE_OK, d) else (SQLITE_ERROR, d)
      else if existsb (is_index name) (db_schema d) then (SQLITE_ERROR, d)
      else
        (SQLITE_OK,
         mkDatabase (db_schema d ++ [Table name cols]) (db_messages d)
           (db_sequence d))
  | CreateIndex ine name tbl col =>
      match table_columns tbl d with
      | None => (SQLITE_ERROR, d)
      | Some cols =>
          if existsb (is_index name) (db_schema d) then
            if ine then (SQLITE_OK, d) else (SQLITE_ERROR, d)
          else if existsb (is_table name) (db_schema d) then (SQLITE_ERROR, d)
          else if has_column col cols then
            (SQLITE_OK,
             mkDatabase (db_schema d ++ [Index name tbl col]) (db_messages d)
               (db_sequence d))
          else (SQLITE_ERROR, d)
      end
  end.

(** [sqlite3_exec] on a script: statements run in order, the first error
    stops the script and what ran before it stays applied. *)
Fixpoint exec_script (script : list ddl_stmt) (d : database) : Z * database :=
  match script with
  | [] => (SQLITE_OK, d)
  | s :: rest =>
      let '(rc, d') := exec_ddl s d in
      if rc =? SQLITE_OK then exec_script rest d' else (rc, d')
  end.

(** A prepared [INSERT INTO messages (ts, topic, payload, qos, retain)
    VALUES (?, ?, ?, ?, ?)]. *)
Record stmt := mkStmt {
  stmt_db : string;
  stmt_bindings : list value;
  stmt_busy : bool
}.

Definition insert_columns : list string :=
  ["ts"; "topic"; "payload"; "qos"; "retain"].

Definition unbound : list value := replicate 5 Null.

(** Preparing the insert needs the table and the five columns it names. *)
Definition can_prepare_insert (d : database) : bool :=
  match table_columns "messages" d with
  | Some cols => forallb (fun c => has_column c cols) insert_columns
  | None => false
  end.

Definition reset (s : stmt) : stmt :=
  mkStmt (stmt_db s) (stmt_bindings s) false.

Definition clear_bindings (s : stmt) : stmt :=
  mkStmt (stmt_db s) unbound (stmt_busy s).

(** Binding parameter [i] (counted from 1).  A statement that has been
    stepped and not reset refuses the binding. *)
Definition bind (i : Z) (v : value) (s : stmt) : Z * stmt :=
  if stmt_busy s then (SQLITE_MISUSE, s)
  else if (1 <=? i) && (i <=? 5) then
    (SQLITE_OK,
     mkStmt (stmt_db s) (<[Z.to_nat (i - 1) := v]> (stmt_bindings s)) false)
  else (SQLITE_RANGE, s).

(** The row an execution of the insert adds: every column of [messages] is
    declared NOT NULL, the id is the next value of the counter. *)
Definition row_of_bindings (next_id : Z) (b : list value) : option row :=
  match b with
  | [t; tp; p; q; r] =>
      if existsb is_null b then None
      else Some (mkRow next_id t tp p q r)
  | _ => None
  end.

(** Failures of the engine itself, which the surroundings decide. *)
Inductive fault :=
| Busy
| NoMem
| IoErr
| Corrupt
| Full.

Definition fault_code (f : fault) : Z :=
  match f with
  | Busy => 5
  | NoMem => 7
  | IoErr => 10
  | Corrupt => 11
  | Full => SQLITE_FULL
  end.

(** [sqlite3_step] of the insert: the engine fails, or a NOT NULL
    constraint refuses the row, or the row is added. *)
Definition step (fl : option fault) (s : stmt) (d : database)
  : Z * stmt * database :=
  let s' := mkStmt (stmt_db s) (stmt_bindings s) true in
  match fl with
  | Some f => (fault_code f, s', d)
  | None =>
      match row_of_bindings (db_sequence d + 1) (stmt_bindings s) with
      | Some r =>
          (SQLITE_DONE, s',
           mkDatabase (db_schema d) (db_messages d ++ [r]) (db_sequence d + 1))
      | None => (SQLITE_CONSTRAINT, s', d)
      end
  end.

End Sqlite.

(** ** libmosquitto, at the interface the program uses *)

Module Mosq.

Definition MOSQ_ERR_SUCCESS : Z := 0.

(** [struct mosquitto_message]. *)
Record message := mkMessage {
  mid : Z;
  topic : option string;
  payload : option (list byte);
  payloadlen : Z;
  qos : Z;
  retain : bool
}.

(** The functions of the program that are registered as callbacks. *)
Inductive callback :=
| cb_handle_connect
| cb_handle_disconnect
| cb_handle_message.

(** A session object as [mosquitto_new] returns it. *)
Record session := mkSession {
  client_id : string;
  clean_session : bool;
  on_connect : option callback;
  on_disconnect : option callback;
  on_message : option callback;
  reconnect_delay : option (Z * Z * bool)
}.

(** What the library's loop reports to the program. *)
Inductive net_event :=
| Connack (rc : Z)
| Disconnected (rc : Z)
| Publish (msg : option message)
| Signal (sig : Z).

End Mosq.

(** ** The world of the process *)

(** Calls that leave the process, in the order they are made. *)
Inductive event :=
| EvLog (level msg : string)
| EvStderr (line : string)
| EvSystem (cmd : string)
| EvSqlOpen (path : string)
| EvSqlExec (sql : string)
| EvSqlPrepare
| EvSqlReset
| EvSqlClearBindings
| EvSqlBind (i : Z) (v : Sqlite.value)
| EvSqlStep (rc : Z)
| EvSqlFinalize
| EvSqlClose
| EvMosqLibInit
| EvMosqNew (id : string)
| EvMosqConnect (host : string) (port keepalive : Z)
| EvMosqSubscribe (topic : string) (qos : Z)
| EvMosqDisconnect
| EvMosqLoopForever
| EvMosqDestroy
| EvMosqLibCleanup.

(** The configuration globals. *)
Record Config := mkConfig {
  g_broker_host : string;
  g_broker_port : Z;
  g_topic : string;
  g_db_path : string;
  g_netfix_script : string;
  g_reconnect_min : Z;
  g_reconnect_max : Z
}.

(** The remaining globals, the database files and the trace. *)
Record World := mkWorld {
  cfg : Config;
  g_should_stop : Z;
  g_db : option string;
  g_stmt_insert : option Sqlite.stmt;
  g_mosq : option Mosq.session;
  g_last_script_run : Z;
  disk : gmap string Sqlite.database;
  trace : list event
}.

Definition SCRIPT_MIN_INTERVAL_SEC : Z := 20.

(** The globals as their initialisers leave them. *)
Definition initial_config : Config :=
  mkConfig "192.168.4.1" 1883 "#" "./mqtt_messages.db"
    "./handle_network_error.sh" 2 60.

Definition initial_world (files : gmap string Sqlite.database) : World :=
  mkWorld initial_config 0 None None None 0 files [].

(** What the surroundings answer while one function of the program runs. *)
Record Env := mkEnv {
  env_time : Z;
  env_vars : gmap string string;
  env_pid : Z;
  env_system : string -> Z;
  env_malloc_fails : bool;
  env_open_rc : Z;
  env_step_fault : option Sqlite.fault;
  env_sqlite_errmsg : Z -> string;
  env_mosq_new_fails : bool;
  env_connect_rc : Z;
  env_subscribe_rc : Z;
  env_mosq_strerror : Z -> string
}.

(** ** A monad for the process: environment, state, fault *)

Definition M (A : Type) : Type := Env -> World -> option (A * World).

Definition ret {A} (a : A) : M A := fun _ w => Some (a, w).

Definition bind {A B} (m : M A) (k : A -> M B) : M B :=
  fun e w =>
    match m e w with
    | Some (a, w') => k a e w'
    | None => None
    end.

(** A fault: the C program has left defined behaviour. *)
Definition fault {A} : M A := fun _ _ => None.

Notation "x <- m ;; k" := (bind m (fun x => k))
  (at level 100, m at next level, right associativity).
Notation "m ;;; k" := (bind m (fun _ => k))
  (at level 100, right associativity).

Definition ask {A} (f : Env -> A) : M A := fun e w => Some (f e, w).
Definition get {A} (f : World -> A) : M A := fun _ w => Some (f w, w).
Definition modify (f : World -> World) : M unit := fun _ w => Some (tt, f w).

Definition set_cfg (c : Config) (w : World) : World :=
  mkWorld c (g_should_stop w) (g_db w) (g_stmt_insert w) (g_mosq w)
    (g_last_script_run w) (disk w) (trace w).
Definition set_should_stop (v : Z) (w : World) : World :=
  mkWorld (cfg w) v (g_db w) (g_stmt_insert w) (g_mosq w)
    (g_last_script_run w) (disk w) (trace w).
Definition set_db (v : option string) (w : World) : World :=
  mkWorld (cfg w) (g_should_stop w) v (g_stmt_insert w) (g_mosq w)
    (g_last_script_run w) (disk w) (trace w).
Definition set_stmt_insert (v : option Sqlite.stmt) (w : World) : World :=
  mkWorld (cfg w) (g_should_stop w) (g_db w) v (g_mosq w)
    (g_last_script_run w) (disk w) (trace w).
Definition set_mosq (v : option Mosq.session) (w : World) : World :=
  mkWorld (cfg w) (g_should_stop w) (g_db w) (g_stmt_insert w) v
    (g_last_script_run w) (disk w) (trace w).
Definition set_last_script_run (v : Z) (w : World) : World :=
  mkWorld (cfg w) (g_should_stop w) (g_db w) (g_stmt_insert w) (g_mosq w)
    v (disk w) (trace w).
Definition set_disk (v : gmap string Sqlite.database) (w : World) : World :=
  mkWorld (cfg w) (g_should_stop w) (g_db w) (g_stmt_insert w) (g_mosq w)
    (g_last_script_run w) v (trace w).
Definition set_trace (v : list event) (w : World) : World :=
  mkWorld (cfg w) (g_should_stop w) (g_db w) (g_stmt_insert w) (g_mosq w)
    (g_last_script_run w) (disk w) v.

(** Append one event to the trace. *)
Definition emit (ev : event) : M unit :=
  modify (fun w => set_trace (trace w ++ [ev]) w).

(** [time(NULL)]. *)
Definition time : M Z := ask env_time.

(** [log_ts]: one line on stderr; the time stamp it prints is left out. *)
Definition log_ts (level msg : string) : M unit := emit (EvLog level msg).

Definition fprintf_stderr (line : string) : M unit := emit (EvStderr line).

(** ["%d"]. *)
Definition fmt_d (n : Z) : string := pretty n.

(** [perror]: the text of [errno] that follows the prefix is left out. *)
Definition perror (s : string) : M unit := emit (EvStderr s).

(** [WEXITSTATUS]. *)
Definition WEXITSTATUS (status : Z) : Z := Z.land (Z.shiftr status 8) 255.

(** ** The repair trigger *)

(** [system(cmd)]: the command runs to completion before the call returns;
    the answer is its wait status, or -1 when it could not be launched. *)
Definition system (cmd : string) : M Z :=
  emit (EvSystem cmd) ;;; ask (fun e => env_system e cmd).

(** [run_network_repair_script].  [now] and [g_last_script_run] are both
    results of [time], so their difference stays inside [time_t]. *)
Definition run_network_repair_script : M Z :=
  now <- time ;;
  last <- get g_last_script_run ;;
  if now - last <? SCRIPT_MIN_INTERVAL_SEC then
    log_ts "INFO" "Skipping network repair script (throttled)" ;;;
    ret 0
  else
    modify (set_last_script_run now) ;;;
    script <- get (fun w => g_netfix_script (cfg w)) ;;
    let cmd := CStr.snprintf_s 512 ("sh -c '" +:+ script +:+ "'") in
    fprintf_stderr ("Running network repair script: " +:+ cmd) ;;;
    rc <- system cmd ;;
    if rc =? -1 then
      perror "system" ;;;
      ret (-1)
    else
      log_ts "INFO"
        (CStr.snprintf_s 128
           ("Network repair script exit code: " +:+ fmt_d (WEXITSTATUS rc))) ;;;
      ret 0.

(** ** The store writer *)

(** [sqlite3_open]: the handle is handed out even when opening fails; a
    successful open of a path with no file behind it creates an empty
    database there. *)
Definition sqlite3_open (path : string) : M Z :=
  emit (EvSqlOpen path) ;;;
  rc <- ask env_open_rc ;;
  modify (set_db (Some path)) ;;;
  (if rc =? Sqlite.SQLITE_OK then
     modify (fun w =>
       match disk w !! path with
       | Some _ => w
       | None => set_disk (<[path := Sqlite.empty_database]> (disk w)) w
       end)
   else ret tt) ;;;
  ret rc.

(** [sqlite3_exec] of a PRAGMA: a setting of the connection; it changes
    neither the schema nor the rows, and the program ignores its result. *)
Definition sqlite3_exec_pragma (sql : string) : M unit :=
  emit (EvSqlExec sql).

(** [sqlite3_exec] of a DDL script on the connection [g_db]. *)
Definition sqlite3_exec (sql : string) (script : list Sqlite.ddl_stmt) : M Z :=
  emit (EvSqlExec sql) ;;;
  db <- get g_db ;;
  files <- get disk ;;
  match db with
  | Some path =>
      match files !! path with
      | Some d =>
          let '(rc, d') := Sqlite.exec_script script d in
          modify (set_disk (<[path := d']> files)) ;;;
          ret rc
      | None => ret Sqlite.SQLITE_ERROR
      end
  | None => ret Sqlite.SQLITE_MISUSE
  end.

(** [sqlite3_prepare_v2] of the insert into [g_stmt_insert]; on an error
    the statement pointer is set to NULL. *)
Definition sqlite3_prepare_insert : M Z :=
  emit EvSqlPrepare ;;;
  db <- get g_db ;;
  files <- get disk ;;
  match db with
  | Some path =>
      match files !! path with
      | Some d =>
          if Sqlite.can_prepare_insert d then
            modify (set_stmt_insert
                      (Some (Sqlite.mkStmt path Sqlite.unbound false))) ;;;
            ret Sqlite.SQLITE_OK
          else
            modify (set_stmt_insert None) ;;;
            ret Sqlite.SQLITE_ERROR
      | None => modify (set_stmt_insert None) ;;; ret Sqlite.SQLITE_ERROR
      end
  | None => modify (set_stmt_insert None) ;;; ret Sqlite.SQLITE_MISUSE
  end.

Definition ddl_sql : string :=
  "CREATE TABLE IF NOT EXISTS messages (" +:+
  "  id       INTEGER PRIMARY KEY AUTOINCREMENT," +:+
  "  ts       INTEGER NOT NULL," +:+
  "  topic    TEXT    NOT NULL," +:+
  "  payload  TEXT    NOT NULL," +:+
  "  qos      INTEGER NOT NULL," +:+
  "  retain   INTEGER NOT NULL" +:+
  ");" +:+
  "CREATE INDEX IF NOT EXISTS idx_messages_ts ON messages(ts);" +:+
  "CREATE INDEX IF NOT EXISTS idx_messages_topic ON messages(topic);".

(** The three statements of [ddl_sql]. *)
Definition ddl : list Sqlite.ddl_stmt :=
  [ Sqlite.CreateTable true "messages"
      ["id"; "ts"; "topic"; "payload"; "qos"; "retain"];
    Sqlite.CreateIndex true "idx_messages_ts" "messages" "ts";
    Sqlite.CreateIndex true "idx_messages_topic" "messages" "topic" ].

(** [db_init]. *)
Definition db_init (path : string) : M Z :=
  rc <- sqlite3_open path ;;
  if negb (rc =? Sqlite.SQLITE_OK) then
    msg <- ask (fun e => env_sqlite_errmsg e rc) ;;
    fprintf_stderr ("sqlite3_open failed: " +:+ msg) ;;;
    ret (-1)
  else
    sqlite3_exec_pragma "PRAGMA journal_mode=WAL;" ;;;
    sqlite3_exec_pragma "PRAGMA synchronous=NORMAL;" ;;;
    sqlite3_exec_pragma "PRAGMA temp_store=MEMORY;" ;;;
    rc <- sqlite3_exec ddl_sql ddl ;;
    if negb (rc =? Sqlite.SQLITE_OK) then
      msg <- ask (fun e => env_sqlite_errmsg e rc) ;;
      fprintf_stderr ("sqlite3_exec(DDL) failed: " +:+ msg) ;;;
      ret (-1)
    else
      rc <- sqlite3_prepare_insert ;;
      if negb (rc =? Sqlite.SQLITE_OK) then
        msg <- ask (fun e => env_sqlite_errmsg e rc) ;;
        fprintf_stderr ("sqlite3_prepare_v2 failed: " +:+ msg) ;;;
        ret (-1)
      else ret 0.

(** [db_close]. *)
Definition db_close : M unit :=
  st <- get g_stmt_insert ;;
  (match st with
   | Some _ => emit EvSqlFinalize ;;; modify (set_stmt_insert None)
   | None => ret tt
   end) ;;;
  db <- get g_db ;;
  match db with
  | Some _ => emit EvSqlClose ;;; modify (set_db None)
  | None => ret tt
  end.

(** A call on the statement [g_stmt_insert] points at. *)
Definition on_stmt (ev : event) (f : Sqlite.stmt -> Z * Sqlite.stmt) : M Z :=
  emit ev ;;;
  st <- get g_stmt_insert ;;
  match st with
  | Some s =>
      let '(rc, s') := f s in
      modify (set_stmt_insert (Some s')) ;;; ret rc
  | None => ret Sqlite.SQLITE_MISUSE
  end.

Definition sqlite3_reset : M Z :=
  on_stmt EvSqlReset (fun s => (Sqlite.SQLITE_OK, Sqlite.reset s)).

Definition sqlite3_clear_bindings : M Z :=
  on_stmt EvSqlClearBindings
    (fun s => (Sqlite.SQLITE_OK, Sqlite.clear_bindings s)).

Definition sqlite3_bind_int64 (i : Z) (n : Z) : M Z :=
  on_stmt (EvSqlBind i (Sqlite.Integer n)) (Sqlite.bind i (Sqlite.Integer n)).

Definition sqlite3_bind_int (i : Z) (n : Z) : M Z :=
  on_stmt (EvSqlBind i (Sqlite.Integer n)) (Sqlite.bind i (Sqlite.Integer n)).

(** [sqlite3_bind_text(stmt, i, p, -1, SQLITE_TRANSIENT)]: [p] is read up to
    its terminating NUL and copied; a NULL [p] binds SQL NULL. *)
Definition text_value (p : option string) : Sqlite.value :=
  match p with
  | Some s => Sqlite.Text s
  | None => Sqlite.Null
  end.

Definition sqlite3_bind_text (i : Z) (p : option string) : M Z :=
  on_stmt (EvSqlBind i (text_value p)) (Sqlite.bind i (text_value p)).

(** [sqlite3_step] on [g_stmt_insert]. *)
Definition sqlite3_step : M Z :=
  st <- get g_stmt_insert ;;
  files <- get disk ;;
  fl <- ask env_step_fault ;;
  match st with
  | Some s =>
      match files !! Sqlite.stmt_db s with
      | Some d =>
          let '(rc, s', d') := Sqlite.step fl s d in
          modify (set_stmt_insert (Some s')) ;;;
          modify (set_disk (<[Sqlite.stmt_db s := d']> files)) ;;;
          emit (EvSqlStep rc) ;;;
          ret rc
      | None => emit (EvSqlStep Sqlite.SQLITE_ERROR) ;;; ret Sqlite.SQLITE_ERROR
      end
  | None => emit (EvSqlStep Sqlite.SQLITE_MISUSE) ;;; ret Sqlite.SQLITE_MISUSE
  end.

(** [malloc]: whether the allocation succeeded. *)
Definition malloc (size : Z) : M bool := ask (fun e => negb (env_malloc_fails e)).

(** [memcpy] of [n] bytes out of a buffer; reading past its end is a fault. *)
Definition memcpy (src : list byte) (n : Z) : M (list byte) :=
  if n <=? Z.of_nat (length src) then ret (take (Z.to_nat n) src) else fault.

(** The bytes of a buffer before its first NUL. *)
Fixpoint until_nul (buf : list byte) : list byte :=
  match buf with
  | [] => []
  | b :: rest => if Byte.eqb b x00 then [] else b :: until_nul rest
  end.

(** A [char] buffer read as a C string. *)
Definition c_string (buf : list byte) : string :=
  string_of_list_byte (until_nul buf).

(** [db_insert_message]. *)
Definition db_insert_message (topic : option string)
    (payload : option (list byte)) (payloadlen qos retain : Z) : M unit :=
  st <- get g_stmt_insert ;;
  match st with
  | None => ret tt
  | Some _ =>
      now <- time ;;
      sqlite3_reset ;;;
      sqlite3_clear_bindings ;;;
      sqlite3_bind_int64 1 now ;;;
      sqlite3_bind_text 2 topic ;;;
      pl <- match payload with
            | Some src =>
                if 0 <=? payloadlen then
                  ok <- malloc (payloadlen + 1) ;;
                  if ok : bool then
                    buf <- memcpy src payloadlen ;;
                    ret (Some (buf ++ [x00])%list)
                  else ret None
                else ret None
            | None => ret None
            end ;;
      sqlite3_bind_text 3
        (Some (match pl with Some buf => c_string buf | None => "" end)) ;;;
      sqlite3_bind_int 4 qos ;;;
      sqlite3_bind_int 5 retain ;;;
      rc <- sqlite3_step ;;
      (if negb (rc =? Sqlite.SQLITE_DONE) then
         msg <- ask (fun e => env_sqlite_errmsg e rc) ;;
         fprintf_stderr ("sqlite3_step(insert) failed: " +:+ msg)
       else ret tt) ;;;
      ret tt
  end.

(** ** MQTT callbacks *)

Definition mosquitto_subscribe (topic : string) (qos : Z) : M Z :=
  emit (EvMosqSubscribe topic qos) ;;; ask env_subscribe_rc.

Definition mosquitto_disconnect : M Z :=
  emit EvMosqDisconnect ;;; ret Mosq.MOSQ_ERR_SUCCESS.

(** [handle_connect]. *)
Definition handle_connect (rc : Z) : M unit :=
  log_ts "INFO" (CStr.snprintf_s 128 ("Connected with rc=" +:+ fmt_d rc)) ;;;
  if rc =? 0 then
    topic <- get (fun w => g_topic (cfg w)) ;;
    s <- mosquitto_subscribe topic 0 ;;
    if negb (s =? Mosq.MOSQ_ERR_SUCCESS) then
      msg <- ask (fun e => env_mosq_strerror e s) ;;
      fprintf_stderr ("mosquitto_subscribe failed: " +:+ msg)
    else fprintf_stderr ("Subscribed to " +:+ topic)
  else ret tt.

(** [handle_disconnect]. *)
Definition handle_disconnect (rc : Z) : M unit :=
  log_ts "WARN"
    (CStr.snprintf_s 128
       ("Disconnected (rc=" +:+ fmt_d rc +:+
        "). Attempting repair + reconnect…")) ;;;
  run_network_repair_script ;;;
  ret tt.

(** ["%.*s"]: at most [precision] bytes, fewer if a NUL comes first; a
    negative precision counts as none given.  What the C library prints for
    a NULL pointer is left out. *)
Definition fmt_precision_s (precision : Z) (p : option (list byte)) : string :=
  match p with
  | Some buf =>
      if precision <? 0 then c_string buf
      else c_string (take (Z.to_nat precision) buf)
  | None => ""
  end.

Definition fmt_s (p : option string) : string :=
  match p with
  | Some s => s
  | None => "(null)"
  end.

(** [handle_message]. *)
Definition handle_message (msg : option Mosq.message) : M unit :=
  match msg with
  | None => ret tt
  | Some m =>
      db_insert_message (Mosq.topic m) (Mosq.payload m) (Mosq.payloadlen m)
        (Mosq.qos m) (Z.b2z (Mosq.retain m)) ;;;
      fprintf_stderr
        ("MSG " +:+ fmt_s (Mosq.topic m) +:+ " => " +:+
         fmt_precision_s (Mosq.payloadlen m) (Mosq.payload m))
  end.

(** [on_signal]. *)
Definition on_signal (sig : Z) : M unit :=
  modify (set_should_stop 1) ;;;
  mosq <- get g_mosq ;;
  match mosq with
  | Some _ => mosquitto_disconnect ;;; ret tt
  | None => ret tt
  end.

(** ** The library's loop

    [mosquitto_loop_forever] is the library's: it waits for the network,
    reconnects with the configured delays, and calls back into the program.
    Here it is driven by a script of what it reports, each report with the
    environment that holds while its callback runs; it ends, with the
    result code it is given, when the script does. *)

Definition local {A} (e : Env) (m : M A) : M A := fun _ w => m e w.

Definition dispatch (ev : Mosq.net_event) : M unit :=
  mosq <- get g_mosq ;;
  match ev, mosq with
  | Mosq.Signal sig, _ => on_signal sig
  | Mosq.Connack rc, Some s =>
      match Mosq.on_connect s with
      | Some Mosq.cb_handle_connect => handle_connect rc
      | _ => ret tt
      end
  | Mosq.Disconnected rc, Some s =>
      match Mosq.on_disconnect s with
      | Some Mosq.cb_handle_disconnect => handle_disconnect rc
      | _ => ret tt
      end
  | Mosq.Publish msg, Some s =>
      match Mosq.on_message s with
      | Some Mosq.cb_handle_message => handle_message msg
      | _ => ret tt
      end
  | _, None => ret tt
  end.

Fixpoint run_events (script : list (Env * Mosq.net_event)) : M unit :=
  match script with
  | [] => ret tt
  | (e, ev) :: rest => local e (dispatch ev) ;;; run_events rest
  end.

Definition mosquitto_loop_forever (script : list (Env * Mosq.net_event))
    (loop_rc : Z) : M Z :=
  emit EvMosqLoopForever ;;;
  run_events script ;;;
  ret loop_rc.

(** ** [main] *)

Definition update_session (f : Mosq.session -> Mosq.session) : M unit :=
  modify (fun w => set_mosq (option_map f (g_mosq w)) w).

Definition mosquitto_connect_callback_set (cb : Mosq.callback) : M unit :=
  update_session (fun s =>
    Mosq.mkSession (Mosq.client_id s) (Mosq.clean_session s) (Some cb)
      (Mosq.on_disconnect s) (Mosq.on_message s) (Mosq.reconnect_delay s)).

Definition mosquitto_disconnect_callback_set (cb : Mosq.callback) : M unit :=
  update_session (fun s =>
    Mosq.mkSession (Mosq.client_id s) (Mosq.clean_session s)
      (Mosq.on_connect s) (Some cb) (Mosq.on_message s)
      (Mosq.reconnect_delay s)).

Definition mosquitto_message_callback_set (cb : Mosq.callback) : M unit :=
  update_session (fun s =>
    Mosq.mkSession (Mosq.client_id s) (Mosq.clean_session s)
      (Mosq.on_connect s) (Mosq.on_disconnect s) (Some cb)
      (Mosq.reconnect_delay s)).

(** [mosquitto_reconnect_delay_set(mosq, reconnect_delay,
    reconnect_delay_max, reconnect_exponential_backoff)].  [main] calls it
    with [true], [g_reconnect_min] and [g_reconnect_max], which C converts
    to 1, to the minimum as it is, and to whether the maximum is not 0. *)
Definition mosquitto_reconnect_delay_set
    (reconnect_delay reconnect_delay_max : Z)
    (reconnect_exponential_backoff : bool) : M unit :=
  update_session (fun s =>
    Mosq.mkSession (Mosq.client_id s) (Mosq.clean_session s)
      (Mosq.on_connect s) (Mosq.on_disconnect s) (Mosq.on_message s)
      (Some (reconnect_delay, reconnect_delay_max,
             reconnect_exponential_backoff))).

Definition mosquitto_new (id : string) (clean : bool) : M unit :=
  emit (EvMosqNew id) ;;;
  fails <- ask env_mosq_new_fails ;;
  if fails : bool then modify (set_mosq None)
  else modify (set_mosq (Some (Mosq.mkSession id clean None None None None))).

Definition mosquitto_connect (host : string) (port keepalive : Z) : M Z :=
  emit (EvMosqConnect host port keepalive) ;;; ask env_connect_rc.

Definition getenv (name : string) : M (option string) :=
  ask (fun e => env_vars e !! name).

(** [install_sig_handlers]: from here on SIGINT and SIGTERM run
    [on_signal]; the loop's script delivers them as [Mosq.Signal]. *)
Definition install_sig_handlers : M unit := ret tt.

Section Main.

Variable LONG_MAX : Z.

(** The first lines of [main]: the environment overrides. *)
Definition load_config : M unit :=
  broker <- getenv "MQTT_BROKER" ;;
  port <- getenv "MQTT_PORT" ;;
  topic <- getenv "MQTT_TOPIC" ;;
  path <- getenv "MQTT_DB_PATH" ;;
  script <- getenv "NETWORK_FIX_SCRIPT" ;;
  rmin <- getenv "RECONNECT_MIN_S" ;;
  rmax <- getenv "RECONNECT_MAX_S" ;;
  modify (set_cfg
    (mkConfig
       (CStr.snprintf_s 128 (env_or_default broker "192.168.4.1"))
       (env_or_default_int LONG_MAX port 1883)
       (CStr.snprintf_s 128 (env_or_default topic "#"))
       (CStr.snprintf_s 256 (env_or_default path "./mqtt_messages.db"))
       (CStr.snprintf_s 256
          (env_or_default script "./handle_network_error.sh"))
       (env_or_default_int LONG_MAX rmin 2)
       (env_or_default_int LONG_MAX rmax 60))).

(** [main]; the result is the exit code of the process. *)
Definition main (script : list (Env * Mosq.net_event)) (loop_rc : Z) : M Z :=
  load_config ;;;
  install_sig_handlers ;;;
  path <- get (fun w => g_db_path (cfg w)) ;;
  r <- db_init path ;;
  if negb (r =? 0) then
    fprintf_stderr ("Failed to init DB at " +:+ path) ;;;
    ret 1
  else
    emit EvMosqLibInit ;;;
    cid_env <- getenv "MQTT_CLIENT_ID" ;;
    pid <- ask env_pid ;;
    let cid :=
      match cid_env with
      | Some s =>
          if CStr.at_nul s
          then CStr.snprintf_s 64 ("mqtt2sqlite-" +:+ fmt_d pid)
          else s
      | None => CStr.snprintf_s 64 ("mqtt2sqlite-" +:+ fmt_d pid)
      end in
    mosquitto_new cid true ;;;
    mosq <- get g_mosq ;;
    match mosq with
    | None =>
        fprintf_stderr "mosquitto_new failed" ;;;
        db_close ;;;
        emit EvMosqLibCleanup ;;;
        ret 1
    | Some _ =>
        mosquitto_connect_callback_set Mosq.cb_handle_connect ;;;
        mosquitto_disconnect_callback_set Mosq.cb_handle_disconnect ;;;
        mosquitto_message_callback_set Mosq.cb_handle_message ;;;
        rmin <- get (fun w => g_reconnect_min (cfg w)) ;;
        rmax <- get (fun w => g_reconnect_max (cfg w)) ;;
        mosquitto_reconnect_delay_set (Z.b2z true) rmin (negb (rmax =? 0)) ;;;
        host <- get (fun w => g_broker_host (cfg w)) ;;
        port <- get (fun w => g_broker_port (cfg w)) ;;
        rc <- mosquitto_connect host port 30 ;;
        (if negb (rc =? Mosq.MOSQ_ERR_SUCCESS) then
           msg <- ask (fun e => env_mosq_strerror e rc) ;;
           fprintf_stderr ("Initial connect failed: " +:+ msg) ;;;
           run_network_repair_script ;;;
           ret tt
         else ret tt) ;;;
        rc <- mosquitto_loop_forever script loop_rc ;;
        (if negb (rc =? Mosq.MOSQ_ERR_SUCCESS) then
           msg <- ask (fun e => env_mosq_strerror e rc) ;;
           fprintf_stderr ("mosquitto_loop_forever ended: " +:+ msg)
         else ret tt) ;;;
        emit EvMosqDestroy ;;;
        emit EvMosqLibCleanup ;;;
        db_close ;;;
        ret 0
    end.

End Main.

(** * reset_wemos: the reset pulse on the modem lines

    Source: [freetz-ng/mqtt_to_sqlite/reset_wemos.c].

    A second, small program of the same directory: it opens a serial
    device and pulses its RTS line, DTR held off, to reset the board behind
    it.  The process is a sequence of system calls; the answers of the
    kernel are read from a [Kernel] record and the calls are appended to a
    list.  A computation ends with a value or, through [exit], with the
    exit code of the process. *)

Module ResetWemos.

Definition TIOCM_DTR : Z := 2.
Definition TIOCM_RTS : Z := 4.
Definition EXIT_FAILURE : Z := 1.

(** The calls that leave the process. *)
Inductive call :=
| Open (dev : string)
| GetFl (fd : Z)
| SetFl (fd flags : Z)
| ModemGet (fd : Z)
| ModemSet (fd mstate : Z)
| Nanosleep (tv_sec tv_nsec : Z)
| Perror (msg : string)
| Close (fd : Z).

(** What the kernel answers: the descriptor [open] returns, the results of
    the two [fcntl] calls, the result of [ioctl(TIOCMGET)] and the lines it
    reports, and the result of the n-th [ioctl(TIOCMSET)], counted from 0. *)
Record Kernel := mkKernel {
  k_open : string -> Z;
  k_getfl : Z;
  k_setfl : Z;
  k_tiocmget : Z;
  k_lines : Z;
  k_tiocmset : nat -> Z
}.

(** A computation of the process: a value, or the exit code. *)
Definition P (A : Type) : Type := Kernel -> list call -> (A + Z) * list call.

Definition pret {A} (a : A) : P A := fun _ t => (inl a, t).

Definition pbind {A B} (m : P A) (f : A -> P B) : P B :=
  fun k t =>
    match m k t with
    | (inl a, t') => f a k t'
    | (inr code, t') => (inr code, t')
    end.

Notation "x <~ m ;; f" := (pbind m (fun x => f))
  (at level 100, m at next level, right associativity).
Notation "m ;;~ f" := (pbind m (fun _ => f))
  (at level 100, right associativity).

Definition pcall (c : call) : P unit := fun _ t => (inl tt, t ++ [c]).

Definition answer {A} (f : Kernel -> A) : P A := fun k t => (inl (f k), t).

(** [exit(code)]: nothing that follows is run. *)
Definition exit {A} (code : Z) : P A := fun _ t => (inr code, t).

Definition is_modem_set (c : call) : bool :=
  match c with
  | ModemSet _ _ => true
  | _ => false
  end.

Section Program.

(** The widths of [unsigned] and [unsigned long], and the value of
    [O_NONBLOCK], are the platform's. *)
Variables UINT_MAX ULONG_MAX O_NONBLOCK : Z.

(** [strtoul(s, NULL, 10)]: white space, one optional sign, the longest run
    of digits; a value out of range gives [ULONG_MAX], a minus sign negates
    in [unsigned long], no digit gives 0. *)
Definition strtoul10 (v : string) : Z :=
  let ws := CStr.span_length CStr.isspace v in
  let s1 := CStr.advance ws v in
  let neg := CStr.starts_with "-" s1 in
  let sg := if neg || CStr.starts_with "+" s1 then 1%nat else 0%nat in
  let s2 := CStr.advance sg s1 in
  let nd := CStr.span_length CStr.isdigit s2 in
  match nd with
  | O => 0
  | _ =>
      let m := CStr.decimal_value 0 (CStr.prefix nd s2) in
      if m >? ULONG_MAX then ULONG_MAX
      else if (neg : bool) then (- m) mod (ULONG_MAX + 1)
      else m
  end.

(** [msleep]: the product is taken in [unsigned long]. *)
Definition msleep (ms : Z) : P unit :=
  pcall (Nanosleep (ms / 1000)
           (((ms mod 1000) * 1000000) mod (ULONG_MAX + 1))).

(** [die]. *)
Definition die {A} (msg : string) : P A :=
  pcall (Perror msg) ;;~ exit EXIT_FAILURE.

(** [open(dev, O_RDWR | O_NOCTTY | O_NONBLOCK)]. *)
Definition open (dev : string) : P Z :=
  pcall (Open dev) ;;~ answer (fun k => k_open k dev).

Definition fcntl_getfl (fd : Z) : P Z := pcall (GetFl fd) ;;~ answer k_getfl.

Definition fcntl_setfl (fd flags : Z) : P Z :=
  pcall (SetFl fd flags) ;;~ answer k_setfl.

(** [ioctl(fd, TIOCMGET, &mstate)]: the result and what [mstate] holds
    afterwards, which is what it held when the call fails. *)
Definition ioctl_tiocmget (fd mstate : Z) : P (Z * Z) :=
  pcall (ModemGet fd) ;;~
  rc <~ answer k_tiocmget ;;
  lines <~ answer k_lines ;;
  pret (rc, if rc <? 0 then mstate else lines).

(** [ioctl(fd, TIOCMSET, &mstate)]. *)
Definition ioctl_tiocmset (fd mstate : Z) : P Z :=
  fun k t =>
    (inl (k_tiocmset k (length (List.filter is_modem_set t))),
     t ++ [ModemSet fd mstate]).

Definition close (fd : Z) : P Z := pcall (Close fd) ;;~ pret 0.

(** [main]; [args] are [argv[1]] and what follows it. *)
Definition main (args : list string) : P Z :=
  let dev := match args with d :: _ => d | [] => "/dev/ttyUSB0" end in
  let pulse_ms :=
    match args with
    | _ :: p :: _ => strtoul10 p mod (UINT_MAX + 1)
    | _ => 120
    end in
  fd <~ open dev ;;
  (if fd <? 0 then die "open" else pret tt) ;;~
  flags <~ fcntl_getfl fd ;;
  (if 0 <=? flags
   then fcntl_setfl fd (Z.land flags (Z.lnot O_NONBLOCK)) ;;~ pret tt
   else pret tt) ;;~
  r <~ ioctl_tiocmget fd 0 ;;
  (if fst r <? 0 then die "ioctl(TIOCMGET)" else pret tt) ;;~
  let mstate := Z.land (snd r) (Z.lnot TIOCM_DTR) in
  rc <~ ioctl_tiocmset fd mstate ;;
  (if rc <? 0 then die "ioctl(TIOCMSET DTR off)" else pret tt) ;;~
  msleep 50 ;;~
  let mstate := Z.lor mstate TIOCM_RTS in
  rc <~ ioctl_tiocmset fd mstate ;;
  (if rc <? 0 then die "ioctl(TIOCMSET RTS on)" else pret tt) ;;~
  msleep pulse_ms ;;~
  let mstate := Z.land mstate (Z.lnot TIOCM_RTS) in
  rc <~ ioctl_tiocmset fd mstate ;;
  (if rc <? 0 then die "ioctl(TIOCMSET RTS off)" else pret tt) ;;~
  msleep 50 ;;~
  close fd ;;~
  pret 0.

(** The device and the length of the pulse [main] settles on. *)
Definition device_of (args : list string) : string :=
  match args with d :: _ => d | [] => "/dev/ttyUSB0" end.

Definition pulse_of (args : list string) : Z :=
  match args with
  | _ :: p :: _ => strtoul10 p mod (UINT_MAX + 1)
  | _ => 120
  end.

(** Every call the program checks succeeds. *)
Definition all_succeed (k : Kernel) (args : list string) : Prop :=
  0 <= k_open k (device_of args) /\
  0 <= k_tiocmget k /\
  0 <= k_tiocmset k 0%nat /\
  0 <= k_tiocmset k 1%nat /\
  0 <= k_tiocmset k 2%nat.

End Program.

(** The values handed to [ioctl(TIOCMSET)], in order. *)
Definition modem_writes (t : list call) : list Z :=
  omap (fun c => match c with ModemSet _ m => Some m | _ => None end) t.

(** The milliseconds a [timespec] amounts to, when it is a valid one. *)
Definition timespec_ms (tv_sec tv_nsec : Z) : option Z :=
  if (0 <=? tv_sec) && (0 <=? tv_nsec) && (tv_nsec <? 1000000000) &&
     (tv_nsec mod 1000000 =? 0)
  then Some (tv_sec * 1000 + tv_nsec / 1000000)
  else None.

(** The sleeps of a run, in milliseconds. *)
Definition sleeps (t : list call) : list (option Z) :=
  omap (fun c =>
          match c with
          | Nanosleep s n => Some (timespec_ms s n)
          | _ => None
          end) t.

Definition is_close (c : call) : bool :=
  match c with
  | Close _ => true
  | _ => false
  end.

(** A kernel on which every call works, the lines standing at [lines]. *)
Definition working_kernel (lines : Z) : Kernel :=
  mkKernel (fun _ => 3) 2050 0 0 lines (fun _ => 0).

End ResetWemos.

(** ** Vocabulary of the properties *)

(** Decimal integers, as the configuration values are meant to be. *)

Module Decimal.

(** All characters of [s] satisfy [p]. *)
Fixpoint all_chars (p : ascii -> bool) (s : string) : bool :=
  match s with
  | String c s' => p c && all_chars p s'
  | EmptyString => true
  end.

(** The value of the digits [ds] under the sign [sg]. *)
Definition signed_value (sg ds : string) : Z :=
  if String.eqb sg "-" then - CStr.decimal_value 0 ds
  else CStr.decimal_value 0 ds.

(** [s] is, from its first to its last character, a decimal integer of
    value [n]: white space, one optional sign, at least one digit. *)
Definition decimal_integer (s : string) (n : Z) : Prop :=
  exists ws sg ds,
    s = ws +:+ sg +:+ ds /\
    all_chars CStr.isspace ws = true /\
    (sg = "" \/ sg = "+" \/ sg = "-") /\
    ds <> "" /\
    all_chars CStr.isdigit ds = true /\
    n = signed_value sg ds.

End Decimal.

(** An environment in which nothing fails, at a given time. *)
Definition quiet_env (t : Z) : Env :=
  mkEnv t ∅ 1 (fun _ => 0) false 0 None (fun _ => "") false 0 0 (fun _ => "").

(** The world a computation leaves behind. *)
Definition world_after {A} (m : M A) (e : Env) (w : World) : World :=
  match m e w with
  | Some (_, w') => w'
  | None => w
  end.

(** A process that has just initialised its store, on a machine with no
    database file yet. *)
Definition ready_world : World :=
  world_after (db_init "./mqtt_messages.db") (quiet_env 1700000000)
    (initial_world ∅).

Definition ready_stmt : Sqlite.stmt :=
  Sqlite.mkStmt "./mqtt_messages.db" Sqlite.unbound false.

(** An environment in which the disk is full, at a given time. *)
Definition disk_full_env (t : Z) : Env :=
  mkEnv t ∅ 1 (fun _ => 0) false 0 (Some Sqlite.Full)
    (fun _ => "database or disk is full") false 0 0 (fun _ => "").

(** The repair trigger, observed on the trace. *)

(** The commands handed to [system], oldest first. *)
Fixpoint system_calls (t : list event) : list string :=
  match t with
  | [] => []
  | EvSystem cmd :: rest => cmd :: system_calls rest
  | _ :: rest => system_calls rest
  end.

(** The command line [run_network_repair_script] builds. *)
Definition repair_cmd (w : World) : string :=
  CStr.snprintf_s 512 ("sh -c '" +:+ g_netfix_script (cfg w) +:+ "'").

(** Whether a call of the trigger in [e] from [w] hands a command to
    [system]: the trace is longer by one such call afterwards. *)
Definition repair_ran (e : Env) (w : World) : bool :=
  match run_network_repair_script e w with
  | Some (_, w') =>
      (length (system_calls (trace w)) <? length (system_calls (trace w')))%nat
  | None => false
  end.

(** The world after a call of the trigger. *)
Definition after_repair (e : Env) (w : World) : World :=
  match run_network_repair_script e w with
  | Some (_, w') => w'
  | None => w
  end.

(** A sequence of trigger calls, one per environment: for each call,
    whether it ran the command. *)
Fixpoint repair_sequence (es : list Env) (w : World) : list bool :=
  match es with
  | [] => []
  | e :: rest => repair_ran e w :: repair_sequence rest (after_repair e w)
  end.

(** The sentence "for any two trigger calls more than the interval apart,
    the command runs for each", read on two calls that follow each other. *)
Definition runs_for_each_when_apart : Prop :=
  forall (e1 e2 : Env) (w : World),
    SCRIPT_MIN_INTERVAL_SEC < env_time e2 - env_time e1 ->
    repair_ran e1 w = true /\ repair_ran e2 (after_repair e1 w) = true.

(** The store writer, observed on the statement and the trace. *)

(** The buffer [payload] points at holds at least [payloadlen] bytes, as
    it does for every message the library delivers. *)
Definition payload_fits (payload : option (list byte)) (payloadlen : Z) : Prop :=
  match payload with
  | Some src => payloadlen <= Z.of_nat (length src)
  | None => True
  end.

(** The text [db_insert_message] hands to the payload column. *)
Definition stored_payload (malloc_fails : bool) (payload : option (list byte))
    (payloadlen : Z) : string :=
  match payload with
  | Some src =>
      if (0 <=? payloadlen) && negb malloc_fails
      then c_string (take (Z.to_nat payloadlen) src ++ [x00])
      else ""
  | None => ""
  end.

(** The five parameters of one insert. *)
Definition insert_bindings (e : Env) (topic : option string)
    (payload : option (list byte)) (payloadlen qos retain : Z)
  : list Sqlite.value :=
  [ Sqlite.Integer (env_time e);
    text_value topic;
    Sqlite.Text (stored_payload (env_malloc_fails e) payload payloadlen);
    Sqlite.Integer qos;
    Sqlite.Integer retain ].

(** The calls one insert makes on the statement, up to the step. *)
Definition insert_calls (b : list Sqlite.value) : list event :=
  [EvSqlReset; EvSqlClearBindings] ++
  imap (fun i v => EvSqlBind (Z.of_nat i + 1) v) b.

(** What is bound to the payload parameter of the statement. *)
Definition payload_binding (w : World) : option Sqlite.value :=
  match g_stmt_insert w with
  | Some st => Sqlite.stmt_bindings st !! 2%nat
  | None => None
  end.

(** The rows of [messages] in the database the statement belongs to. *)
Definition stored_rows (w : World) : list Sqlite.row :=
  match g_stmt_insert w with
  | Some st =>
      match disk w !! Sqlite.stmt_db st with
      | Some d => Sqlite.db_messages d
      | None => []
      end
  | None => []
  end.

(** The calls made on the prepared statement. *)
Definition is_stmt_call (ev : event) : bool :=
  match ev with
  | EvSqlReset | EvSqlClearBindings | EvSqlBind _ _ | EvSqlStep _
  | EvSqlFinalize => true
  | _ => false
  end.

(** The latest call made on the prepared statement. *)
Definition last_stmt_call (t : list event) : option event :=
  last (List.filter is_stmt_call t).

(** The row made of five bound values under a given id. *)
Definition insert_row (next_id : Z) (e : Env) (topic : string)
    (payload : option (list byte)) (payloadlen qos retain : Z) : Sqlite.row :=
  Sqlite.mkRow next_id (Sqlite.Integer (env_time e)) (Sqlite.Text topic)
    (Sqlite.Text (stored_payload (env_malloc_fails e) payload payloadlen))
    (Sqlite.Integer qos) (Sqlite.Integer retain).

(** The sentence "every insert call binds, executes, and resets the
    prepared statement for reuse": the last thing a call does to the
    statement is to reset it. *)
Definition resets_after_execute : Prop :=
  forall (topic : option string) (payload : option (list byte))
         (payloadlen qos retain : Z) (e : Env) (w w' : World)
         (st : Sqlite.stmt) (d : Sqlite.database),
    g_stmt_insert w = Some st ->
    disk w !! Sqlite.stmt_db st = Some d ->
    payload_fits payload payloadlen ->
    db_insert_message topic payload payloadlen qos retain e w = Some (tt, w') ->
    last_stmt_call (trace w') = Some EvSqlReset.

(** The session, observed on the trace. *)

Definition is_mosq_call (ev : event) : bool :=
  match ev with
  | EvMosqLibInit | EvMosqNew _ | EvMosqConnect _ _ _ | EvMosqSubscribe _ _
  | EvMosqDisconnect | EvMosqLoopForever | EvMosqDestroy | EvMosqLibCleanup =>
      true
  | _ => false
  end.

(** The calls made into libmosquitto, oldest first. *)
Definition mosq_calls (t : list event) : list event :=
  List.filter is_mosq_call t.

(** Every message of a script has a payload that fits its length. *)
Definition event_fits (ev : Mosq.net_event) : Prop :=
  match ev with
  | Mosq.Publish (Some m) => payload_fits (Mosq.payload m) (Mosq.payloadlen m)
  | _ => True
  end.

Definition script_fits (script : list (Env * Mosq.net_event)) : Prop :=
  Forall (fun p => event_fits (snd p)) script.

(** A computation that never faults, gives a result that satisfies [P],
    and leaves the trace it found as a prefix of the one it leaves. *)
Definition steady {A} (m : M A) (P : A -> Prop) : Prop :=
  forall (e : Env) (w : World),
    exists a w',
      m e w = Some (a, w') /\ P a /\ exists t, trace w' = trace w ++ t.

(** The environment of a start-up in which the broker cannot be reached. *)
Definition unreachable_env (t : Z) : Env :=
  mkEnv t ∅ 4242 (fun _ => 0) false 0 None (fun _ => "") false 14 0
    (fun _ => "Connection refused").

(** The schema, observed. *)

Definition if_not_exists (s : Sqlite.ddl_stmt) : bool :=
  match s with
  | Sqlite.CreateTable ine _ _ => ine
  | Sqlite.CreateIndex ine _ _ _ => ine
  end.

(** What a statement is meant to create is there (for an index, with the
    table it is on). *)
Definition created (s : Sqlite.ddl_stmt) (d : Sqlite.database) : bool :=
  match s with
  | Sqlite.CreateTable _ name _ =>
      existsb (Sqlite.is_table name) (Sqlite.db_schema d)
  | Sqlite.CreateIndex _ name tbl _ =>
      existsb (Sqlite.is_index name) (Sqlite.db_schema d) &&
      existsb (Sqlite.is_table tbl) (Sqlite.db_schema d)
  end.

(** No table and no index the program creates is there twice. *)
Definition no_duplicates (d : Sqlite.database) : Prop :=
  (Sqlite.count_tables "messages" d <= 1)%nat /\
  (Sqlite.count_indexes "idx_messages_ts" d <= 1)%nat /\
  (Sqlite.count_indexes "idx_messages_topic" d <= 1)%nat.

(** Exactly one of each. *)
Definition one_of_each (d : Sqlite.database) : Prop :=
  Sqlite.count_tables "messages" d = 1%nat /\
  Sqlite.count_indexes "idx_messages_ts" d = 1%nat /\
  Sqlite.count_indexes "idx_messages_topic" d = 1%nat.

(** The database behind a path; a path with no file behind it is opened
    as an empty database. *)
Definition database_at (path : string) (w : World) : Sqlite.database :=
  default Sqlite.empty_database (disk w !! path).

(** The configuration, observed. *)



(** The variable is unset or set to nothing. *)
Definition no_override (e : Env) (name : string) : Prop :=
  env_vars e !! name = None \/ env_vars e !! name = Some "".

(** The loop, observed on the store. *)

(** The rows a script of reports adds to [messages] when the counter of ids
    stands at [seq]: one row for each report of a message that has a topic
    and whose execute step the engine lets through, in the order of the
    reports, under the ids that follow [seq]. *)
Fixpoint accepted_rows (seq : Z) (script : list (Env * Mosq.net_event))
  : list Sqlite.row :=
  match script with
  | [] => []
  | (e, Mosq.Publish (Some m)) :: rest =>
      match env_step_fault e, Mosq.topic m with
      | None, Some t =>
          insert_row (seq + 1) e t (Mosq.payload m) (Mosq.payloadlen m)
            (Mosq.qos m) (Z.b2z (Mosq.retain m)) ::
          accepted_rows (seq + 1) rest
      | _, _ => accepted_rows seq rest
      end
  | _ :: rest => accepted_rows seq rest
  end.

(** [w'] differs from [w] in nothing that belongs to the store, the
    session or the configuration. *)
Definition same_store (w w' : World) : Prop :=
  cfg w' = cfg w /\
  g_db w' = g_db w /\
  g_stmt_insert w' = g_stmt_insert w /\
  g_mosq w' = g_mosq w /\
  disk w' = disk w.

(** The database a script of reports leaves where [d] was. *)
Definition after_script (script : list (Env * Mosq.net_event))
    (d : Sqlite.database) : Sqlite.database :=
  Sqlite.mkDatabase (Sqlite.db_schema d)
    (Sqlite.db_messages d ++ accepted_rows (Sqlite.db_sequence d) script)
    (Sqlite.db_sequence d +
     Z.of_nat (length (accepted_rows (Sqlite.db_sequence d) script))).

(** A process in its loop: the store initialised, the session allocated
    and the three callbacks registered. *)
Definition serving_world : World :=
  set_mosq
    (Some (Mosq.mkSession "mqtt2sqlite-1" true (Some Mosq.cb_handle_connect)
             (Some Mosq.cb_handle_disconnect) (Some Mosq.cb_handle_message)
             None))
    ready_world.

(** Two messages, a disconnect between them, and a third message that
    arrives while the disk is full. *)
Definition sample_reports : list (Env * Mosq.net_event) :=
  [ (quiet_env 1700000001,
     Mosq.Publish
       (Some (Mosq.mkMessage 1 (Some "obk/a/power") (Some ["4"; "2"]%byte) 2
                0 false)));
    (quiet_env 1700000002, Mosq.Disconnected 7);
    (disk_full_env 1700000003,
     Mosq.Publish
       (Some (Mosq.mkMessage 2 (Some "obk/a/power") (Some ["4"; "3"]%byte) 2
                0 false)));
    (quiet_env 1700000004,
     Mosq.Publish
       (Some (Mosq.mkMessage 3 (Some "obk/b/state") (Some ["o"; "n"]%byte) 2
                1 true))) ].

(** [main], observed. *)

(** The world when the environment overrides have been read. *)
Definition configured (LONG_MAX : Z) (e : Env) (w : World) : World :=
  world_after (load_config LONG_MAX) e w.

(** What [db_init] gives when [main] calls it. *)
Definition init_of (LONG_MAX : Z) (e : Env) (w : World) : option (Z * World) :=
  db_init (g_db_path (cfg (configured LONG_MAX e w))) e
    (configured LONG_MAX e w).

(** The client id [main] hands to [mosquitto_new]. *)
Definition client_id_of (e : Env) : string :=
  match env_vars e !! "MQTT_CLIENT_ID" with
  | Some s =>
      if CStr.at_nul s
      then CStr.snprintf_s 64 ("mqtt2sqlite-" +:+ fmt_d (env_pid e))
      else s
  | None => CStr.snprintf_s 64 ("mqtt2sqlite-" +:+ fmt_d (env_pid e))
  end.

(** The stop flag, observed. *)

(** Two worlds that differ at most in [g_should_stop]. *)
Definition same_but_stop (w1 w2 : World) : Prop :=
  cfg w1 = cfg w2 /\
  g_db w1 = g_db w2 /\
  g_stmt_insert w1 = g_stmt_insert w2 /\
  g_mosq w1 = g_mosq w2 /\
  g_last_script_run w1 = g_last_script_run w2 /\
  disk w1 = disk w2 /\
  trace w1 = trace w2.

(** A computation that does not look at [g_should_stop]: from worlds that
    differ at most there it faults in both or in neither, gives the same
    result, and leaves worlds that differ at most there. *)
Definition blind {A} (m : M A) : Prop :=
  forall (e : Env) (w1 w2 : World),
    same_but_stop w1 w2 ->
    match m e w1, m e w2 with
    | Some (a1, w1'), Some (a2, w2') => a1 = a2 /\ same_but_stop w1' w2'
    | None, None => True
    | _, _ => False
    end.

(** The loop, observed on the trace. *)

(** The calls into libmosquitto one report leads to. *)
Definition step_calls (topic : string) (ev : Mosq.net_event) : list event :=
  match ev with
  | Mosq.Connack rc => if rc =? 0 then [EvMosqSubscribe topic 0] else []
  | Mosq.Signal _ => [EvMosqDisconnect]
  | _ => []
  end.

Definition library_calls (topic : string)
    (script : list (Env * Mosq.net_event)) : list event :=
  flat_map (fun p => step_calls topic (snd p)) script.

(** Whether a report makes the repair command run when the last run was
    recorded at [last]. *)
Definition fires (last : Z) (p : Env * Mosq.net_event) : bool :=
  match snd p with
  | Mosq.Disconnected _ => SCRIPT_MIN_INTERVAL_SEC <=? env_time (fst p) - last
  | _ => false
  end.

(** The times at which the repair command runs during a script. *)
Fixpoint repair_times (last : Z) (script : list (Env * Mosq.net_event))
  : list Z :=
  match script with
  | [] => []
  | p :: rest =>
      if fires last p
      then env_time (fst p) :: repair_times (env_time (fst p)) rest
      else repair_times last rest
  end.

(** Each time is at least the interval after the one before it, the first
    one after [last]. *)
Fixpoint spaced (last : Z) (times : list Z) : Prop :=
  match times with
  | [] => True
  | t :: rest => SCRIPT_MIN_INTERVAL_SEC <= t - last /\ spaced t rest
  end.

(** The session has the three callbacks of the program registered. *)
Definition registered (s : Mosq.session) : Prop :=
  Mosq.on_connect s = Some Mosq.cb_handle_connect /\
  Mosq.on_disconnect s = Some Mosq.cb_handle_disconnect /\
  Mosq.on_message s = Some Mosq.cb_handle_message.

(** What [db_close] writes to the trace. *)
Definition close_calls (w : World) : list event :=
  (match g_stmt_insert w with Some _ => [EvSqlFinalize] | None => [] end) ++
  (match g_db w with Some _ => [EvSqlClose] | None => [] end).

(** * Properties *)

(** ** Integer configuration values *)

Example strtol_plain : strtol10 (2^63 - 1) "1883" = (1883, 4%nat).
Proof. reflexivity. Qed.

Example strtol_trailing : strtol10 (2^63 - 1) " -12abc" = (-12, 4%nat).
Proof. reflexivity. Qed.

Example strtol_clamps :
  strtol10 (2^31 - 1) "99999999999999999999" = (2^31 - 1, 20%nat).
Proof. reflexivity. Qed.

Example strtol_nothing : strtol10 (2^63 - 1) "  +x" = (0, 0%nat).
Proof. reflexivity. Qed.

Section StringFacts.

Import CStr Decimal.

Lemma append_nil (b : string) : "" +:+ b = b.
Proof. reflexivity. Qed.

Lemma append_cons (c : ascii) (a b : string) :
  String c a +:+ b = String c (a +:+ b).
Proof. reflexivity. Qed.

Lemma prefix_advance (n : nat) (s : string) : prefix n s +:+ advance n s = s.
Proof.
  revert s; induction n as [|n IH]; intros [|c s]; simpl; try reflexivity.
  now rewrite append_cons, IH.
Qed.

Lemma span_all_chars (p : ascii -> bool) (s : string) :
  all_chars p (prefix (span_length p s) s) = true.
Proof.
  induction s as [|c s IH]; simpl; [reflexivity|].
  destruct (p c) eqn:E; simpl; [now rewrite E|reflexivity].
Qed.

Lemma span_app (p : ascii -> bool) (a b : string) :
  all_chars p a = true ->
  span_length p (a +:+ b) = (String.length a + span_length p b)%nat.
Proof.
  induction a as [|c a IH]; [reflexivity|].
  rewrite append_cons; simpl.
  intros [Hc Ha]%andb_prop. rewrite Hc. now rewrite IH.
Qed.

Lemma advance_app (a b : string) : advance (String.length a) (a +:+ b) = b.
Proof.
  induction a as [|c a IH]; [now destruct b|].
  rewrite append_cons; simpl; exact IH.
Qed.

Lemma prefix_app (a b : string) : prefix (String.length a) (a +:+ b) = a.
Proof.
  induction a as [|c a IH]; [now destruct b|].
  rewrite append_cons; simpl; now rewrite IH.
Qed.

Lemma advance_add (n m : nat) (s : string) :
  advance (n + m) s = advance m (advance n s).
Proof.
  revert s; induction n as [|n IH]; intros s; simpl; [reflexivity|].
  destruct s as [|c s]; simpl; [now destruct m|apply IH].
Qed.

Lemma app_empty_r (s : string) : s +:+ "" = s.
Proof.
  induction s as [|c s IH]; [reflexivity|now rewrite append_cons, IH].
Qed.

Lemma digit_not_space (c : ascii) : isdigit c = true -> isspace c = false.
Proof. unfold isdigit, isspace. lia. Qed.

Lemma digit_not_sign (c : ascii) :
  isdigit c = true -> c <> "-"%char /\ c <> "+"%char.
Proof.
  intros H; split; intros ->; vm_compute in H; discriminate.
Qed.

End StringFacts.

Section StrtolFacts.

Import CStr Decimal.

Variable LONG_MAX : Z.
Hypothesis LONG_MAX_min : 2 ^ 31 - 1 <= LONG_MAX.

(** What [strtol10] does on a string that is cut as white space, sign,
    digits and a rest that does not go on with a digit. *)
Lemma strtol10_scan (ws sg ds rest : string) :
  all_chars isspace ws = true ->
  (sg = "" \/ sg = "+" \/ sg = "-") ->
  ds <> "" ->
  all_chars isdigit ds = true ->
  match rest with String c _ => isdigit c = false | EmptyString => True end ->
  let e := (String.length ws + String.length sg + String.length ds)%nat in
  strtol10 LONG_MAX (ws +:+ sg +:+ ds +:+ rest)
    = (clamp_long LONG_MAX (signed_value sg ds), e)
  /\ advance e (ws +:+ sg +:+ ds +:+ rest) = rest
  /\ e <> 0%nat.
Proof.
  intros Hws Hsg Hne Hds Hrest e.
  destruct ds as [|d0 ds']; [congruence|clear Hne].
  pose proof Hds as Hds0. simpl in Hds0. apply andb_prop in Hds0 as [Hd0 _].
  destruct (digit_not_sign _ Hd0) as [Hm Hp].
  pose proof (digit_not_space _ Hd0) as Hsp.
  assert (Hspan : span_length isspace (ws +:+ sg +:+ String d0 ds' +:+ rest)
                  = String.length ws).
  { rewrite span_app by exact Hws.
    destruct Hsg as [-> | [-> | ->]]; simpl; rewrite ?append_nil, ?append_cons;
      simpl; rewrite ?Hsp; lia. }
  assert (Hdig : span_length isdigit (String d0 ds' +:+ rest)
                 = String.length (String d0 ds')).
  { rewrite span_app by exact Hds.
    destruct rest as [|c t]; simpl; [lia|rewrite Hrest; lia]. }
  unfold strtol10. rewrite Hspan, advance_app.
  assert (Hsign :
    starts_with "-" (sg +:+ String d0 ds' +:+ rest) = String.eqb sg "-" /\
    (if starts_with "-" (sg +:+ String d0 ds' +:+ rest)
        || starts_with "+" (sg +:+ String d0 ds' +:+ rest)
     then 1%nat else 0%nat) = String.length sg).
  { destruct Hsg as [-> | [-> | ->]]; rewrite ?append_nil, ?append_cons; simpl.
    - apply Ascii.eqb_neq in Hm, Hp. rewrite Hm, Hp. split; reflexivity.
    - split; reflexivity.
    - split; reflexivity. }
  destruct Hsign as [Hneg Hlen]. rewrite Hlen, Hneg.
  rewrite advance_app, Hdig, prefix_app.
  cbn [String.length]. unfold signed_value.
  repeat split.
  - subst e. cbn [String.length].
    rewrite !advance_add, !advance_app.
    change (S (String.length ds')) with (String.length (String d0 ds')).
    apply advance_app.
  - subst e. cbn [String.length]. lia.
Qed.

Lemma clamp_long_in_range (x : Z) :
  0 <= clamp_long LONG_MAX x <= 1000000 -> clamp_long LONG_MAX x = x.
Proof. unfold clamp_long, LONG_MIN. lia. Qed.

Lemma clamp_long_negative (x : Z) : x < 0 -> clamp_long LONG_MAX x < 0.
Proof. unfold clamp_long, LONG_MIN. lia. Qed.

Lemma clamp_long_large (x : Z) : 1000000 < x -> 1000000 < clamp_long LONG_MAX x.
Proof. unfold clamp_long, LONG_MIN. lia. Qed.

(** A value that is a decimal integer from end to end. *)
Lemma env_or_default_int_decimal (s : string) (n defval : Z) :
  decimal_integer s n ->
  env_or_default_int LONG_MAX (Some s) defval =
    if (n <? 0) || (n >? 1000000) then defval else n.
Proof.
  intros (ws & sg & ds & -> & Hws & Hsg & Hne & Hds & ->).
  destruct (strtol10_scan ws sg ds "" Hws Hsg Hne Hds I) as (Hs & Ha & He).
  rewrite app_empty_r in Hs, Ha.
  unfold env_or_default_int. rewrite Hs, Ha.
  fold (signed_value sg ds).
  assert (Hnn : at_nul (ws +:+ sg +:+ ds) = false).
  { destruct ws; [|reflexivity]. rewrite append_nil.
    destruct Hsg as [-> | [-> | ->]]; [|reflexivity|reflexivity].
    rewrite append_nil. destruct ds; [congruence|reflexivity]. }
  rewrite Hnn. apply Nat.eqb_neq in He. rewrite He. simpl.
  set (v := signed_value sg ds).
  destruct (Z.ltb_spec v 0) as [Hlt|Hge].
  - pose proof (clamp_long_negative v Hlt).
    destruct (Z.ltb_spec (clamp_long LONG_MAX v) 0); [reflexivity|lia].
  - destruct (Z.gtb_spec v 1000000) as [Hgt|Hle]; simpl.
    + pose proof (clamp_long_large v ltac:(lia)).
      destruct (Z.ltb_spec (clamp_long LONG_MAX v) 0); [reflexivity|].
      destruct (Z.gtb_spec (clamp_long LONG_MAX v) 1000000); [reflexivity|lia].
    + assert (clamp_long LONG_MAX v = v) as ->
        by (unfold clamp_long, LONG_MIN; lia).
      destruct (Z.ltb_spec v 0); [lia|].
      destruct (Z.gtb_spec v 1000000); [lia|reflexivity].
Qed.

(** A value with something other than a digit after the number. *)
Lemma env_or_default_int_trailing (s : string) (n : Z) (c : ascii)
    (t : string) (defval : Z) :
  decimal_integer s n ->
  isdigit c = false ->
  env_or_default_int LONG_MAX (Some (s +:+ String c t)) defval = defval.
Proof.
  intros (ws & sg & ds & -> & Hws & Hsg & Hne & Hds & _) Hc.
  destruct (strtol10_scan ws sg ds (String c t) Hws Hsg Hne Hds Hc)
    as (Hs & Ha & He).
  assert (Hassoc : (ws +:+ sg +:+ ds) +:+ String c t
                   = ws +:+ sg +:+ ds +:+ String c t).
  { clear. induction ws as [|a ws IH].
    - rewrite !append_nil. induction sg as [|a sg IH]; [reflexivity|].
      rewrite !append_cons. now rewrite IH.
    - rewrite !append_cons. now rewrite IH. }
  rewrite Hassoc. unfold env_or_default_int. rewrite Hs, Ha.
  destruct (at_nul _); [reflexivity|].
  simpl. now rewrite orb_true_r.
Qed.

(** Whenever the default is not what comes back, the value was a decimal
    integer from end to end, in range, and it is what comes back. *)
Lemma env_or_default_int_accepts (s : string) (defval : Z) :
  env_or_default_int LONG_MAX (Some s) defval <> defval ->
  decimal_integer s (env_or_default_int LONG_MAX (Some s) defval) /\
  0 <= env_or_default_int LONG_MAX (Some s) defval <= 1000000.
Proof.
  unfold env_or_default_int.
  destruct (at_nul s); [congruence|].
  destruct (strtol10 LONG_MAX s) as [x e] eqn:Hst.
  destruct (Nat.eqb_spec e 0) as [|He]; [simpl; congruence|].
  destruct (at_nul (advance e s)) eqn:Hend; [|simpl; congruence].
  simpl.
  destruct (Z.ltb_spec x 0) as [|Hx0]; [simpl; congruence|].
  destruct (Z.gtb_spec x 1000000) as [|Hx1]; [simpl; congruence|].
  simpl. intros _. split; [|lia].
  unfold strtol10 in Hst.
  set (ws := span_length isspace s) in *.
  set (s1 := advance ws s) in *.
  set (neg := starts_with "-" s1) in *.
  set (sg := if neg || starts_with "+" s1 then 1%nat else 0%nat) in *.
  set (s2 := advance sg s1) in *.
  set (nd := span_length isdigit s2) in *.
  destruct nd as [|nd'] eqn:Hnd; [inversion Hst; subst; congruence|].
  rewrite <- Hnd in Hst. inversion Hst as [[Hx Hedef]]. clear Hst.
  assert (Hrest : advance nd s2 = "").
  { rewrite <- Hedef in Hend. rewrite !advance_add in Hend.
    fold s1 in Hend. fold s2 in Hend.
    destruct (advance nd s2); [reflexivity|discriminate]. }
  assert (Hs2 : s2 = prefix nd s2).
  { rewrite <- (prefix_advance nd s2) at 1. rewrite Hrest.
    apply app_empty_r. }
  assert (Hs1 : s1 = prefix sg s1 +:+ s2)
    by (symmetry; apply prefix_advance).
  assert (Hs : s = prefix ws s +:+ prefix sg s1 +:+ prefix nd s2).
  { rewrite <- Hs2, <- Hs1. symmetry; apply prefix_advance. }
  assert (Hsgn : (prefix sg s1 = "" \/ prefix sg s1 = "+" \/ prefix sg s1 = "-")
                 /\ String.eqb (prefix sg s1) "-" = neg).
  { subst sg neg. destruct s1 as [|c s1']; simpl; [auto|].
    destruct (Ascii.eqb_spec c "-") as [->|Hm]; simpl; [auto|].
    destruct (Ascii.eqb_spec c "+") as [->|Hp]; simpl; auto. }
  destruct Hsgn as [Hsg Hneg].
  exists (prefix ws s), (prefix sg s1), (prefix nd s2).
  split; [exact Hs|].
  split; [apply span_all_chars|].
  split; [exact Hsg|].
  split.
  { rewrite Hnd. subst nd. destruct s2 as [|c s2']; [discriminate|].
    simpl. discriminate. }
  split; [apply span_all_chars|].
  unfold signed_value. rewrite Hneg.
  apply clamp_long_in_range. rewrite Hx. lia.
Qed.

(** The result is the default or lies between 0 and 1000000. *)
Lemma env_or_default_int_cases (v : option string) (defval : Z) :
  env_or_default_int LONG_MAX v defval = defval \/
  0 <= env_or_default_int LONG_MAX v defval <= 1000000.
Proof.
  destruct v as [s|]; [|left; reflexivity].
  destruct (Z.eq_dec (env_or_default_int LONG_MAX (Some s) defval) defval)
    as [E|N]; [left; exact E|right].
  apply env_or_default_int_accepts, N.
Qed.

End StrtolFacts.

Section ConfigFacts.

Import CStr Decimal.

Variable LONG_MAX : Z.
Hypothesis LONG_MAX_min : 2 ^ 31 - 1 <= LONG_MAX.

Lemma env_or_default_int_in_range (v : option string) (defval : Z) :
  0 <= defval <= 1000000 ->
  0 <= env_or_default_int LONG_MAX v defval <= 1000000.
Proof.
  intros Hd.
  destruct (env_or_default_int_cases LONG_MAX LONG_MAX_min v defval) as [-> | H];
    [exact Hd|exact H].
Qed.

Lemma load_config_world (e : Env) (w : World) :
  load_config LONG_MAX e w =
    Some (tt,
          set_cfg
            (mkConfig
               (snprintf_s 128
                  (env_or_default (env_vars e !! "MQTT_BROKER") "192.168.4.1"))
               (env_or_default_int LONG_MAX (env_vars e !! "MQTT_PORT") 1883)
               (snprintf_s 128 (env_or_default (env_vars e !! "MQTT_TOPIC") "#"))
               (snprintf_s 256
                  (env_or_default (env_vars e !! "MQTT_DB_PATH")
                     "./mqtt_messages.db"))
               (snprintf_s 256
                  (env_or_default (env_vars e !! "NETWORK_FIX_SCRIPT")
                     "./handle_network_error.sh"))
               (env_or_default_int LONG_MAX (env_vars e !! "RECONNECT_MIN_S") 2)
               (env_or_default_int LONG_MAX (env_vars e !! "RECONNECT_MAX_S") 60))
            w).
Proof. reflexivity. Qed.

End ConfigFacts.

(** C10.  For the integer-valued configuration variables (broker port,
    minimum and maximum backoff seconds), [env_or_default_int] gives back
    the coded default when the environment value is unset, empty, not a
    decimal integer, a decimal integer followed by a character that is not
    a digit, negative, or greater than 1000000; a decimal integer between 0
    and 1000000 is taken as it is.  A decimal integer is what [strtol]
    reads as one: optional white space, an optional sign, digits.  Hence the result lies in [0, 1000000]
    whenever the default does, and the three globals that [main] sets from
    the environment always do. *)
Theorem env_or_default_int_default_or_in_range
    (LONG_MAX : Z) (HL : 2 ^ 31 - 1 <= LONG_MAX)
    (v : option string) (defval : Z) :
  let r := env_or_default_int LONG_MAX v defval in
  (v = None -> r = defval) /\
  (v = Some "" -> r = defval) /\
  (forall s, v = Some s ->
     (forall n, ~ Decimal.decimal_integer s n) -> r = defval) /\
  (forall s n c t, v = Some (s +:+ String c t) ->
     Decimal.decimal_integer s n -> CStr.isdigit c = false -> r = defval) /\
  (forall s n, v = Some s -> Decimal.decimal_integer s n ->
     n < 0 -> r = defval) /\
  (forall s n, v = Some s -> Decimal.decimal_integer s n ->
     1000000 < n -> r = defval) /\
  (forall s n, v = Some s -> Decimal.decimal_integer s n ->
     0 <= n <= 1000000 -> r = n) /\
  (0 <= defval <= 1000000 -> 0 <= r <= 1000000) /\
  (forall e w w', load_config LONG_MAX e w = Some (tt, w') ->
     0 <= g_broker_port (cfg w') <= 1000000 /\
     0 <= g_reconnect_min (cfg w') <= 1000000 /\
     0 <= g_reconnect_max (cfg w') <= 1000000).
Proof.
  intros r; subst r.
  split; [intros ->; reflexivity|].
  split; [intros ->; reflexivity|].
  split.
  { intros s -> Hnot.
    destruct (Z.eq_dec (env_or_default_int LONG_MAX (Some s) defval) defval)
      as [E|N]; [exact E|].
    destruct (env_or_default_int_accepts LONG_MAX HL s defval N) as [Hd _].
    destruct (Hnot _ Hd). }
  split.
  { intros s n c t -> Hd Hc.
    eapply env_or_default_int_trailing; eauto. }
  split.
  { intros s n -> Hd Hn.
    rewrite (env_or_default_int_decimal LONG_MAX HL s n defval Hd).
    destruct (Z.ltb_spec n 0); [reflexivity|lia]. }
  split.
  { intros s n -> Hd Hn.
    rewrite (env_or_default_int_decimal LONG_MAX HL s n defval Hd).
    destruct (Z.gtb_spec n 1000000); [now rewrite orb_true_r|lia]. }
  split.
  { intros s n -> Hd Hn.
    rewrite (env_or_default_int_decimal LONG_MAX HL s n defval Hd).
    destruct (Z.ltb_spec n 0); [lia|].
    destruct (Z.gtb_spec n 1000000); [lia|reflexivity]. }
  split; [apply env_or_default_int_in_range; exact HL|].
  intros e w w' Hload. rewrite load_config_world in Hload.
  inversion Hload; subst w'; clear Hload. simpl.
  repeat split; apply env_or_default_int_in_range; try exact HL; lia.
Qed.

Lemma env_or_default_int_default_or_in_range_witness :
  2 ^ 31 - 1 <= 2 ^ 63 - 1 /\
  0 <= env_or_default_int (2 ^ 63 - 1) (Some "1000001") 1883 <= 1000000.
Proof.
  assert (HL : 2 ^ 31 - 1 <= 2 ^ 63 - 1) by (vm_compute; discriminate).
  split; [exact HL|].
  destruct (env_or_default_int_default_or_in_range (2 ^ 63 - 1) HL
              (Some "1000001") 1883) as (_ & _ & _ & _ & _ & _ & _ & H & _).
  apply H. lia.
Defined.

(** ** The repair trigger *)

Section RepairFacts.

Lemma system_calls_app (t u : list event) :
  system_calls (t ++ u) = system_calls t ++ system_calls u.
Proof.
  induction t as [|ev t IH]; [reflexivity|].
  destruct ev; simpl; rewrite IH; reflexivity.
Qed.

(** A call less than the interval after the recorded time. *)
Lemma run_network_repair_script_throttled (e : Env) (w : World) :
  env_time e - g_last_script_run w < SCRIPT_MIN_INTERVAL_SEC ->
  run_network_repair_script e w =
    Some (0, set_trace
               (trace w ++
                [EvLog "INFO" "Skipping network repair script (throttled)"]) w).
Proof.
  intros H. unfold run_network_repair_script, bind, time, ask, get. simpl.
  destruct (Z.ltb_spec (env_time e - g_last_script_run w)
              SCRIPT_MIN_INTERVAL_SEC); [reflexivity|lia].
Qed.

(** Any other call. *)
Lemma run_network_repair_script_runs (e : Env) (w : World) :
  SCRIPT_MIN_INTERVAL_SEC <= env_time e - g_last_script_run w ->
  exists rc w',
    run_network_repair_script e w = Some (rc, w') /\
    rc = (if env_system e (repair_cmd w) =? -1 then -1 else 0) /\
    g_last_script_run w' = env_time e /\
    cfg w' = cfg w /\
    g_should_stop w' = g_should_stop w /\
    g_stmt_insert w' = g_stmt_insert w /\
    disk w' = disk w /\
    trace w' =
      trace w ++
      [EvStderr ("Running network repair script: " +:+ repair_cmd w);
       EvSystem (repair_cmd w);
       if env_system e (repair_cmd w) =? -1 then EvStderr "system"
       else EvLog "INFO"
              (CStr.snprintf_s 128
                 ("Network repair script exit code: " +:+
                  fmt_d (WEXITSTATUS (env_system e (repair_cmd w)))))].
Proof.
  intros H. unfold run_network_repair_script, bind, time, ask, get. simpl.
  destruct (Z.ltb_spec (env_time e - g_last_script_run w)
              SCRIPT_MIN_INTERVAL_SEC); [lia|].
  unfold system, perror, emit, modify, bind, ask, fprintf_stderr, log_ts, ret.
  simpl. fold (repair_cmd w).
  destruct (env_system e (repair_cmd w) =? -1) eqn:E; simpl;
    eexists _, _; (split; [reflexivity|]); simpl;
    repeat (split; [reflexivity|]);
    rewrite <- !app_assoc; reflexivity.
Qed.

Lemma run_network_repair_script_runs_calls (e : Env) (w : World) :
  SCRIPT_MIN_INTERVAL_SEC <= env_time e - g_last_script_run w ->
  system_calls (trace (after_repair e w)) =
    system_calls (trace w) ++ [repair_cmd w] /\
  g_last_script_run (after_repair e w) = env_time e /\
  cfg (after_repair e w) = cfg w.
Proof.
  intros H. unfold after_repair.
  destruct (run_network_repair_script_runs e w H)
    as (rc & w' & -> & _ & Hl & Hc & _ & _ & _ & ->).
  rewrite system_calls_app. simpl.
  destruct (env_system e (repair_cmd w) =? -1); auto.
Qed.

Lemma run_network_repair_script_total (e : Env) (w : World) :
  exists rc, run_network_repair_script e w = Some (rc, after_repair e w).
Proof.
  unfold after_repair.
  destruct (Z.lt_ge_cases (env_time e - g_last_script_run w)
              SCRIPT_MIN_INTERVAL_SEC) as [Hlt|Hge].
  - rewrite run_network_repair_script_throttled by exact Hlt. eauto.
  - destruct (run_network_repair_script_runs e w Hge) as (rc & w' & -> & _).
    eauto.
Qed.

Lemma repair_ran_iff (e : Env) (w : World) :
  repair_ran e w = true <->
  SCRIPT_MIN_INTERVAL_SEC <= env_time e - g_last_script_run w.
Proof.
  unfold repair_ran.
  destruct (Z.lt_ge_cases (env_time e - g_last_script_run w)
              SCRIPT_MIN_INTERVAL_SEC) as [Hlt|Hge].
  - rewrite run_network_repair_script_throttled by exact Hlt. simpl.
    rewrite system_calls_app, length_app. simpl.
    split; [intros H; apply Nat.ltb_lt in H; lia|lia].
  - destruct (run_network_repair_script_runs e w Hge)
      as (rc & w' & -> & _ & _ & _ & _ & _ & _ & ->).
    rewrite system_calls_app, length_app. simpl.
    split; [intros _; exact Hge|intros _; apply Nat.ltb_lt].
    destruct (env_system e (repair_cmd w) =? -1); simpl; lia.
Qed.

Lemma after_repair_last (e : Env) (w : World) :
  g_last_script_run (after_repair e w) =
    if repair_ran e w then env_time e else g_last_script_run w.
Proof.
  destruct (repair_ran e w) eqn:R.
  - apply repair_ran_iff in R. unfold after_repair.
    destruct (run_network_repair_script_runs e w R)
      as (rc & w' & -> & _ & Hl & _). exact Hl.
  - assert (env_time e - g_last_script_run w < SCRIPT_MIN_INTERVAL_SEC) as Hlt.
    { destruct (Z.lt_ge_cases (env_time e - g_last_script_run w)
                  SCRIPT_MIN_INTERVAL_SEC) as [Hlt|Hge]; [exact Hlt|].
      apply repair_ran_iff in Hge. congruence. }
    unfold after_repair.
    rewrite run_network_repair_script_throttled by exact Hlt. reflexivity.
Qed.

(** The recorded time never decreases along a sequence of calls, and a
    later call that runs is at least the interval after it. *)
Lemma repair_sequence_later (es : list Env) (w : World) (j : nat) (ej : Env) :
  es !! j = Some ej ->
  repair_sequence es w !! j = Some true ->
  g_last_script_run w + SCRIPT_MIN_INTERVAL_SEC <= env_time ej.
Proof.
  revert w j. induction es as [|e es IH]; intros w j Hj Hr; [discriminate|].
  destruct j as [|j]; simpl in *.
  - inversion Hj; subst ej. inversion Hr as [R].
    apply repair_ran_iff in R. lia.
  - specialize (IH _ _ Hj Hr). rewrite after_repair_last in IH.
    destruct (repair_ran e w) eqn:R; [|exact IH].
    apply repair_ran_iff in R. unfold SCRIPT_MIN_INTERVAL_SEC in *. lia.
Qed.

(** In a sequence of calls, two that both run are at least the interval
    apart. *)
Lemma repair_sequence_spacing (es : list Env) (w : World) (i j : nat)
    (ei ej : Env) :
  (i < j)%nat ->
  es !! i = Some ei -> es !! j = Some ej ->
  repair_sequence es w !! i = Some true ->
  repair_sequence es w !! j = Some true ->
  SCRIPT_MIN_INTERVAL_SEC <= env_time ej - env_time ei.
Proof.
  revert w i j. induction es as [|e es IH]; intros w i j Hij Hi Hj Ri Rj;
    [discriminate|].
  destruct j as [|j]; [lia|].
  destruct i as [|i]; simpl in *.
  - inversion Hi; subst ei. inversion Ri as [R].
    pose proof (repair_sequence_later es (after_repair e w) j ej Hj Rj) as H.
    rewrite after_repair_last, R in H. lia.
  - apply (IH (after_repair e w) i j); auto. lia.
Qed.

End RepairFacts.

(** C1 (as amended).  A call of [run_network_repair_script] less than 20
    seconds after the recorded time runs no command and leaves the recorded
    time alone; any other call records the current time and hands the
    configured command to [system] before it returns.  Of two calls less
    than 20 seconds apart at most one runs the command, in a sequence of
    calls of any length.  Of two calls that follow each other more than 20
    seconds apart, both run the command when the first is itself at least
    20 seconds after the recorded time, and the second runs it whenever the
    recorded time is not later than the first call. *)
Theorem run_network_repair_script_throttle (e1 e2 : Env) (w : World) :
  let t1 := env_time e1 in
  let t2 := env_time e2 in
  let w1 := after_repair e1 w in
  (exists rc, run_network_repair_script e1 w = Some (rc, w1)) /\
  (t1 - g_last_script_run w < 20 ->
     run_network_repair_script e1 w =
       Some (0, set_trace
                  (trace w ++
                   [EvLog "INFO" "Skipping network repair script (throttled)"])
                  w) /\
     system_calls (trace w1) = system_calls (trace w) /\
     g_last_script_run w1 = g_last_script_run w) /\
  (20 <= t1 - g_last_script_run w ->
     system_calls (trace w1) = system_calls (trace w) ++ [repair_cmd w] /\
     g_last_script_run w1 = t1) /\
  (t2 - t1 < 20 -> repair_ran e1 w && repair_ran e2 w1 = false) /\
  (20 < t2 - t1 -> 20 <= t1 - g_last_script_run w ->
     repair_ran e1 w = true /\ repair_ran e2 w1 = true) /\
  (20 < t2 - t1 -> g_last_script_run w <= t1 -> repair_ran e2 w1 = true) /\
  (forall (es : list Env) (w0 : World) (i j : nat) (ei ej : Env),
     (i < j)%nat -> es !! i = Some ei -> es !! j = Some ej ->
     env_time ej - env_time ei < 20 ->
     ~ (repair_sequence es w0 !! i = Some true /\
        repair_sequence es w0 !! j = Some true)).
Proof.
  intros t1 t2 w1. subst t1 t2 w1.
  split; [apply run_network_repair_script_total|].
  split.
  { intros H.
    pose proof (run_network_repair_script_throttled e1 w H) as Hrun.
    split; [exact Hrun|]. unfold after_repair. rewrite Hrun. simpl.
    rewrite system_calls_app. simpl. rewrite app_nil_r. auto. }
  split.
  { intros H.
    destruct (run_network_repair_script_runs_calls e1 w H) as (Hc & Hl & _).
    auto. }
  split.
  { intros H. destruct (repair_ran e1 w) eqn:R1; [|reflexivity]. simpl.
    destruct (repair_ran e2 (after_repair e1 w)) eqn:R2; [|reflexivity].
    apply repair_ran_iff in R2. rewrite after_repair_last, R1 in R2.
    unfold SCRIPT_MIN_INTERVAL_SEC in R2. lia. }
  split.
  { intros H H1.
    assert (R1 : repair_ran e1 w = true) by (apply repair_ran_iff; exact H1).
    split; [exact R1|]. apply repair_ran_iff.
    rewrite after_repair_last, R1. unfold SCRIPT_MIN_INTERVAL_SEC. lia. }
  split.
  { intros H H1. apply repair_ran_iff. rewrite after_repair_last.
    unfold SCRIPT_MIN_INTERVAL_SEC.
    destruct (repair_ran e1 w); lia. }
  intros es w0 i j ei ej Hij Hi Hj Hclose [Ri Rj].
  pose proof (repair_sequence_spacing es w0 i j ei ej Hij Hi Hj Ri Rj) as H.
  unfold SCRIPT_MIN_INTERVAL_SEC in H. lia.
Qed.

Lemma run_network_repair_script_throttle_witness :
  repair_ran (quiet_env 1000) (initial_world ∅) = true /\
  repair_ran (quiet_env 1030)
    (after_repair (quiet_env 1000) (initial_world ∅)) = true.
Proof.
  destruct (run_network_repair_script_throttle
              (quiet_env 1000) (quiet_env 1030) (initial_world ∅))
    as (_ & _ & _ & _ & Hboth & _).
  apply Hboth; simpl; lia.
Defined.

(** C1, the sentence as written.  After a run at time 1000, calls at 1005
    and 1030 are 25 seconds apart, and the one at 1005 is throttled: the
    command does not run for each of the two. *)
Lemma runs_for_each_when_apart_fails : ~ runs_for_each_when_apart.
Proof.
  intros H.
  destruct (H (quiet_env 1005) (quiet_env 1030)
              (after_repair (quiet_env 1000) (initial_world ∅)))
    as [R _]; [vm_compute; reflexivity|].
  vm_compute in R. discriminate.
Qed.

Example repair_sequence_flapping :
  repair_sequence [quiet_env 1000; quiet_env 1005; quiet_env 1030]
    (initial_world ∅) = [true; false; true].
Proof. vm_compute. reflexivity. Qed.

(** ** The store writer *)

(** Whatever its outcome, a step leaves the statement stepped, with its
    parameters as they were. *)
Lemma step_stmt (fl : option Sqlite.fault) (s : Sqlite.stmt)
    (d : Sqlite.database) :
  snd (fst (Sqlite.step fl s d)) =
    Sqlite.mkStmt (Sqlite.stmt_db s) (Sqlite.stmt_bindings s) true.
Proof.
  unfold Sqlite.step. destruct fl; [reflexivity|].
  destruct (Sqlite.row_of_bindings _ _); reflexivity.
Qed.

Lemma world_eq (w1 w2 : World) :
  cfg w1 = cfg w2 ->
  g_should_stop w1 = g_should_stop w2 ->
  g_db w1 = g_db w2 ->
  g_stmt_insert w1 = g_stmt_insert w2 ->
  g_mosq w1 = g_mosq w2 ->
  g_last_script_run w1 = g_last_script_run w2 ->
  disk w1 = disk w2 ->
  trace w1 = trace w2 ->
  w1 = w2.
Proof. destruct w1, w2; simpl; intros; subst; reflexivity. Qed.

(** Runs [db_insert_message] up to its [sqlite3_step], by cases on the
    payload pointer, the length and the allocation. *)
Ltac insert_to_step Hst Hfit :=
  unfold insert_bindings, stored_payload;
  unfold db_insert_message, bind, get; rewrite Hst;
  unfold time, ask, sqlite3_reset, sqlite3_clear_bindings, sqlite3_bind_int64,
    sqlite3_bind_text, sqlite3_bind_int, on_stmt, emit, modify, bind, get, ret;
  simpl; rewrite Hst; simpl;
  unfold malloc, memcpy, bind, ask, ret, fault;
  match goal with
  | |- context [match ?p with Some _ => _ | None => _ end] =>
      match type of p with
      | option (list byte) =>
          destruct p as [?src|];
          [ simpl in Hfit;
            match goal with
            | |- context [0 <=? ?n] =>
                destruct (0 <=? n);
                [ match goal with
                  | |- context [env_malloc_fails ?e] =>
                      destruct (env_malloc_fails e);
                      [ | match goal with
                          | |- context [n <=? ?l] =>
                              destruct (Z.leb_spec n l); [|lia]
                          end ]
                  end
                | ]
            end
          | ]
      end
  end;
  simpl;
  unfold sqlite3_step, bind, get, ask, modify, emit, ret; simpl.

Section InsertFacts.

Variables (topic : option string) (payload : option (list byte)).
Variables (payloadlen qos retain : Z).

(** One insert, run symbolically: the statement is reset, its parameters
    are bound afresh whatever state it was left in, and it is stepped. *)
Lemma db_insert_message_run (e : Env) (w : World) (st : Sqlite.stmt)
    (d : Sqlite.database) :
  g_stmt_insert w = Some st ->
  disk w !! Sqlite.stmt_db st = Some d ->
  payload_fits payload payloadlen ->
  let b := insert_bindings e topic payload payloadlen qos retain in
  let ready := Sqlite.mkStmt (Sqlite.stmt_db st) b false in
  let rc := fst (fst (Sqlite.step (env_step_fault e) ready d)) in
  db_insert_message topic payload payloadlen qos retain e w =
    Some (tt,
          mkWorld (cfg w) (g_should_stop w) (g_db w)
            (Some (snd (fst (Sqlite.step (env_step_fault e) ready d))))
            (g_mosq w) (g_last_script_run w)
            (<[Sqlite.stmt_db st :=
                 snd (Sqlite.step (env_step_fault e) ready d)]> (disk w))
            (trace w ++ insert_calls b ++ [EvSqlStep rc] ++
             if rc =? Sqlite.SQLITE_DONE then []
             else [EvStderr ("sqlite3_step(insert) failed: " +:+
                             env_sqlite_errmsg e rc)])).
Proof.
  intros Hst Hd Hfit b ready rc. subst rc ready b.
  insert_to_step Hst Hfit.
  all: rewrite Hd.
  all: match goal with
       | |- context [Sqlite.step ?f ?s ?d] =>
           destruct (Sqlite.step f s d) as [[rc0 s'] d']
       end; simpl.
  all: unfold fprintf_stderr, emit, modify.
  all: destruct (rc0 =? Sqlite.SQLITE_DONE); simpl.
  all: f_equal; f_equal; apply world_eq; simpl; try reflexivity.
  all: unfold insert_calls; simpl; rewrite <- ?app_assoc; reflexivity.
Qed.

(** The same when the file behind the statement is gone: the step fails. *)
Lemma db_insert_message_orphan (e : Env) (w : World) (st : Sqlite.stmt) :
  g_stmt_insert w = Some st ->
  disk w !! Sqlite.stmt_db st = None ->
  payload_fits payload payloadlen ->
  let b := insert_bindings e topic payload payloadlen qos retain in
  db_insert_message topic payload payloadlen qos retain e w =
    Some (tt,
          mkWorld (cfg w) (g_should_stop w) (g_db w)
            (Some (Sqlite.mkStmt (Sqlite.stmt_db st) b false))
            (g_mosq w) (g_last_script_run w) (disk w)
            (trace w ++ insert_calls b ++
             [EvSqlStep Sqlite.SQLITE_ERROR;
              EvStderr ("sqlite3_step(insert) failed: " +:+
                        env_sqlite_errmsg e Sqlite.SQLITE_ERROR)])).
Proof.
  intros Hst Hd Hfit b. subst b.
  insert_to_step Hst Hfit.
  all: rewrite Hd; simpl.
  all: unfold fprintf_stderr, emit, modify; simpl.
  all: f_equal; f_equal; apply world_eq; simpl; try reflexivity.
  all: unfold insert_calls; simpl; rewrite <- ?app_assoc; reflexivity.
Qed.

(** With no prepared statement the call does nothing at all. *)
Lemma db_insert_message_unprepared (e : Env) (w : World) :
  g_stmt_insert w = None ->
  db_insert_message topic payload payloadlen qos retain e w = Some (tt, w).
Proof.
  intros Hst. unfold db_insert_message, bind, get. now rewrite Hst.
Qed.

End InsertFacts.

Section InsertOutcome.

Variables (topic : option string) (payload : option (list byte)).
Variables (payloadlen qos retain : Z).
Variables (e : Env) (w : World) (st : Sqlite.stmt) (d : Sqlite.database).

Hypothesis Hst : g_stmt_insert w = Some st.
Hypothesis Hd : disk w !! Sqlite.stmt_db st = Some d.
Hypothesis Hfit : payload_fits payload payloadlen.

(** The execute step succeeds: exactly one row is added, made of the five
    bound values, under the next id. *)
Lemma db_insert_message_stored (t : string) :
  env_step_fault e = None ->
  topic = Some t ->
  exists w',
    db_insert_message topic payload payloadlen qos retain e w = Some (tt, w') /\
    stored_rows w' =
      stored_rows w ++
      [Sqlite.mkRow (Sqlite.db_sequence d + 1)
         (Sqlite.Integer (env_time e)) (Sqlite.Text t)
         (Sqlite.Text (stored_payload (env_malloc_fails e) payload payloadlen))
         (Sqlite.Integer qos) (Sqlite.Integer retain)] /\
    trace w' =
      trace w ++
      insert_calls (insert_bindings e topic payload payloadlen qos retain) ++
      [EvSqlStep Sqlite.SQLITE_DONE] /\
    g_stmt_insert w' =
      Some (Sqlite.mkStmt (Sqlite.stmt_db st)
              (insert_bindings e topic payload payloadlen qos retain) true).
Proof using Hst Hd Hfit.
  intros Hfl Ht.
  rewrite (db_insert_message_run topic payload payloadlen qos retain
             e w st d Hst Hd Hfit).
  rewrite Hfl.
  assert (Hstep :
    Sqlite.step None
      (Sqlite.mkStmt (Sqlite.stmt_db st)
         (insert_bindings e topic payload payloadlen qos retain) false) d =
      (Sqlite.SQLITE_DONE,
       Sqlite.mkStmt (Sqlite.stmt_db st)
         (insert_bindings e topic payload payloadlen qos retain) true,
       Sqlite.mkDatabase (Sqlite.db_schema d)
         (Sqlite.db_messages d ++
          [Sqlite.mkRow (Sqlite.db_sequence d + 1)
             (Sqlite.Integer (env_time e)) (Sqlite.Text t)
             (Sqlite.Text
                (stored_payload (env_malloc_fails e) payload payloadlen))
             (Sqlite.Integer qos) (Sqlite.Integer retain)])
         (Sqlite.db_sequence d + 1))).
  { unfold insert_bindings. rewrite Ht. reflexivity. }
  rewrite Hstep. simpl.
  eexists; split; [reflexivity|].
  unfold stored_rows; simpl. rewrite lookup_insert_eq, Hst, Hd. simpl.
  repeat split; reflexivity.
Qed.

(** The execute step fails, through the engine or through the NOT NULL
    constraint on the topic: no row is added, nothing but the statement and
    the trace changes, and the last thing done is the line on stderr. *)
Lemma db_insert_message_failed :
  env_step_fault e <> None \/ topic = None ->
  exists rc,
    rc <> Sqlite.SQLITE_DONE /\
    db_insert_message topic payload payloadlen qos retain e w =
      Some (tt,
            set_trace
              (trace w ++
               insert_calls (insert_bindings e topic payload payloadlen qos retain) ++
               [EvSqlStep rc;
                EvStderr ("sqlite3_step(insert) failed: " +:+
                          env_sqlite_errmsg e rc)])
              (set_stmt_insert
                 (Some (Sqlite.mkStmt (Sqlite.stmt_db st)
                          (insert_bindings e topic payload payloadlen qos retain) true))
                 w)).
Proof using Hst Hd Hfit.
  intros Hfail.
  rewrite (db_insert_message_run topic payload payloadlen qos retain
             e w st d Hst Hd Hfit).
  assert (Hstep : exists rc,
    rc <> Sqlite.SQLITE_DONE /\
    Sqlite.step (env_step_fault e)
      (Sqlite.mkStmt (Sqlite.stmt_db st)
         (insert_bindings e topic payload payloadlen qos retain) false) d =
      (rc,
       Sqlite.mkStmt (Sqlite.stmt_db st)
         (insert_bindings e topic payload payloadlen qos retain) true, d)).
  { destruct (env_step_fault e) as [f|] eqn:Hf.
    - exists (Sqlite.fault_code f). split; [destruct f; discriminate|reflexivity].
    - destruct Hfail as [Hfail|Hnull]; [congruence|].
      exists Sqlite.SQLITE_CONSTRAINT. split; [discriminate|].
      unfold insert_bindings. rewrite Hnull. reflexivity. }
  destruct Hstep as (rc & Hrc & Hstep). exists rc. split; [exact Hrc|].
  rewrite Hstep. simpl.
  apply Z.eqb_neq in Hrc. rewrite Hrc.
  rewrite (insert_id _ _ _ Hd).
  f_equal; f_equal; apply world_eq; reflexivity.
Qed.

End InsertOutcome.

Section PayloadFacts.

Lemma until_nul_cut (pre post : list byte) :
  ~ In x00 pre -> until_nul (pre ++ x00 :: post) = pre.
Proof.
  induction pre as [|b pre IH]; intros Hno; [reflexivity|].
  simpl. destruct (Byte.eqb b x00) eqn:E.
  - apply Byte.byte_dec_bl in E. subst b. destruct Hno. now left.
  - rewrite IH; [reflexivity|]. intros Hin. apply Hno. now right.
Qed.

Lemma until_nul_whole (bytes : list byte) :
  ~ In x00 bytes -> until_nul (bytes ++ [x00]) = bytes.
Proof. apply until_nul_cut. Qed.

Lemma c_string_cut (pre post : list byte) :
  ~ In x00 pre ->
  c_string ((pre ++ x00 :: post) ++ [x00]) = string_of_list_byte pre.
Proof.
  intros Hno. unfold c_string. rewrite <- app_assoc. simpl.
  now rewrite until_nul_cut.
Qed.

Lemma stored_payload_cases (fails : bool) (payload : option (list byte))
    (payloadlen : Z) :
  (payload = None -> stored_payload fails payload payloadlen = "") /\
  (payloadlen < 0 -> stored_payload fails payload payloadlen = "") /\
  (payloadlen = 0 -> stored_payload fails payload payloadlen = "") /\
  (fails = true -> stored_payload fails payload payloadlen = "") /\
  (forall src, payload = Some src -> 0 <= payloadlen -> fails = false ->
     stored_payload fails payload payloadlen =
       c_string (take (Z.to_nat payloadlen) src ++ [x00])).
Proof.
  unfold stored_payload. repeat split.
  - now intros ->.
  - intros H. destruct payload; [|reflexivity].
    destruct (Z.leb_spec 0 payloadlen); [lia|reflexivity].
  - intros ->. destruct payload; [|reflexivity]. simpl.
    now destruct (negb fails).
  - intros ->. destruct payload; [|reflexivity].
    now rewrite andb_false_r.
  - intros src -> H ->.
    destruct (Z.leb_spec 0 payloadlen); [reflexivity|lia].
Qed.

End PayloadFacts.

(** C9.  [handle_message] called with a NULL message performs no insert and
    returns, the world untouched; [db_insert_message] called while
    [g_stmt_insert] is NULL returns, the world untouched, the store
    included.  Neither call faults. *)
Theorem null_message_and_null_statement_are_noops :
  (forall (e : Env) (w : World), handle_message None e w = Some (tt, w)) /\
  (forall (topic : option string) (payload : option (list byte))
          (payloadlen qos retain : Z) (e : Env) (w : World),
     g_stmt_insert w = None ->
     db_insert_message topic payload payloadlen qos retain e w = Some (tt, w)).
Proof.
  split; [reflexivity|].
  intros. now apply db_insert_message_unprepared.
Qed.

Lemma null_message_and_null_statement_are_noops_witness :
  db_insert_message (Some "t") (Some ["h"; "i"]%byte) 2 0 0
    (quiet_env 1700000000) (initial_world ∅)
  = Some (tt, initial_world ∅).
Proof.
  destruct null_message_and_null_statement_are_noops as [_ Hnoop].
  apply Hnoop. reflexivity.
Defined.

(** What an insert binds to the payload parameter, and what it stores
    there when the row goes in. *)
Lemma db_insert_message_binding
    (topic : option string) (payload : option (list byte))
    (payloadlen qos retain : Z) (e : Env) (w : World) (st : Sqlite.stmt) :
  g_stmt_insert w = Some st ->
  payload_fits payload payloadlen ->
  let text := stored_payload (env_malloc_fails e) payload payloadlen in
  exists w',
    db_insert_message topic payload payloadlen qos retain e w = Some (tt, w') /\
    payload_binding w' = Some (Sqlite.Text text) /\
    In (EvSqlBind 3 (Sqlite.Text text)) (trace w') /\
    (forall d t, disk w !! Sqlite.stmt_db st = Some d ->
       env_step_fault e = None -> topic = Some t ->
       (exists r, stored_rows w' = stored_rows w ++ [r] /\
                  Sqlite.row_payload r = Sqlite.Text text) /\
       trace w' =
         trace w ++
         insert_calls (insert_bindings e topic payload payloadlen qos retain) ++
         [EvSqlStep Sqlite.SQLITE_DONE]).
Proof.
  intros Hst Hfit text.
  assert (Hin : forall t0 rest,
    In (EvSqlBind 3 (Sqlite.Text text))
       (t0 ++ insert_calls
                (insert_bindings e topic payload payloadlen qos retain) ++ rest)).
  { intros t0 rest. apply in_or_app. right. apply in_or_app. left.
    unfold insert_calls, insert_bindings. simpl. fold text. auto 10. }
  destruct (disk w !! Sqlite.stmt_db st) as [d|] eqn:Hd.
  - pose proof (db_insert_message_run topic payload payloadlen qos retain
                  e w st d Hst Hd Hfit) as Hrun.
    cbv zeta in Hrun.
    match type of Hrun with
    | _ = Some (tt, ?W) => remember W as wf eqn:Hwf
    end.
    exists wf; split; [exact Hrun|].
    split.
    { subst wf. unfold payload_binding. simpl. rewrite step_stmt.
      reflexivity. }
    split; [subst wf; apply Hin|].
    intros d0 t Hd0 Hfl Ht. inversion Hd0; subst d0.
    destruct (db_insert_message_stored topic payload payloadlen qos retain
                e w st d Hst Hd Hfit t Hfl Ht)
      as (w' & Hrun' & Hrows & Htr & _).
    assert (w' = wf) as -> by congruence.
    split; [|exact Htr].
    eexists; split; [exact Hrows|reflexivity].
  - pose proof (db_insert_message_orphan topic payload payloadlen qos retain
                  e w st Hst Hd Hfit) as Hrun.
    cbv zeta in Hrun.
    eexists; split; [exact Hrun|].
    split; [reflexivity|].
    split; [apply Hin|].
    intros d0 t Hd0. discriminate.
Qed.

(** C4.  For every insert call on a prepared statement, what is bound to
    the payload parameter is a text, never NULL: the empty string for a
    NULL payload pointer, for a negative length, for an empty payload and
    when the copy cannot be allocated; otherwise the copied bytes with a
    NUL appended, read as text.  When the row is stored, that text is its
    payload. *)
Theorem db_insert_message_payload_never_null
    (topic : option string) (payload : option (list byte))
    (payloadlen qos retain : Z) (e : Env) (w : World) (st : Sqlite.stmt) :
  g_stmt_insert w = Some st ->
  payload_fits payload payloadlen ->
  let text := stored_payload (env_malloc_fails e) payload payloadlen in
  exists w',
    db_insert_message topic payload payloadlen qos retain e w = Some (tt, w') /\
    payload_binding w' = Some (Sqlite.Text text) /\
    In (EvSqlBind 3 (Sqlite.Text text)) (trace w') /\
    (payload = None -> text = "") /\
    (payloadlen < 0 -> text = "") /\
    (payloadlen = 0 -> text = "") /\
    (env_malloc_fails e = true -> text = "") /\
    (forall src, payload = Some src -> 0 <= payloadlen ->
       env_malloc_fails e = false ->
       text = c_string (take (Z.to_nat payloadlen) src ++ [x00])) /\
    (forall src, payload = Some src -> 0 <= payloadlen ->
       env_malloc_fails e = false ->
       ~ In x00 (take (Z.to_nat payloadlen) src) ->
       text = string_of_list_byte (take (Z.to_nat payloadlen) src)) /\
    (forall d t, disk w !! Sqlite.stmt_db st = Some d ->
       env_step_fault e = None -> topic = Some t ->
       exists r, stored_rows w' = stored_rows w ++ [r] /\
                 Sqlite.row_payload r = Sqlite.Text text).
Proof.
  intros Hst Hfit text.
  destruct (stored_payload_cases (env_malloc_fails e) payload payloadlen)
    as (Hnull & Hneg & Hempty & Hnomem & Hcopy).
  assert (Hwhole : forall src, payload = Some src -> 0 <= payloadlen ->
            env_malloc_fails e = false ->
            ~ In x00 (take (Z.to_nat payloadlen) src) ->
            text = string_of_list_byte (take (Z.to_nat payloadlen) src)).
  { intros src Hp Hlen Hm Hno. subst text.
    rewrite (Hcopy src Hp Hlen Hm). unfold c_string.
    now rewrite until_nul_whole. }
  destruct (db_insert_message_binding topic payload payloadlen qos retain
              e w st Hst Hfit) as (w' & Hrun & Hbind & Hin & Hrow).
  exists w'.
  split; [exact Hrun|]. split; [exact Hbind|]. split; [exact Hin|].
  split; [exact Hnull|]. split; [exact Hneg|]. split; [exact Hempty|].
  split; [exact Hnomem|]. split; [exact Hcopy|].
  split; [exact Hwhole|].
  intros d t Hd Hfl Ht. apply (Hrow d t Hd Hfl Ht).
Qed.

Lemma db_insert_message_payload_never_null_witness :
  payload_binding
    (world_after
       (db_insert_message (Some "t") (Some ["h"; "i"]%byte) (-1) 0 0)
       (quiet_env 1700000000) ready_world)
    = Some (Sqlite.Text "").
Proof.
  destruct (db_insert_message_payload_never_null
              (Some "t") (Some ["h"; "i"]%byte) (-1) 0 0
              (quiet_env 1700000000) ready_world ready_stmt)
    as (w' & Hrun & Hbind & _ & _ & Hneg & _).
  - vm_compute. reflexivity.
  - simpl. lia.
  - unfold world_after. rewrite Hrun, Hbind, Hneg; [reflexivity|lia].
Defined.

(** C5.  When the inbound payload (the [payloadlen] bytes at [payload])
    holds a NUL byte, the text bound to the payload parameter, and stored
    with the row, is the payload up to but excluding its first NUL: what
    follows is dropped, because the copy is read as a NUL-terminated
    string.  Nothing is written about it: the calls on the statement are
    all that the insert adds to the trace. *)
Theorem db_insert_message_truncates_at_nul
    (topic : option string) (src : list byte) (payloadlen qos retain : Z)
    (e : Env) (w : World) (st : Sqlite.stmt) (pre post : list byte) :
  g_stmt_insert w = Some st ->
  0 <= payloadlen <= Z.of_nat (length src) ->
  take (Z.to_nat payloadlen) src = pre ++ x00 :: post ->
  ~ In x00 pre ->
  env_malloc_fails e = false ->
  exists w',
    db_insert_message topic (Some src) payloadlen qos retain e w
      = Some (tt, w') /\
    payload_binding w' = Some (Sqlite.Text (string_of_list_byte pre)) /\
    (forall d t, disk w !! Sqlite.stmt_db st = Some d ->
       env_step_fault e = None -> topic = Some t ->
       (exists r, stored_rows w' = stored_rows w ++ [r] /\
                  Sqlite.row_payload r =
                    Sqlite.Text (string_of_list_byte pre)) /\
       trace w' =
         trace w ++
         [EvSqlReset; EvSqlClearBindings;
          EvSqlBind 1 (Sqlite.Integer (env_time e));
          EvSqlBind 2 (Sqlite.Text t);
          EvSqlBind 3 (Sqlite.Text (string_of_list_byte pre));
          EvSqlBind 4 (Sqlite.Integer qos);
          EvSqlBind 5 (Sqlite.Integer retain);
          EvSqlStep Sqlite.SQLITE_DONE]).
Proof.
  intros Hst Hlen Hcut Hno Hm.
  destruct (db_insert_message_binding topic (Some src) payloadlen
              qos retain e w st Hst)
    as (w' & Hrun & Hbind & _ & Hrow);
    [simpl; lia|].
  destruct (stored_payload_cases (env_malloc_fails e) (Some src) payloadlen)
    as (_ & _ & _ & _ & Htext).
  assert (Heq : stored_payload (env_malloc_fails e) (Some src) payloadlen
                = string_of_list_byte pre).
  { rewrite (Htext src eq_refl) by (lia || exact Hm).
    rewrite Hcut. now apply c_string_cut. }
  rewrite Heq in Hbind.
  exists w'. split; [exact Hrun|]. split; [exact Hbind|].
  intros d t Hd Hfl Ht.
  destruct (Hrow d t Hd Hfl Ht) as [Hr Htr].
  rewrite Heq in Hr. split; [exact Hr|].
  rewrite Htr. unfold insert_calls, insert_bindings. rewrite Heq, Ht.
  reflexivity.
Qed.

Lemma db_insert_message_truncates_at_nul_witness :
  exists r,
    stored_rows
      (world_after
         (db_insert_message (Some "obk/state")
            (Some ["h"; "e"; x00; "l"; "o"]%byte) 5 1 0)
         (quiet_env 1700000000) ready_world)
      = stored_rows ready_world ++ [r] /\
    Sqlite.row_payload r = Sqlite.Text "he".
Proof.
  destruct (db_insert_message_truncates_at_nul
              (Some "obk/state") ["h"; "e"; x00; "l"; "o"]%byte 5 1 0
              (quiet_env 1700000000) ready_world ready_stmt
              ["h"; "e"]%byte ["l"; "o"]%byte)
    as (w' & Hrun & _ & Hrow).
  - vm_compute. reflexivity.
  - simpl. lia.
  - reflexivity.
  - simpl. intros [H|[H|[]]]; discriminate.
  - reflexivity.
  - unfold world_after. rewrite Hrun.
    eapply Hrow; [vm_compute; reflexivity|reflexivity|reflexivity].
Defined.

(** C2.  When the execute step of an insert fails (the engine fails, or the
    row is refused), the failure is written to stderr and nothing else
    happens: the call returns, no row is added, the stop flag, the session
    and the database files are as before.  An insert for the next message,
    whose execute step succeeds, then adds exactly its one row. *)
Theorem db_insert_message_failure_is_only_logged
    (topic : option string) (payload : option (list byte))
    (payloadlen qos retain : Z) (e : Env)
    (topic2 : string) (payload2 : option (list byte))
    (payloadlen2 qos2 retain2 : Z) (e2 : Env)
    (w : World) (st : Sqlite.stmt) (d : Sqlite.database) :
  g_stmt_insert w = Some st ->
  disk w !! Sqlite.stmt_db st = Some d ->
  payload_fits payload payloadlen ->
  payload_fits payload2 payloadlen2 ->
  env_step_fault e <> None \/ topic = None ->
  env_step_fault e2 = None ->
  exists rc w' w'',
    rc <> Sqlite.SQLITE_DONE /\
    db_insert_message topic payload payloadlen qos retain e w = Some (tt, w') /\
    trace w' =
      trace w ++
      insert_calls (insert_bindings e topic payload payloadlen qos retain) ++
      [EvSqlStep rc;
       EvStderr ("sqlite3_step(insert) failed: " +:+ env_sqlite_errmsg e rc)] /\
    stored_rows w' = stored_rows w /\
    disk w' = disk w /\
    g_should_stop w' = g_should_stop w /\
    g_mosq w' = g_mosq w /\
    g_db w' = g_db w /\
    db_insert_message (Some topic2) payload2 payloadlen2 qos2 retain2 e2 w'
      = Some (tt, w'') /\
    stored_rows w'' =
      stored_rows w ++
      [insert_row (Sqlite.db_sequence d + 1) e2 topic2 payload2 payloadlen2
         qos2 retain2].
Proof.
  intros Hst Hd Hfit Hfit2 Hfail Hok.
  destruct (db_insert_message_failed topic payload payloadlen qos retain
              e w st d Hst Hd Hfit Hfail) as (rc & Hrc & Hrun).
  match type of Hrun with
  | _ = Some (tt, ?W) => remember W as w' eqn:Hw'
  end.
  assert (Hst' : g_stmt_insert w' =
                 Some (Sqlite.mkStmt (Sqlite.stmt_db st)
                         (insert_bindings e topic payload payloadlen qos retain)
                         true)) by (subst w'; reflexivity).
  assert (Hd' : disk w' = disk w) by (subst w'; reflexivity).
  assert (Hrows : stored_rows w' = stored_rows w).
  { unfold stored_rows. rewrite Hst', Hst, Hd'. reflexivity. }
  assert (Hd2 : disk w' !! Sqlite.stmt_db st = Some d)
    by (rewrite Hd'; exact Hd).
  destruct (db_insert_message_stored (Some topic2) payload2 payloadlen2 qos2
              retain2 e2 w' _ d Hst' Hd2 Hfit2 topic2 Hok eq_refl)
    as (w'' & Hrun2 & Hrows2 & _).
  exists rc, w', w''.
  split; [exact Hrc|]. split; [exact Hrun|].
  split; [subst w'; reflexivity|].
  split; [exact Hrows|]. split; [exact Hd'|].
  split; [subst w'; reflexivity|].
  split; [subst w'; reflexivity|].
  split; [subst w'; reflexivity|].
  split; [exact Hrun2|].
  rewrite Hrows2, Hrows. reflexivity.
Qed.

Lemma db_insert_message_failure_is_only_logged_witness :
  exists w' w'',
    db_insert_message (Some "a") (Some ["1"]%byte) 1 0 0
      (disk_full_env 1700000000) ready_world = Some (tt, w') /\
    stored_rows w' = [] /\
    db_insert_message (Some "b") (Some ["2"]%byte) 1 0 0
      (quiet_env 1700000001) w' = Some (tt, w'') /\
    stored_rows w'' =
      [Sqlite.mkRow 1 (Sqlite.Integer 1700000001) (Sqlite.Text "b")
         (Sqlite.Text "2") (Sqlite.Integer 0) (Sqlite.Integer 0)].
Proof.
  destruct (db_insert_message_failure_is_only_logged
              (Some "a") (Some ["1"]%byte) 1 0 0 (disk_full_env 1700000000)
              "b" (Some ["2"]%byte) 1 0 0 (quiet_env 1700000001)
              ready_world ready_stmt
              (Sqlite.mkDatabase
                 [Sqlite.Table "messages"
                    ["id"; "ts"; "topic"; "payload"; "qos"; "retain"];
                  Sqlite.Index "idx_messages_ts" "messages" "ts";
                  Sqlite.Index "idx_messages_topic" "messages" "topic"]
                 [] 0))
    as (rc & w' & w'' & _ & Hrun & _ & Hrows & _ & _ & _ & _ & Hrun2 & Hrows2).
  - vm_compute. reflexivity.
  - vm_compute. reflexivity.
  - simpl. lia.
  - simpl. lia.
  - left. discriminate.
  - reflexivity.
  - exists w', w''. split; [exact Hrun|]. split; [exact Hrows|].
    split; [exact Hrun2|]. exact Hrows2.
Defined.

Section InsertOrder.

Variables (topic : option string) (payload : option (list byte)).
Variables (payloadlen qos retain : Z).
Variables (e : Env) (w : World) (st : Sqlite.stmt) (d : Sqlite.database).

Hypothesis Hst : g_stmt_insert w = Some st.
Hypothesis Hd : disk w !! Sqlite.stmt_db st = Some d.
Hypothesis Hfit : payload_fits payload payloadlen.

Lemma last_stmt_call_step (t calls : list event) (rc : Z) (quiet : bool)
    (line : string) :
  last_stmt_call
    (t ++ calls ++ [EvSqlStep rc] ++ if quiet then [] else [EvStderr line])
  = Some (EvSqlStep rc).
Proof.
  unfold last_stmt_call. rewrite !List.filter_app.
  replace (List.filter is_stmt_call (if quiet then [] else [EvStderr line]))
    with (@nil event) by (destruct quiet; reflexivity).
  simpl. rewrite ?app_nil_r, app_assoc. apply last_snoc.
Qed.

(** Every outcome of one insert at once. *)
Lemma db_insert_message_outcome :
  exists rc w',
    db_insert_message topic payload payloadlen qos retain e w = Some (tt, w') /\
    trace w' =
      trace w ++
      insert_calls (insert_bindings e topic payload payloadlen qos retain) ++
      [EvSqlStep rc] ++
      (if rc =? Sqlite.SQLITE_DONE then []
       else [EvStderr ("sqlite3_step(insert) failed: " +:+
                       env_sqlite_errmsg e rc)]) /\
    g_stmt_insert w' =
      Some (Sqlite.mkStmt (Sqlite.stmt_db st)
              (insert_bindings e topic payload payloadlen qos retain) true) /\
    is_Some (disk w' !! Sqlite.stmt_db st) /\
    (rc = Sqlite.SQLITE_DONE <->
     env_step_fault e = None /\ topic <> None) /\
    (forall t, rc = Sqlite.SQLITE_DONE -> topic = Some t ->
       stored_rows w' =
         stored_rows w ++
         [insert_row (Sqlite.db_sequence d + 1) e t payload payloadlen
            qos retain]) /\
    (rc <> Sqlite.SQLITE_DONE -> stored_rows w' = stored_rows w).
Proof using Hst Hd Hfit.
  destruct (env_step_fault e) as [f|] eqn:Hf; [|destruct topic as [t|] eqn:Ht].
  - destruct (db_insert_message_failed topic payload payloadlen qos retain
                e w st d Hst Hd Hfit) as (rc & Hrc & Hrun);
      [left; congruence|].
    exists rc. eexists. split; [exact Hrun|]. simpl.
    apply Z.eqb_neq in Hrc as Hrc'. rewrite Hrc'.
    split; [reflexivity|]. split; [reflexivity|]. split; [now rewrite Hd|].
    split; [split; [congruence|intros [? _]; congruence]|].
    split; [congruence|].
    intros _. unfold stored_rows. simpl. now rewrite Hst.
  - destruct (db_insert_message_stored topic payload payloadlen qos retain
                e w st d Hst Hd Hfit t Hf) as (w' & Hrun & Hrows & Htr & Hs');
      [now subst topic|].
    subst topic.
    exists Sqlite.SQLITE_DONE, w'. split; [exact Hrun|].
    split; [rewrite Htr; reflexivity|].
    split; [exact Hs'|].
    split.
    { rewrite (db_insert_message_run (Some t) payload payloadlen qos retain
                 e w st d Hst Hd Hfit) in Hrun.
      injection Hrun as <-. simpl. rewrite lookup_insert_eq. eauto. }
    split; [split; [intros _; split; congruence|reflexivity]|].
    split; [|congruence].
    intros t' _ [= <-]. exact Hrows.
  - destruct (db_insert_message_failed topic payload payloadlen qos retain
                e w st d Hst Hd Hfit) as (rc & Hrc & Hrun);
      [right; subst topic; reflexivity|].
    subst topic.
    exists rc. eexists. split; [exact Hrun|]. simpl.
    apply Z.eqb_neq in Hrc as Hrc'. rewrite Hrc'.
    split; [reflexivity|]. split; [reflexivity|]. split; [now rewrite Hd|].
    split; [split; [congruence|intros [_ ?]; congruence]|].
    split; [congruence|].
    intros _. unfold stored_rows. simpl. now rewrite Hst.
Qed.

End InsertOrder.

(** C6 (as amended).  Every insert call on a prepared statement first
    resets the statement and clears its parameters, whatever state the
    previous call left it in; it then binds the current time as
    [received_at], the topic, the payload, the qos and the retain flag, and
    executes the statement.  Nothing is done to the statement after the
    execute step: it is left stepped, and it is the reset at the start of
    the next call that lets this call bind and execute in turn, after a
    success as after a failure. *)
Theorem db_insert_message_resets_then_binds_then_executes
    (topic : option string) (payload : option (list byte))
    (payloadlen qos retain : Z) (e : Env)
    (topic2 : option string) (payload2 : option (list byte))
    (payloadlen2 qos2 retain2 : Z) (e2 : Env)
    (w : World) (st : Sqlite.stmt) (d : Sqlite.database) :
  g_stmt_insert w = Some st ->
  disk w !! Sqlite.stmt_db st = Some d ->
  payload_fits payload payloadlen ->
  payload_fits payload2 payloadlen2 ->
  let text := stored_payload (env_malloc_fails e) payload payloadlen in
  let b2 := insert_bindings e2 topic2 payload2 payloadlen2 qos2 retain2 in
  exists rc w' rc2 w'',
    db_insert_message topic payload payloadlen qos retain e w = Some (tt, w') /\
    trace w' =
      trace w ++
      [EvSqlReset; EvSqlClearBindings;
       EvSqlBind 1 (Sqlite.Integer (env_time e));
       EvSqlBind 2 (text_value topic);
       EvSqlBind 3 (Sqlite.Text text);
       EvSqlBind 4 (Sqlite.Integer qos);
       EvSqlBind 5 (Sqlite.Integer retain);
       EvSqlStep rc] ++
      (if rc =? Sqlite.SQLITE_DONE then []
       else [EvStderr ("sqlite3_step(insert) failed: " +:+
                       env_sqlite_errmsg e rc)]) /\
    last_stmt_call (trace w') = Some (EvSqlStep rc) /\
    g_stmt_insert w' =
      Some (Sqlite.mkStmt (Sqlite.stmt_db st)
              [Sqlite.Integer (env_time e); text_value topic; Sqlite.Text text;
               Sqlite.Integer qos; Sqlite.Integer retain] true) /\
    (rc = Sqlite.SQLITE_DONE <-> env_step_fault e = None /\ topic <> None) /\
    (forall t, rc = Sqlite.SQLITE_DONE -> topic = Some t ->
       stored_rows w' =
         stored_rows w ++
         [insert_row (Sqlite.db_sequence d + 1) e t payload payloadlen
            qos retain]) /\
    (rc <> Sqlite.SQLITE_DONE -> stored_rows w' = stored_rows w) /\
    db_insert_message topic2 payload2 payloadlen2 qos2 retain2 e2 w'
      = Some (tt, w'') /\
    trace w'' =
      trace w' ++ insert_calls b2 ++ [EvSqlStep rc2] ++
      (if rc2 =? Sqlite.SQLITE_DONE then []
       else [EvStderr ("sqlite3_step(insert) failed: " +:+
                       env_sqlite_errmsg e2 rc2)]) /\
    g_stmt_insert w'' = Some (Sqlite.mkStmt (Sqlite.stmt_db st) b2 true) /\
    (rc2 = Sqlite.SQLITE_DONE <-> env_step_fault e2 = None /\ topic2 <> None).
Proof.
  intros Hst Hd Hfit Hfit2 text b2.
  destruct (db_insert_message_outcome topic payload payloadlen qos retain
              e w st d Hst Hd Hfit)
    as (rc & w' & Hrun & Htr & Hs' & [d' Hd'] & Hiff & Hok & Hko).
  destruct (db_insert_message_outcome topic2 payload2 payloadlen2 qos2 retain2
              e2 w' _ d' Hs' Hd' Hfit2)
    as (rc2 & w'' & Hrun2 & Htr2 & Hs'' & _ & Hiff2 & _ & _).
  exists rc, w', rc2, w''.
  split; [exact Hrun|].
  split; [rewrite Htr; reflexivity|].
  split; [rewrite Htr; apply last_stmt_call_step|].
  split; [exact Hs'|].
  split; [exact Hiff|].
  split; [exact Hok|].
  split; [exact Hko|].
  split; [exact Hrun2|].
  split; [exact Htr2|].
  split; [exact Hs''|exact Hiff2].
Qed.

Lemma db_insert_message_resets_then_binds_then_executes_witness :
  exists rc rc2 w' w'',
    db_insert_message None (Some ["1"]%byte) 1 0 0
      (quiet_env 1700000000) ready_world = Some (tt, w') /\
    last_stmt_call (trace w') = Some (EvSqlStep rc) /\
    rc <> Sqlite.SQLITE_DONE /\
    db_insert_message (Some "b") (Some ["2"]%byte) 1 0 0
      (quiet_env 1700000001) w' = Some (tt, w'') /\
    rc2 = Sqlite.SQLITE_DONE.
Proof.
  destruct (db_insert_message_resets_then_binds_then_executes
              None (Some ["1"]%byte) 1 0 0 (quiet_env 1700000000)
              (Some "b") (Some ["2"]%byte) 1 0 0 (quiet_env 1700000001)
              ready_world ready_stmt
              (Sqlite.mkDatabase
                 [Sqlite.Table "messages"
                    ["id"; "ts"; "topic"; "payload"; "qos"; "retain"];
                  Sqlite.Index "idx_messages_ts" "messages" "ts";
                  Sqlite.Index "idx_messages_topic" "messages" "topic"]
                 [] 0))
    as (rc & w' & rc2 & w'' & Hrun & _ & Hlast & _ & Hiff & _ & _ & Hrun2 & _
        & _ & Hiff2).
  - vm_compute. reflexivity.
  - vm_compute. reflexivity.
  - simpl. lia.
  - simpl. lia.
  - exists rc, rc2, w', w''.
    split; [exact Hrun|]. split; [exact Hlast|].
    split; [intros H; apply Hiff in H; destruct H as [_ H]; now apply H|].
    split; [exact Hrun2|].
    apply Hiff2. split; [reflexivity|discriminate].
Defined.

(** C6, the sentence as written.  The last call an insert makes on the
    statement is the execute step, not a reset. *)
Lemma resets_after_execute_fails : ~ resets_after_execute.
Proof.
  intros H.
  specialize (H (Some "t") (Some ["h"; "i"]%byte) 2 0 0
                (quiet_env 1700000000) ready_world
                (world_after
                   (db_insert_message (Some "t") (Some ["h"; "i"]%byte) 2 0 0)
                   (quiet_env 1700000000) ready_world)
                ready_stmt
                (Sqlite.mkDatabase
                   [Sqlite.Table "messages"
                      ["id"; "ts"; "topic"; "payload"; "qos"; "retain"];
                    Sqlite.Index "idx_messages_ts" "messages" "ts";
                    Sqlite.Index "idx_messages_topic" "messages" "topic"]
                   [] 0)).
  assert (Hlast : last_stmt_call
            (trace
               (world_after
                  (db_insert_message (Some "t") (Some ["h"; "i"]%byte) 2 0 0)
                  (quiet_env 1700000000) ready_world))
          = Some (EvSqlStep Sqlite.SQLITE_DONE))
    by (vm_compute; reflexivity).
  rewrite Hlast in H.
  discriminate H.
  - vm_compute. reflexivity.
  - vm_compute. reflexivity.
  - simpl. lia.
  - vm_compute. reflexivity.
Qed.

(** Why the reset matters: a statement that was stepped and not reset
    refuses a binding. *)
Example bind_needs_reset :
  Sqlite.bind 1 (Sqlite.Integer 7) (Sqlite.mkStmt "db" Sqlite.unbound true)
  = (Sqlite.SQLITE_MISUSE, Sqlite.mkStmt "db" Sqlite.unbound true).
Proof. reflexivity. Qed.

(** ** The session *)

(** [handle_connect], run: one line of log, then for a result code 0 the
    subscribe and a line that tells how it went. *)
Lemma handle_connect_run (rc : Z) (e : Env) (w : World) :
  handle_connect rc e w =
    Some (tt,
          set_trace
            (trace w ++
             EvLog "INFO"
               (CStr.snprintf_s 128 ("Connected with rc=" +:+ fmt_d rc)) ::
             (if rc =? 0 then
                [EvMosqSubscribe (g_topic (cfg w)) 0;
                 EvStderr
                   (if env_subscribe_rc e =? Mosq.MOSQ_ERR_SUCCESS
                    then "Subscribed to " +:+ g_topic (cfg w)
                    else "mosquitto_subscribe failed: " +:+
                         env_mosq_strerror e (env_subscribe_rc e))]
              else []))
            w).
Proof.
  unfold handle_connect, log_ts, mosquitto_subscribe, fprintf_stderr, emit,
    modify, bind, get, ask, ret.
  destruct (rc =? 0); simpl; [|reflexivity].
  destruct (env_subscribe_rc e =? Mosq.MOSQ_ERR_SUCCESS); simpl;
    f_equal; f_equal; apply world_eq; try reflexivity;
    simpl; rewrite <- !app_assoc; reflexivity.
Qed.

(** C3.  On a connect event with result code 0, [handle_connect] makes
    exactly one call into the library: a subscribe for the configured topic
    filter at qos 0.  Whether that call succeeds or fails, a line is
    written and nothing else happens: no disconnect, no change to the
    session or to the stop flag.  On a connect event with any other result
    code no call is made into the library. *)
Theorem handle_connect_subscribes_once (rc : Z) (e : Env) (w : World) :
  let line := EvLog "INFO"
                (CStr.snprintf_s 128 ("Connected with rc=" +:+ fmt_d rc)) in
  let topic := g_topic (cfg w) in
  exists w',
    handle_connect rc e w = Some (tt, w') /\
    w' = set_trace (trace w') w /\
    mosq_calls (trace w') =
      mosq_calls (trace w) ++
      (if rc =? 0 then [EvMosqSubscribe topic 0] else []) /\
    (rc = 0 -> env_subscribe_rc e = Mosq.MOSQ_ERR_SUCCESS ->
       trace w' =
         trace w ++
         [line; EvMosqSubscribe topic 0;
          EvStderr ("Subscribed to " +:+ topic)]) /\
    (rc = 0 -> env_subscribe_rc e <> Mosq.MOSQ_ERR_SUCCESS ->
       trace w' =
         trace w ++
         [line; EvMosqSubscribe topic 0;
          EvStderr ("mosquitto_subscribe failed: " +:+
                    env_mosq_strerror e (env_subscribe_rc e))]) /\
    (rc <> 0 -> trace w' = trace w ++ [line]).
Proof.
  intros line topic. subst line topic.
  eexists. split; [apply handle_connect_run|].
  split; [apply world_eq; reflexivity|]. simpl.
  split.
  { unfold mosq_calls. rewrite List.filter_app. f_equal.
    destruct (rc =? 0); reflexivity. }
  split.
  { intros -> Hs. apply Z.eqb_eq in Hs. rewrite Hs. reflexivity. }
  split.
  { intros -> Hs. apply Z.eqb_neq in Hs. rewrite Hs. reflexivity. }
  intros Hrc. apply Z.eqb_neq in Hrc. rewrite Hrc. reflexivity.
Qed.

Lemma handle_connect_subscribes_once_witness :
  exists w',
    handle_connect 0 (unreachable_env 1700000000) ready_world = Some (tt, w') /\
    mosq_calls (trace w') =
      mosq_calls (trace ready_world) ++ [EvMosqSubscribe "#" 0].
Proof.
  destruct (handle_connect_subscribes_once 0 (unreachable_env 1700000000)
              ready_world) as (w' & Hrun & _ & Hcalls & _).
  exists w'. split; [exact Hrun|exact Hcalls].
Defined.

Example handle_connect_after_reconnect :
  mosq_calls
    (trace
       (world_after
          (bind (handle_connect 0)
             (fun _ => bind (handle_disconnect 7)
                (fun _ => handle_connect 0)))
          (quiet_env 1700000000) ready_world))
  = [EvMosqSubscribe "#" 0; EvMosqSubscribe "#" 0].
Proof. vm_compute. reflexivity. Qed.

(** ** Computations that never fault *)

Section Steady.

Lemma steady_ret {A} (a : A) (P : A -> Prop) : P a -> steady (ret a) P.
Proof.
  intros HP e w. exists a, w. repeat split; [exact HP|].
  exists []. now rewrite app_nil_r.
Qed.

Lemma steady_bind {A B} (m : M A) (k : A -> M B) (P : A -> Prop)
    (Q : B -> Prop) :
  steady m P -> (forall a, P a -> steady (k a) Q) -> steady (bind m k) Q.
Proof.
  intros Hm Hk e w.
  destruct (Hm e w) as (a & w1 & Hrun & HP & t1 & Ht1).
  destruct (Hk a HP e w1) as (b & w2 & Hrun2 & HQ & t2 & Ht2).
  exists b, w2. unfold bind. rewrite Hrun. split; [exact Hrun2|].
  split; [exact HQ|]. exists (t1 ++ t2). now rewrite Ht2, Ht1, app_assoc.
Qed.

Lemma steady_get {A} (f : World -> A) : steady (get f) (fun _ => True).
Proof.
  intros e w. exists (f w), w. repeat split.
  exists []. now rewrite app_nil_r.
Qed.

Lemma steady_modify (f : World -> World) :
  (forall w, trace (f w) = trace w) -> steady (modify f) (fun _ => True).
Proof.
  intros Hf e w. exists tt, (f w). repeat split.
  exists []. now rewrite Hf, app_nil_r.
Qed.

Lemma steady_emit (ev : event) : steady (emit ev) (fun _ => True).
Proof. intros e w. exists tt. eexists. repeat split. now exists [ev]. Qed.

Lemma steady_local {A} (e0 : Env) (m : M A) (P : A -> Prop) :
  steady m P -> steady (local e0 m) P.
Proof. intros Hm e w. apply (Hm e0 w). Qed.

Lemma steady_run_network_repair_script :
  steady run_network_repair_script (fun _ => True).
Proof.
  intros e w.
  destruct (run_network_repair_script_total e w) as [rc Hrun].
  exists rc, (after_repair e w). split; [exact Hrun|]. split; [exact I|].
  unfold after_repair.
  destruct (Z.lt_ge_cases (env_time e - g_last_script_run w)
              SCRIPT_MIN_INTERVAL_SEC) as [Hlt|Hge].
  - rewrite run_network_repair_script_throttled by exact Hlt. simpl. eauto.
  - destruct (run_network_repair_script_runs e w Hge)
      as (rc' & w' & -> & _ & _ & _ & _ & _ & _ & ->). eauto.
Qed.

Lemma steady_handle_connect (rc : Z) :
  steady (handle_connect rc) (fun _ => True).
Proof.
  intros e w. rewrite handle_connect_run.
  eexists _, _. split; [reflexivity|]. split; [exact I|]. simpl. eauto.
Qed.

Lemma steady_handle_disconnect (rc : Z) :
  steady (handle_disconnect rc) (fun _ => True).
Proof.
  unfold handle_disconnect, log_ts.
  eapply steady_bind; [apply steady_emit|intros _ _].
  eapply steady_bind; [apply steady_run_network_repair_script|intros _ _].
  now apply steady_ret.
Qed.

Lemma steady_db_insert_message (topic : option string)
    (payload : option (list byte)) (payloadlen qos retain : Z) :
  payload_fits payload payloadlen ->
  steady (db_insert_message topic payload payloadlen qos retain)
    (fun _ => True).
Proof.
  intros Hfit e w.
  destruct (g_stmt_insert w) as [st|] eqn:Hst.
  - destruct (disk w !! Sqlite.stmt_db st) as [d|] eqn:Hd.
    + rewrite (db_insert_message_run topic payload payloadlen qos retain
                 e w st d Hst Hd Hfit).
      eexists _, _. split; [reflexivity|]. split; [exact I|]. simpl. eauto.
    + rewrite (db_insert_message_orphan topic payload payloadlen qos retain
                 e w st Hst Hd Hfit).
      eexists _, _. split; [reflexivity|]. split; [exact I|]. simpl. eauto.
  - rewrite (db_insert_message_unprepared topic payload payloadlen qos retain
               e w Hst).
    exists tt, w. repeat split. exists []. now rewrite app_nil_r.
Qed.

Lemma steady_handle_message (msg : option Mosq.message) :
  event_fits (Mosq.Publish msg) -> steady (handle_message msg) (fun _ => True).
Proof.
  intros Hfit. destruct msg as [m|]; [|now apply steady_ret].
  unfold handle_message, fprintf_stderr.
  eapply steady_bind; [apply steady_db_insert_message; exact Hfit|intros _ _].
  apply steady_emit.
Qed.

Lemma steady_on_signal (sig : Z) : steady (on_signal sig) (fun _ => True).
Proof.
  unfold on_signal.
  eapply steady_bind; [apply steady_modify; reflexivity|intros _ _].
  eapply steady_bind; [apply steady_get|intros mosq _].
  destruct mosq; [|now apply steady_ret].
  unfold mosquitto_disconnect.
  eapply steady_bind with (P := fun _ => True);
    [|intros _ _; now apply steady_ret].
  eapply steady_bind; [apply steady_emit|intros _ _; now apply steady_ret].
Qed.

Lemma steady_dispatch (ev : Mosq.net_event) :
  event_fits ev -> steady (dispatch ev) (fun _ => True).
Proof.
  intros Hfit. unfold dispatch.
  eapply steady_bind; [apply steady_get|intros mosq _].
  destruct ev as [rc|rc|msg|sig], mosq as [s|];
    try (now apply steady_ret); try apply steady_on_signal.
  - destruct (Mosq.on_connect s) as [[]|];
      try (now apply steady_ret). apply steady_handle_connect.
  - destruct (Mosq.on_disconnect s) as [[]|];
      try (now apply steady_ret). apply steady_handle_disconnect.
  - destruct (Mosq.on_message s) as [[]|];
      try (now apply steady_ret). now apply steady_handle_message.
Qed.

Lemma steady_run_events (script : list (Env * Mosq.net_event)) :
  script_fits script -> steady (run_events script) (fun _ => True).
Proof.
  induction 1 as [|[e0 ev] rest Hev Hrest IH]; [now apply steady_ret|].
  simpl. eapply steady_bind; [|intros _ _; exact IH].
  apply steady_local, steady_dispatch, Hev.
Qed.

Lemma steady_db_close : steady db_close (fun _ => True).
Proof.
  unfold db_close.
  eapply steady_bind; [apply steady_get|intros st _].
  eapply steady_bind with (P := fun _ => True).
  { destruct st; [|now apply steady_ret].
    eapply steady_bind; [apply steady_emit|intros _ _].
    apply steady_modify; reflexivity. }
  intros _ _.
  eapply steady_bind; [apply steady_get|intros db _].
  destruct db; [|now apply steady_ret].
  eapply steady_bind; [apply steady_emit|intros _ _].
  apply steady_modify; reflexivity.
Qed.

End Steady.

(** ** Disconnects and the start-up *)

Section MainFacts.

Local Arguments db_close : simpl never.
Local Arguments run_events : simpl never.
Local Arguments run_network_repair_script : simpl never.
Local Arguments db_init : simpl never.
Local Arguments fmt_d : simpl never.
Local Arguments CStr.snprintf_s : simpl never.

(** [handle_disconnect] is one line of log and one call of the trigger. *)
Lemma handle_disconnect_run (rc : Z) (e : Env) (w : World) :
  handle_disconnect rc e w =
    Some (tt,
          after_repair e
            (set_trace
               (trace w ++
                [EvLog "WARN"
                   (CStr.snprintf_s 128
                      ("Disconnected (rc=" +:+ fmt_d rc +:+
                       "). Attempting repair + reconnect…"))]) w)).
Proof.
  unfold handle_disconnect, log_ts, emit, modify, bind, ret.
  match goal with
  | |- context [run_network_repair_script e ?W] =>
      destruct (run_network_repair_script_total e W) as [r Hr]; rewrite Hr
  end.
  reflexivity.
Qed.

(** [main] when the store initialises, the session object is allocated and
    the first connect fails: the trigger is called once, the loop is
    entered, and the exit code is 0. *)
Lemma main_after_connect_failure (LONG_MAX : Z)
    (script : list (Env * Mosq.net_event)) (loop_rc : Z) (e : Env)
    (w w1 : World) :
  db_init (g_db_path (cfg (world_after (load_config LONG_MAX) e w))) e
    (world_after (load_config LONG_MAX) e w) = Some (0, w1) ->
  env_mosq_new_fails e = false ->
  env_connect_rc e <> Mosq.MOSQ_ERR_SUCCESS ->
  script_fits script ->
  exists w_c w' cid t,
    trace w_c =
      trace w1 ++
      [EvMosqLibInit; EvMosqNew cid;
       EvMosqConnect (g_broker_host (cfg w1)) (g_broker_port (cfg w1)) 30;
       EvStderr ("Initial connect failed: " +:+
                 env_mosq_strerror e (env_connect_rc e))] /\
    g_last_script_run w_c = g_last_script_run w1 /\
    cfg w_c = cfg w1 /\
    main LONG_MAX script loop_rc e w = Some (0, w') /\
    trace w' = trace (after_repair e w_c) ++ EvMosqLoopForever :: t.
Proof.
  intros Hinit Hnew Hconn Hfit.
  unfold world_after in Hinit. rewrite load_config_world in Hinit.
  unfold main. unfold bind at 1. rewrite load_config_world.
  unfold bind at 1. unfold install_sig_handlers, ret at 1.
  unfold bind at 1. unfold get at 1.
  unfold bind at 1. simpl in Hinit. simpl g_db_path. rewrite Hinit.
  simpl negb. cbv iota.
  unfold emit, modify, getenv, ask, get, mosquitto_new, bind, ret,
    mosquitto_connect_callback_set, mosquitto_disconnect_callback_set,
    mosquitto_message_callback_set, mosquitto_reconnect_delay_set,
    update_session, mosquitto_connect, fprintf_stderr, emit, modify.
  simpl. rewrite Hnew. simpl.
  destruct (Z.eqb_spec (env_connect_rc e) Mosq.MOSQ_ERR_SUCCESS) as [|_];
    [contradiction|].
  simpl.
  match goal with
  | |- context [run_network_repair_script e ?W] => set (w_c := W)
  end.
  destruct (run_network_repair_script_total e w_c) as [rc Hrep].
  rewrite Hrep.
  unfold mosquitto_loop_forever, bind, emit, modify, ret.
  set (w_l := set_trace (trace (after_repair e w_c) ++ [EvMosqLoopForever])
                (after_repair e w_c)).
  destruct (steady_run_events script Hfit e w_l)
    as ([] & w_e & Hev & _ & t_e & Ht_e).
  rewrite Hev.
  exists w_c.
  destruct (negb (loop_rc =? Mosq.MOSQ_ERR_SUCCESS));
    (match goal with
     | |- context [db_close e ?W] =>
         destruct (steady_db_close e W) as ([] & w_f & Hclose & _ & t_f & Ht_f);
         rewrite Hclose
     end;
     simpl in Ht_f;
     eexists w_f, _, _;
     (split; [subst w_c; simpl; rewrite <- !app_assoc; reflexivity|]);
     (split; [reflexivity|]); (split; [reflexivity|]); (split; [reflexivity|]);
     rewrite Ht_f, Ht_e; subst w_l; simpl;
     rewrite <- !app_assoc; simpl; reflexivity).
Qed.

End MainFacts.

(** C7.  [handle_disconnect] writes its line and calls the repair trigger
    once, before it returns: when the throttle lets the call through, the
    command has been handed to [system] in the world the callback leaves,
    and the loop handles its next report from that world.  When the first
    connect fails, [main] writes a line, calls the trigger once, and goes
    on into the loop; the process ends with exit code 0, not because of the
    failed connect. *)
Theorem disconnect_and_failed_connect_call_repair :
  (forall (rc : Z) (e : Env) (w : World),
     let w0 :=
       set_trace
         (trace w ++
          [EvLog "WARN"
             (CStr.snprintf_s 128
                ("Disconnected (rc=" +:+ fmt_d rc +:+
                 "). Attempting repair + reconnect…"))]) w in
     handle_disconnect rc e w = Some (tt, after_repair e w0) /\
     (exists r, run_network_repair_script e w0 = Some (r, after_repair e w0)) /\
     (20 <= env_time e - g_last_script_run w ->
        system_calls (trace (after_repair e w0)) =
          system_calls (trace w) ++ [repair_cmd w]) /\
     (env_time e - g_last_script_run w < 20 ->
        system_calls (trace (after_repair e w0)) = system_calls (trace w)) /\
     (forall (e0 : Env) (rest : list (Env * Mosq.net_event))
             (s : Mosq.session),
        g_mosq w = Some s ->
        Mosq.on_disconnect s = Some Mosq.cb_handle_disconnect ->
        run_events ((e, Mosq.Disconnected rc) :: rest) e0 w =
          run_events rest e0 (after_repair e w0))) /\
  (forall (LONG_MAX : Z) (script : list (Env * Mosq.net_event))
          (loop_rc : Z) (e : Env) (w w1 : World),
     db_init (g_db_path (cfg (world_after (load_config LONG_MAX) e w))) e
       (world_after (load_config LONG_MAX) e w) = Some (0, w1) ->
     env_mosq_new_fails e = false ->
     env_connect_rc e <> Mosq.MOSQ_ERR_SUCCESS ->
     script_fits script ->
     exists w_c w' cid t,
       trace w_c =
         trace w1 ++
         [EvMosqLibInit; EvMosqNew cid;
          EvMosqConnect (g_broker_host (cfg w1)) (g_broker_port (cfg w1)) 30;
          EvStderr ("Initial connect failed: " +:+
                    env_mosq_strerror e (env_connect_rc e))] /\
       g_last_script_run w_c = g_last_script_run w1 /\
       cfg w_c = cfg w1 /\
       (exists r, run_network_repair_script e w_c
                  = Some (r, after_repair e w_c)) /\
       main LONG_MAX script loop_rc e w = Some (0, w') /\
       trace w' = trace (after_repair e w_c) ++ EvMosqLoopForever :: t).
Proof.
  split.
  - intros rc e w w0.
    split; [apply handle_disconnect_run|].
    split; [apply run_network_repair_script_total|].
    split.
    { intros H.
      destruct (run_network_repair_script_runs_calls e w0) as (Hc & _);
        [exact H|].
      rewrite Hc. subst w0. simpl. rewrite system_calls_app. simpl.
      now rewrite app_nil_r. }
    split.
    { intros H. unfold after_repair.
      rewrite run_network_repair_script_throttled by exact H.
      subst w0. simpl. rewrite !system_calls_app. simpl.
      now rewrite !app_nil_r. }
    intros e0 rest s Hs Hcb. simpl.
    unfold bind at 1. unfold local, dispatch. unfold bind at 1. unfold get at 1.
    rewrite Hs, Hcb. rewrite handle_disconnect_run. reflexivity.
  - intros LONG_MAX script loop_rc e w w1 Hinit Hnew Hconn Hfit.
    destruct (main_after_connect_failure LONG_MAX script loop_rc e w w1
                Hinit Hnew Hconn Hfit)
      as (w_c & w' & cid & t & H1 & H2 & H3 & H4 & H5).
    exists w_c, w', cid, t.
    repeat (split; [assumption|]).
    split; [apply run_network_repair_script_total|].
    split; assumption.
Qed.

Lemma disconnect_and_failed_connect_call_repair_witness :
  exists w_c w' t,
    main (2 ^ 63 - 1) [] 0 (unreachable_env 1700000000) (initial_world ∅)
      = Some (0, w') /\
    trace w' =
      trace (after_repair (unreachable_env 1700000000) w_c) ++
      EvMosqLoopForever :: t.
Proof.
  destruct disconnect_and_failed_connect_call_repair as [_ Hmain].
  destruct (Hmain (2 ^ 63 - 1) [] 0 (unreachable_env 1700000000)
              (initial_world ∅)
              (world_after
                 (db_init "./mqtt_messages.db") (unreachable_env 1700000000)
                 (world_after (load_config (2 ^ 63 - 1))
                    (unreachable_env 1700000000) (initial_world ∅))))
    as (w_c & w' & cid & t & _ & _ & _ & _ & Hrun & Htrace).
  - vm_compute. reflexivity.
  - reflexivity.
  - discriminate.
  - constructor.
  - exists w_c, w', t. split; [exact Hrun|exact Htrace].
Defined.

(** A start-up with no broker in reach: the command runs, then the loop
    is entered, and the process ends with exit code 0. *)
Example main_with_unreachable_broker :
  match main (2 ^ 63 - 1) [] 0 (unreachable_env 1700000000) (initial_world ∅) with
  | Some (code, w') =>
      code = 0 /\
      system_calls (trace w') = ["sh -c './handle_network_error.sh'"] /\
      mosq_calls (trace w') =
        [EvMosqLibInit; EvMosqNew "mqtt2sqlite-4242";
         EvMosqConnect "192.168.4.1" 1883 30; EvMosqLoopForever;
         EvMosqDestroy; EvMosqLibCleanup]
  | None => False
  end.
Proof. vm_compute. repeat split; reflexivity. Qed.

(** ** Schema creation *)

Section SchemaFacts.

Import Sqlite.

Lemma existsb_snoc {A} (p : A -> bool) (l : list A) (x : A) :
  existsb p (l ++ [x]) = existsb p l || p x.
Proof. rewrite existsb_app. simpl. now rewrite orb_false_r. Qed.

Lemma table_columns_exists (name : string) (d : database) :
  existsb (is_table name) (db_schema d) = true ->
  exists cols, table_columns name d = Some cols.
Proof.
  unfold table_columns. induction (db_schema d) as [|o l IH]; [discriminate|].
  simpl. destruct (is_table name o) eqn:E.
  - intros _. destruct o; [eauto|discriminate].
  - simpl. exact IH.
Qed.

Lemma table_columns_some (name : string) (d : database) (cols : list string) :
  table_columns name d = Some cols ->
  existsb (is_table name) (db_schema d) = true.
Proof.
  unfold table_columns. induction (db_schema d) as [|o l IH]; [discriminate|].
  simpl. destruct (is_table name o) eqn:E; [reflexivity|]. simpl. exact IH.
Qed.

(** A statement that succeeds leaves what it creates in place, keeps what
    was there, and touches neither the rows nor the counter. *)
Lemma exec_ddl_ok (s : ddl_stmt) (d d' : database) :
  exec_ddl s d = (SQLITE_OK, d') ->
  created s d' = true /\
  (exists extra, db_schema d' = db_schema d ++ extra) /\
  db_messages d' = db_messages d /\
  db_sequence d' = db_sequence d.
Proof.
  destruct s as [ine name cols|ine name tbl col]; simpl.
  - destruct (existsb (is_table name) (db_schema d)) eqn:Et.
    + destruct ine; intros [= <-]; rewrite Et.
      repeat split; auto. exists []. now rewrite app_nil_r.
    + destruct (existsb (is_index name) (db_schema d)); intros [= <-]; simpl.
      rewrite existsb_snoc. simpl. rewrite String.eqb_refl, orb_true_r.
      repeat split; eauto.
  - destruct (table_columns tbl d) as [cols|] eqn:Ec; [|discriminate].
    apply table_columns_some in Ec.
    destruct (existsb (is_index name) (db_schema d)) eqn:Ei.
    + destruct ine; intros [= <-]; rewrite Ei, Ec.
      repeat split; auto. exists []. now rewrite app_nil_r.
    + destruct (existsb (is_table name) (db_schema d)); [discriminate|].
      destruct (has_column col cols); intros [= <-]; simpl.
      rewrite !existsb_snoc. simpl. rewrite String.eqb_refl, Ec, orb_true_r.
      repeat split; eauto.
Qed.

Lemma created_mono (s : ddl_stmt) (d d' : database) (extra : list schema_object) :
  db_schema d' = db_schema d ++ extra ->
  created s d = true -> created s d' = true.
Proof.
  intros He. destruct s; simpl; rewrite He, !existsb_app.
  - intros ->. reflexivity.
  - intros [-> ->]%andb_prop. reflexivity.
Qed.

(** An IF NOT EXISTS statement whose object is there does nothing. *)
Lemma exec_ddl_noop (s : ddl_stmt) (d : database) :
  if_not_exists s = true -> created s d = true ->
  exec_ddl s d = (SQLITE_OK, d).
Proof.
  destruct s as [ine name cols|ine name tbl col]; simpl; intros -> H.
  - now rewrite H.
  - apply andb_prop in H as [Hi Ht].
    destruct (table_columns_exists tbl d Ht) as [cols ->]. now rewrite Hi.
Qed.

Lemma exec_script_ok (script : list ddl_stmt) (d d' : database) :
  exec_script script d = (SQLITE_OK, d') ->
  Forall (fun s => created s d' = true) script /\
  (exists extra, db_schema d' = db_schema d ++ extra) /\
  db_messages d' = db_messages d /\
  db_sequence d' = db_sequence d.
Proof.
  revert d. induction script as [|s rest IH]; intros d; simpl.
  - intros [= <-]. repeat split; auto. exists []. now rewrite app_nil_r.
  - destruct (exec_ddl s d) as [rc d1] eqn:E1.
    destruct (Z.eqb_spec rc SQLITE_OK) as [->|Hrc]; [|intros [= ? ?]; congruence].
    intros Hrest.
    destruct (exec_ddl_ok s d d1 E1) as (Hc & [x1 Hx1] & Hm1 & Hs1).
    destruct (IH d1 Hrest) as (Hall & [x2 Hx2] & Hm2 & Hs2).
    split.
    { constructor; [|exact Hall]. eapply created_mono; eauto. }
    split; [exists (x1 ++ x2); now rewrite Hx2, Hx1, app_assoc|].
    split; congruence.
Qed.

Lemma exec_script_noop (script : list ddl_stmt) (d : database) :
  Forall (fun s => if_not_exists s = true) script ->
  Forall (fun s => created s d = true) script ->
  exec_script script d = (SQLITE_OK, d).
Proof.
  induction script as [|s rest IH]; intros Hine Hc; [reflexivity|].
  inversion Hine; subst. inversion Hc; subst. simpl.
  rewrite exec_ddl_noop by assumption. simpl. auto.
Qed.

(** Running a script of IF NOT EXISTS statements a second time changes
    nothing and succeeds again. *)
Lemma exec_script_idempotent (script : list ddl_stmt) (d d' : database) :
  Forall (fun s => if_not_exists s = true) script ->
  exec_script script d = (SQLITE_OK, d') ->
  exec_script script d' = (SQLITE_OK, d').
Proof.
  intros Hine Hrun. apply exec_script_noop; [exact Hine|].
  now apply exec_script_ok in Hrun as [Hall _].
Qed.

Lemma ddl_if_not_exists : Forall (fun s => if_not_exists s = true) ddl.
Proof. repeat constructor. Qed.

End SchemaFacts.

Section CountFacts.

Import Sqlite.

Lemma count_zero {A} (p : A -> bool) (l : list A) :
  existsb p l = false -> length (List.filter p l) = 0%nat.
Proof.
  induction l as [|x l IH]; [reflexivity|]. simpl.
  destruct (p x); [discriminate|]. exact IH.
Qed.

Lemma count_pos {A} (p : A -> bool) (l : list A) :
  existsb p l = true -> (1 <= length (List.filter p l))%nat.
Proof.
  induction l as [|x l IH]; [discriminate|]. simpl.
  destruct (p x); simpl; [lia|]. exact IH.
Qed.

Lemma count_snoc {A} (p : A -> bool) (l : list A) (x : A) :
  length (List.filter p (l ++ [x])) =
    (length (List.filter p l) + if p x then 1 else 0)%nat.
Proof.
  rewrite List.filter_app, length_app. simpl. now destruct (p x).
Qed.

(** What one successful statement does to the number of tables and of
    indexes of a given name. *)
Lemma exec_ddl_counts (s : ddl_stmt) (d d' : database) (m : string) :
  exec_ddl s d = (SQLITE_OK, d') ->
  count_tables m d' =
    match s with
    | CreateTable _ n _ =>
        if String.eqb n m then Nat.max 1 (count_tables m d)
        else count_tables m d
    | CreateIndex _ _ _ _ => count_tables m d
    end /\
  count_indexes m d' =
    match s with
    | CreateIndex _ n _ _ =>
        if String.eqb n m then Nat.max 1 (count_indexes m d)
        else count_indexes m d
    | CreateTable _ _ _ => count_indexes m d
    end.
Proof.
  unfold count_tables, count_indexes.
  destruct s as [ine name cols|ine name tbl col]; simpl.
  - destruct (existsb (is_table name) (db_schema d)) eqn:Et.
    + destruct ine; intros [= <-]. split; [|reflexivity].
      destruct (String.eqb_spec name m) as [->|]; [|reflexivity].
      apply count_pos in Et. lia.
    + destruct (existsb (is_index name) (db_schema d)); intros [= <-]; simpl.
      rewrite !count_snoc. simpl. split; [|lia].
      destruct (String.eqb_spec name m) as [->|]; [|lia].
      apply count_zero in Et. lia.
  - destruct (table_columns tbl d) as [cols|]; [|discriminate].
    destruct (existsb (is_index name) (db_schema d)) eqn:Ei.
    + destruct ine; intros [= <-]. split; [reflexivity|].
      destruct (String.eqb_spec name m) as [->|]; [|reflexivity].
      apply count_pos in Ei. lia.
    + destruct (existsb (is_table name) (db_schema d)); [discriminate|].
      destruct (has_column col cols); intros [= <-]; simpl.
      rewrite !count_snoc. simpl. split; [lia|].
      destruct (String.eqb_spec name m) as [->|]; [|lia].
      apply count_zero in Ei. lia.
Qed.

(** After the program's schema script, a database that had no duplicate
    has exactly one table and one of each index. *)
Lemma ddl_one_of_each (d d' : database) :
  exec_script ddl d = (SQLITE_OK, d') ->
  no_duplicates d -> one_of_each d'.
Proof.
  unfold ddl. cbn [exec_script].
  destruct (exec_ddl _ d) as [r1 d1] eqn:E1.
  destruct (Z.eqb_spec r1 SQLITE_OK) as [->|]; [|intros [= ? ?]; congruence].
  destruct (exec_ddl _ d1) as [r2 d2] eqn:E2.
  destruct (Z.eqb_spec r2 SQLITE_OK) as [->|]; [|intros [= ? ?]; congruence].
  destruct (exec_ddl _ d2) as [r3 d3] eqn:E3.
  destruct (Z.eqb_spec r3 SQLITE_OK) as [->|]; [|intros [= ? ?]; congruence].
  intros [= <-] (H1 & H2 & H3).
  pose proof (exec_ddl_counts _ _ _ "messages" E1) as [T1 _].
  pose proof (exec_ddl_counts _ _ _ "messages" E2) as [T2 _].
  pose proof (exec_ddl_counts _ _ _ "messages" E3) as [T3 _].
  pose proof (exec_ddl_counts _ _ _ "idx_messages_ts" E1) as [_ A1].
  pose proof (exec_ddl_counts _ _ _ "idx_messages_ts" E2) as [_ A2].
  pose proof (exec_ddl_counts _ _ _ "idx_messages_ts" E3) as [_ A3].
  pose proof (exec_ddl_counts _ _ _ "idx_messages_topic" E1) as [_ B1].
  pose proof (exec_ddl_counts _ _ _ "idx_messages_topic" E2) as [_ B2].
  pose proof (exec_ddl_counts _ _ _ "idx_messages_topic" E3) as [_ B3].
  cbn [String.eqb Ascii.eqb Bool.eqb] in *. unfold one_of_each. lia.
Qed.

End CountFacts.

Section InitFacts.

Local Arguments Sqlite.exec_script : simpl never.
Local Arguments Sqlite.can_prepare_insert : simpl never.
Local Arguments ddl_sql : simpl never.

Lemma bind_some {A B} (m : M A) (k : A -> M B) (e : Env) (w w' : World)
    (a : A) :
  m e w = Some (a, w') -> bind m k e w = k a e w'.
Proof. intros H. unfold bind. now rewrite H. Qed.

Lemma emit_run (ev : event) (e : Env) (w : World) :
  emit ev e w = Some (tt, set_trace (trace w ++ [ev]) w).
Proof. reflexivity. Qed.

Lemma sqlite3_open_run (path : string) (e : Env) (w : World) :
  sqlite3_open path e w =
    Some (env_open_rc e,
          set_db (Some path)
            (set_disk
               (if env_open_rc e =? Sqlite.SQLITE_OK
                then <[path := database_at path w]> (disk w)
                else disk w)
               (set_trace (trace w ++ [EvSqlOpen path]) w))).
Proof.
  unfold sqlite3_open, emit, modify, bind, ask, ret, database_at. simpl.
  destruct (env_open_rc e =? Sqlite.SQLITE_OK); simpl; [|reflexivity].
  destruct (disk w !! path) as [d|] eqn:Hd; simpl; [|reflexivity].
  f_equal. f_equal. apply world_eq; try reflexivity.
  simpl. symmetry. now apply insert_id.
Qed.

Lemma sqlite3_exec_run (sql : string) (script : list Sqlite.ddl_stmt)
    (e : Env) (w : World) (path : string) (d : Sqlite.database) :
  g_db w = Some path ->
  disk w !! path = Some d ->
  sqlite3_exec sql script e w =
    Some (fst (Sqlite.exec_script script d),
          set_disk (<[path := snd (Sqlite.exec_script script d)]> (disk w))
            (set_trace (trace w ++ [EvSqlExec sql]) w)).
Proof.
  intros Hdb Hd.
  unfold sqlite3_exec, emit, modify, bind, get, ret. simpl.
  rewrite Hdb, Hd. now destruct (Sqlite.exec_script script d).
Qed.

Lemma sqlite3_prepare_insert_run (e : Env) (w : World) (path : string)
    (d : Sqlite.database) :
  g_db w = Some path ->
  disk w !! path = Some d ->
  sqlite3_prepare_insert e w =
    Some (if Sqlite.can_prepare_insert d then Sqlite.SQLITE_OK
          else Sqlite.SQLITE_ERROR,
          set_stmt_insert
            (if Sqlite.can_prepare_insert d
             then Some (Sqlite.mkStmt path Sqlite.unbound false)
             else None)
            (set_trace (trace w ++ [EvSqlPrepare]) w)).
Proof.
  intros Hdb Hd.
  unfold sqlite3_prepare_insert, emit, modify, bind, get, ret. simpl.
  rewrite Hdb, Hd. now destruct (Sqlite.can_prepare_insert d).
Qed.

(** [db_init], outcome by outcome.  The database behind the path is run
    through the schema script; the result is 0 exactly when the open, the
    script and the prepare all succeed. *)
Lemma db_init_cases (path : string) (e : Env) (w : World) :
  let r := Sqlite.exec_script ddl (database_at path w) in
  exists rc w1,
    db_init path e w = Some (rc, w1) /\
    (rc = 0 <->
     env_open_rc e = Sqlite.SQLITE_OK /\ fst r = Sqlite.SQLITE_OK /\
     Sqlite.can_prepare_insert (snd r) = true) /\
    (env_open_rc e = Sqlite.SQLITE_OK ->
     disk w1 = <[path := snd r]> (disk w)) /\
    (rc = 0 ->
     g_stmt_insert w1 = Some (Sqlite.mkStmt path Sqlite.unbound false) /\
     g_db w1 = Some path) /\
    cfg w1 = cfg w /\
    g_last_script_run w1 = g_last_script_run w /\
    exists t, trace w1 = trace w ++ t.
Proof.
  intros r. unfold db_init.
  erewrite bind_some by apply sqlite3_open_run.
  destruct (Z.eqb_spec (env_open_rc e) Sqlite.SQLITE_OK) as [Ho|Ho];
    cbn [negb].
  2:{ unfold bind, ask, fprintf_stderr, emit, modify, ret. simpl.
      eexists _, _. split; [reflexivity|]. simpl.
      split; [split; [discriminate|intros [? _]; contradiction]|].
      split; [intros; contradiction|].
      split; [discriminate|].
      repeat split. rewrite <- app_assoc. eauto. }
  unfold sqlite3_exec_pragma.
  do 3 (erewrite bind_some by apply emit_run).
  erewrite bind_some.
  2:{ apply sqlite3_exec_run with (path := path) (d := database_at path w);
        [reflexivity|simpl; apply lookup_insert_eq]. }
  fold r. destruct r as [rx d1]. cbn [fst snd].
  destruct (Z.eqb_spec rx Sqlite.SQLITE_OK) as [->|Hr]; cbn [negb].
  2:{ unfold bind, ask, fprintf_stderr, emit, modify, ret. simpl.
      eexists _, _. split; [reflexivity|]. simpl.
      split; [split; [discriminate|intros (_ & ? & _); contradiction]|].
      split; [intros _; apply insert_insert_eq|].
      split; [discriminate|].
      repeat split. rewrite <- !app_assoc. eauto. }
  erewrite bind_some.
  2:{ apply sqlite3_prepare_insert_run with (path := path) (d := d1);
        [reflexivity|simpl; apply lookup_insert_eq]. }
  destruct (Sqlite.can_prepare_insert d1) eqn:Hp; simpl.
  - eexists _, _. split; [reflexivity|]. simpl.
    split; [tauto|].
    split; [intros _; apply insert_insert_eq|].
    repeat split. rewrite <- !app_assoc. eauto.
  - unfold bind, ask, fprintf_stderr, emit, modify, ret. simpl.
    eexists _, _. split; [reflexivity|]. simpl.
    split; [split; [discriminate|intros (_ & _ & ?); discriminate]|].
    split; [intros _; apply insert_insert_eq|].
    split; [discriminate|].
    repeat split. rewrite <- !app_assoc. eauto.
Qed.

End InitFacts.

Section InitTwice.

Local Arguments Sqlite.exec_script : simpl never.

(** A second initialisation over the files a successful first one left. *)
Lemma db_init_again (path : string) (e1 e2 : Env) (w w1 w1' : World) :
  db_init path e1 w = Some (0, w1) ->
  env_open_rc e2 = Sqlite.SQLITE_OK ->
  disk w1' = disk w1 ->
  exists w2 d,
    db_init path e2 w1' = Some (0, w2) /\
    Sqlite.exec_script ddl (database_at path w) = (Sqlite.SQLITE_OK, d) /\
    disk w1 !! path = Some d /\
    disk w2 = disk w1 /\
    g_stmt_insert w2 = Some (Sqlite.mkStmt path Sqlite.unbound false).
Proof.
  intros Hfirst Ho2 Hdisk.
  destruct (db_init_cases path e1 w) as (rc & wa & Hrun & Hiff & Hd & _).
  rewrite Hfirst in Hrun. injection Hrun as <- <-.
  destruct (proj1 Hiff eq_refl) as (Ho1 & Hr & Hp).
  specialize (Hd Ho1).
  destruct (Sqlite.exec_script ddl (database_at path w)) as [r d] eqn:Hex.
  simpl in Hr, Hp, Hd. subst r.
  assert (Hat : disk w1 !! path = Some d)
    by (rewrite Hd; apply lookup_insert_eq).
  assert (Hat' : database_at path w1' = d)
    by (unfold database_at; now rewrite Hdisk, Hat).
  pose proof (exec_script_idempotent ddl _ _ ddl_if_not_exists Hex) as Hidem.
  destruct (db_init_cases path e2 w1') as (rc2 & w2 & Hrun2 & Hiff2 & Hd2 & Hs2 & _).
  rewrite Hat', Hidem in Hiff2, Hd2. simpl in Hiff2, Hd2.
  assert (rc2 = 0) as -> by (apply Hiff2; auto).
  exists w2, d. split; [exact Hrun2|]. split; [reflexivity|].
  split; [exact Hat|].
  split; [|now apply Hs2].
  rewrite (Hd2 Ho2), Hdisk. now apply insert_id.
Qed.

(** The first initialisation on a path with no file behind it. *)
Lemma db_init_fresh (path : string) (e : Env) (w : World) :
  env_open_rc e = Sqlite.SQLITE_OK ->
  disk w !! path = None ->
  exists w1, db_init path e w = Some (0, w1).
Proof.
  intros Ho Hnone.
  destruct (db_init_cases path e w) as (rc & w1 & Hrun & Hiff & _).
  assert (Hat : database_at path w = Sqlite.empty_database)
    by (unfold database_at; now rewrite Hnone).
  rewrite Hat in Hiff.
  assert (rc = 0) as ->.
  { apply Hiff. split; [exact Ho|]. split; vm_compute; reflexivity. }
  eauto.
Qed.

End InitTwice.

(** C8.  On a path with no database file behind it, [db_init] succeeds,
    and run again over the files it left (by the same process or by a
    later one) it succeeds again and leaves them as they were, with exactly
    one [messages] table and exactly one of each of the two indexes.  More
    generally, whenever a first run succeeds on the database it finds, a
    second run succeeds and changes nothing; no row is lost, and a database
    that had no duplicate has exactly one of each afterwards. *)
Theorem db_init_is_idempotent :
  (forall (path : string) (e1 e2 : Env) (w : World),
     env_open_rc e1 = Sqlite.SQLITE_OK ->
     env_open_rc e2 = Sqlite.SQLITE_OK ->
     disk w !! path = None ->
     exists w1 d,
       db_init path e1 w = Some (0, w1) /\
       disk w1 !! path = Some d /\
       one_of_each d /\
       forall w1', disk w1' = disk w1 ->
         exists w2,
           db_init path e2 w1' = Some (0, w2) /\ disk w2 = disk w1) /\
  (forall (path : string) (e1 e2 : Env) (w w1 w1' : World),
     db_init path e1 w = Some (0, w1) ->
     env_open_rc e2 = Sqlite.SQLITE_OK ->
     disk w1' = disk w1 ->
     exists w2 d,
       db_init path e2 w1' = Some (0, w2) /\
       disk w1 !! path = Some d /\
       disk w2 = disk w1 /\
       Sqlite.db_messages d = Sqlite.db_messages (database_at path w) /\
       (no_duplicates (database_at path w) -> one_of_each d)).
Proof.
  assert (General : forall (path : string) (e1 e2 : Env) (w w1 w1' : World),
     db_init path e1 w = Some (0, w1) ->
     env_open_rc e2 = Sqlite.SQLITE_OK ->
     disk w1' = disk w1 ->
     exists w2 d,
       db_init path e2 w1' = Some (0, w2) /\
       disk w1 !! path = Some d /\
       disk w2 = disk w1 /\
       Sqlite.db_messages d = Sqlite.db_messages (database_at path w) /\
       (no_duplicates (database_at path w) -> one_of_each d)).
  { intros path e1 e2 w w1 w1' Hfirst Ho2 Hdisk.
    destruct (db_init_again path e1 e2 w w1 w1' Hfirst Ho2 Hdisk)
      as (w2 & d & Hrun2 & Hex & Hat & Hsame & _).
    exists w2, d. repeat (split; [assumption|]).
    split; [now apply exec_script_ok in Hex as (_ & _ & Hm & _)|].
    now apply ddl_one_of_each. }
  split; [|exact General].
  intros path e1 e2 w Ho1 Ho2 Hnone.
  destruct (db_init_fresh path e1 w Ho1 Hnone) as [w1 Hfirst].
  destruct (General path e1 e2 w w1 w1 Hfirst Ho2 eq_refl)
    as (w2 & d & _ & Hat & _ & _ & Hone).
  exists w1, d. split; [exact Hfirst|]. split; [exact Hat|].
  split.
  { apply Hone. unfold database_at. rewrite Hnone.
    repeat split; vm_compute; lia. }
  intros w1' Hdisk.
  destruct (General path e1 e2 w w1 w1' Hfirst Ho2 Hdisk)
    as (w2' & d' & Hrun2 & _ & Hsame & _).
  eauto.
Qed.

Lemma db_init_is_idempotent_witness :
  exists w1 d,
    db_init "./mqtt_messages.db" (quiet_env 1700000000) (initial_world ∅)
      = Some (0, w1) /\
    disk w1 !! "./mqtt_messages.db" = Some d /\
    one_of_each d /\
    exists w2,
      db_init "./mqtt_messages.db" (quiet_env 1700000100)
        (initial_world (disk w1)) = Some (0, w2) /\
      disk w2 = disk w1.
Proof.
  destruct db_init_is_idempotent as [Hfresh _].
  destruct (Hfresh "./mqtt_messages.db" (quiet_env 1700000000)
              (quiet_env 1700000100) (initial_world ∅))
    as (w1 & d & Hrun & Hat & Hone & Hagain);
    [reflexivity|reflexivity|reflexivity|].
  exists w1, d. split; [exact Hrun|]. split; [exact Hat|].
  split; [exact Hone|]. apply Hagain. reflexivity.
Defined.

(** Two starts of the process on a machine with no database file. *)
Example db_init_twice_from_scratch :
  let w1 := world_after (db_init "./mqtt_messages.db") (quiet_env 1700000000)
              (initial_world ∅) in
  let w2 := world_after (db_init "./mqtt_messages.db") (quiet_env 1700000100)
              (initial_world (disk w1)) in
  disk w2 = disk w1 /\
  Sqlite.db_schema <$> (disk w2 !! "./mqtt_messages.db") =
    Some [Sqlite.Table "messages"
            ["id"; "ts"; "topic"; "payload"; "qos"; "retain"];
          Sqlite.Index "idx_messages_ts" "messages" "ts";
          Sqlite.Index "idx_messages_topic" "messages" "topic"].
Proof. vm_compute. split; reflexivity. Qed.

(** Without IF NOT EXISTS the second run of a statement is an error. *)
Example create_table_twice_without_guard :
  fst (Sqlite.exec_script
         [Sqlite.CreateTable false "messages" ["id"];
          Sqlite.CreateTable false "messages" ["id"]]
         Sqlite.empty_database) = Sqlite.SQLITE_ERROR.
Proof. reflexivity. Qed.

(** * Further properties of the code *)

(** ** The configuration *)

Section ConfigStrings.

Import CStr.


Lemma prefix_whole (n : nat) (s : string) :
  (String.length s <= n)%nat -> prefix n s = s.
Proof.
  revert s. induction n as [|n IH]; intros [|c s]; simpl; intros H;
    try reflexivity; [lia|].
  rewrite IH by lia. reflexivity.
Qed.



Lemma snprintf_s_whole (size : nat) (s : string) :
  (String.length s < size)%nat -> snprintf_s size s = s.
Proof. intros H. unfold snprintf_s. apply prefix_whole. lia. Qed.

Lemma env_or_default_no_override (e : Env) (name defval : string) :
  no_override e name -> env_or_default (env_vars e !! name) defval = defval.
Proof. intros [-> | ->]; reflexivity. Qed.

Lemma env_or_default_int_no_override (LONG_MAX : Z) (e : Env) (name : string)
    (defval : Z) :
  no_override e name ->
  env_or_default_int LONG_MAX (env_vars e !! name) defval = defval.
Proof. intros [-> | ->]; reflexivity. Qed.

Lemma append_length (a b : string) :
  String.length (a +:+ b) = (String.length a + String.length b)%nat.
Proof.
  induction a as [|c a IH]; [reflexivity|].
  rewrite append_cons. simpl. now rewrite IH.
Qed.

End ConfigStrings.


(** X2.  With none of the seven variables set (or all set to nothing),
    [main] leaves the configuration exactly as the initialisers of the
    globals have it: the defaults coded in [main] and the initial values
    agree. *)
Theorem load_config_defaults (LONG_MAX : Z) (e : Env) (w : World) :
  no_override e "MQTT_BROKER" ->
  no_override e "MQTT_PORT" ->
  no_override e "MQTT_TOPIC" ->
  no_override e "MQTT_DB_PATH" ->
  no_override e "NETWORK_FIX_SCRIPT" ->
  no_override e "RECONNECT_MIN_S" ->
  no_override e "RECONNECT_MAX_S" ->
  load_config LONG_MAX e w = Some (tt, set_cfg initial_config w).
Proof.
  intros H1 H2 H3 H4 H5 H6 H7. rewrite load_config_world.
  rewrite !env_or_default_no_override by assumption.
  rewrite !env_or_default_int_no_override by assumption.
  reflexivity.
Qed.

Lemma load_config_defaults_witness :
  load_config (2 ^ 63 - 1) (quiet_env 0) (initial_world ∅)
  = Some (tt, initial_world ∅).
Proof.
  rewrite (load_config_defaults (2 ^ 63 - 1) (quiet_env 0) (initial_world ∅));
    try (left; reflexivity).
  reflexivity.
Defined.

(** X3.  When the repair command fits its array, as it does in the initial
    configuration and after [main] has read the environment, the 512-byte
    buffer of [run_network_repair_script] holds the whole command line:
    what a call that is not throttled hands to [system] is the configured
    command between [sh -c '] and ['], never a truncated one. *)
Theorem repair_command_is_whole (e : Env) (w : World) :
  (String.length (g_netfix_script (cfg w)) <= 255)%nat ->
  SCRIPT_MIN_INTERVAL_SEC <= env_time e - g_last_script_run w ->
  system_calls (trace (after_repair e w)) =
    system_calls (trace w) ++ ["sh -c '" +:+ g_netfix_script (cfg w) +:+ "'"].
Proof.
  intros Hlen Hrun.
  destruct (run_network_repair_script_runs_calls e w Hrun) as (Hc & _).
  rewrite Hc. unfold repair_cmd.
  rewrite snprintf_s_whole; [reflexivity|].
  rewrite !append_length. simpl. lia.
Qed.

Lemma repair_command_is_whole_witness :
  system_calls (trace (after_repair (quiet_env 1000) (initial_world ∅))) =
    ["sh -c './handle_network_error.sh'"].
Proof.
  apply (repair_command_is_whole (quiet_env 1000) (initial_world ∅)).
  - apply Nat.leb_le. reflexivity.
  - apply Z.leb_le. reflexivity.
Defined.

(** ** The outcome of the repair trigger *)

Lemma WEXITSTATUS_range (status : Z) : 0 <= WEXITSTATUS status <= 255.
Proof.
  unfold WEXITSTATUS.
  replace (Z.land (Z.shiftr status 8) 255) with (Z.shiftr status 8 mod 256)
    by (symmetry; apply (Z.land_ones (Z.shiftr status 8) 8); lia).
  pose proof (Z.mod_pos_bound (Z.shiftr status 8) 256 ltac:(lia)). lia.
Qed.

(** X4.  [run_network_repair_script] answers 0 or -1, and -1 exactly when
    the call was let through and [system] could not launch the command.
    A failed launch has still recorded the time, so that it throttles the
    calls of the next 20 seconds like a command that ran; when the command
    did run, the exit code written to the log lies between 0 and 255. *)
Theorem run_network_repair_script_result (e e2 : Env) (w : World) :
  exists rc,
    run_network_repair_script e w = Some (rc, after_repair e w) /\
    (rc = 0 \/ rc = -1) /\
    (rc = -1 <->
     20 <= env_time e - g_last_script_run w /\
     env_system e (repair_cmd w) = -1) /\
    (rc = -1 ->
     g_last_script_run (after_repair e w) = env_time e /\
     (env_time e2 - env_time e < 20 ->
      repair_ran e2 (after_repair e w) = false)) /\
    (20 <= env_time e - g_last_script_run w ->
     env_system e (repair_cmd w) <> -1 ->
     exists code,
       0 <= code <= 255 /\
       last (trace (after_repair e w)) =
         Some (EvLog "INFO"
                 (CStr.snprintf_s 128
                    ("Network repair script exit code: " +:+ fmt_d code)))).
Proof.
  destruct (Z.lt_ge_cases (env_time e - g_last_script_run w)
              SCRIPT_MIN_INTERVAL_SEC) as [Hlt|Hge].
  - exists 0. unfold after_repair.
    rewrite run_network_repair_script_throttled by exact Hlt.
    unfold SCRIPT_MIN_INTERVAL_SEC in Hlt.
    split; [reflexivity|]. split; [auto|].
    split; [split; [discriminate|lia]|].
    split; [discriminate|lia].
  - destruct (run_network_repair_script_runs e w Hge)
      as (rc & w' & Hrun & Hrc & Hlast & _ & _ & _ & _ & Htr).
    assert (Hafter : after_repair e w = w')
      by (unfold after_repair; now rewrite Hrun).
    exists rc. rewrite Hafter. split; [exact Hrun|].
    unfold SCRIPT_MIN_INTERVAL_SEC in Hge. clear Hrun Hafter.
    subst rc. revert Htr.
    destruct (Z.eqb_spec (env_system e (repair_cmd w)) (-1)) as [Hs|Hs];
      intros Htr.
    + split; [auto|]. split; [tauto|].
      split; [|intros _ Hne; contradiction].
      intros _. split; [exact Hlast|]. intros Hclose.
      destruct (repair_ran e2 w') eqn:R; [|reflexivity].
      apply repair_ran_iff in R. unfold SCRIPT_MIN_INTERVAL_SEC in R. lia.
    + split; [auto|]. split; [split; [discriminate|tauto]|].
      split; [discriminate|]. intros _ _.
      exists (WEXITSTATUS (env_system e (repair_cmd w))).
      split; [apply WEXITSTATUS_range|].
      rewrite Htr.
      change [?a; ?b; ?c] with ([a; b] ++ [c]).
      rewrite app_assoc. apply last_snoc.
Qed.

(** ** Storage initialisation, outcome by outcome *)

(** No statement of a schema script touches the rows or the counter. *)
Lemma exec_script_keeps_rows (script : list Sqlite.ddl_stmt)
    (d : Sqlite.database) :
  Sqlite.db_messages (snd (Sqlite.exec_script script d)) = Sqlite.db_messages d /\
  Sqlite.db_sequence (snd (Sqlite.exec_script script d)) = Sqlite.db_sequence d.
Proof.
  revert d. induction script as [|s rest IH]; intros d; [auto|].
  simpl.
  assert (Hone :
    Sqlite.db_messages (snd (Sqlite.exec_ddl s d)) = Sqlite.db_messages d /\
    Sqlite.db_sequence (snd (Sqlite.exec_ddl s d)) = Sqlite.db_sequence d).
  { destruct s as [ine name cols|ine name tbl col]; simpl.
    - destruct (existsb _ _); [destruct ine; auto|].
      destruct (existsb _ _); auto.
    - destruct (Sqlite.table_columns tbl d); [|auto].
      destruct (existsb _ _); [destruct ine; auto|].
      destruct (existsb _ _); [auto|].
      destruct (Sqlite.has_column col l); auto. }
  destruct (Sqlite.exec_ddl s d) as [rc d1]. simpl in Hone.
  destruct (rc =? Sqlite.SQLITE_OK); [|exact Hone].
  destruct (IH d1) as [H1 H2]. destruct Hone as [H3 H4].
  split; congruence.
Qed.

Section InitOutcomes.

Local Arguments Sqlite.exec_script : simpl never.
Local Arguments Sqlite.can_prepare_insert : simpl never.
Local Arguments ddl_sql : simpl never.

(** Every way [db_init] can end. *)
Lemma db_init_outcomes (path : string) (e : Env) (w : World) :
  let r := Sqlite.exec_script ddl (database_at path w) in
  exists rc w1,
    db_init path e w = Some (rc, w1) /\
    (rc = 0 \/ rc = -1) /\
    (rc = 0 ->
     env_open_rc e = Sqlite.SQLITE_OK /\ fst r = Sqlite.SQLITE_OK /\
     Sqlite.can_prepare_insert (snd r) = true /\
     g_stmt_insert w1 = Some (Sqlite.mkStmt path Sqlite.unbound false)) /\
    (rc = -1 ->
     g_stmt_insert w1 = None \/ g_stmt_insert w1 = g_stmt_insert w) /\
    (env_open_rc e <> Sqlite.SQLITE_OK -> rc = -1 /\ disk w1 = disk w) /\
    (env_open_rc e = Sqlite.SQLITE_OK ->
     disk w1 = <[path := snd r]> (disk w)) /\
    g_db w1 = Some path /\
    g_mosq w1 = g_mosq w /\
    g_should_stop w1 = g_should_stop w /\
    mosq_calls (trace w1) = mosq_calls (trace w) /\
    system_calls (trace w1) = system_calls (trace w).
Proof.
  intros r. unfold db_init.
  erewrite bind_some by apply sqlite3_open_run.
  destruct (Z.eqb_spec (env_open_rc e) Sqlite.SQLITE_OK) as [Ho|Ho];
    cbn [negb].
  2:{ unfold bind, ask, fprintf_stderr, emit, modify, ret. simpl.
      eexists _, _. split; [reflexivity|]. simpl.
      split; [auto|]. split; [discriminate|]. split; [auto|].
      split; [auto|]. split; [intros; contradiction|].
      split; [reflexivity|].
      unfold mosq_calls.
      rewrite !List.filter_app, !system_calls_app. simpl.
      rewrite !app_nil_r. auto. }
  unfold sqlite3_exec_pragma.
  do 3 (erewrite bind_some by apply emit_run).
  erewrite bind_some.
  2:{ apply sqlite3_exec_run with (path := path) (d := database_at path w);
        [reflexivity|simpl; apply lookup_insert_eq]. }
  fold r. destruct r as [rx d1]. cbn [fst snd].
  destruct (Z.eqb_spec rx Sqlite.SQLITE_OK) as [->|Hr]; cbn [negb].
  2:{ unfold bind, ask, fprintf_stderr, emit, modify, ret. simpl.
      eexists _, _. split; [reflexivity|]. simpl.
      split; [auto|]. split; [discriminate|]. split; [auto|].
      split; [intros; contradiction|].
      split; [intros _; apply insert_insert_eq|].
      split; [reflexivity|].
      unfold mosq_calls.
      rewrite !List.filter_app, !system_calls_app. simpl.
      rewrite !app_nil_r. auto. }
  erewrite bind_some.
  2:{ apply sqlite3_prepare_insert_run with (path := path) (d := d1);
        [reflexivity|simpl; apply lookup_insert_eq]. }
  destruct (Sqlite.can_prepare_insert d1) eqn:Hp; simpl.
  - eexists _, _. split; [reflexivity|]. simpl.
    split; [auto|]. split; [auto|]. split; [discriminate|].
    split; [intros; contradiction|].
    split; [intros _; apply insert_insert_eq|].
    split; [reflexivity|].
    unfold mosq_calls.
    rewrite !List.filter_app, !system_calls_app. simpl.
    rewrite !app_nil_r. auto.
  - unfold bind, ask, fprintf_stderr, emit, modify, ret. simpl.
    eexists _, _. split; [reflexivity|]. simpl.
    split; [auto|]. split; [discriminate|]. split; [auto|].
    split; [intros; contradiction|].
    split; [intros _; apply insert_insert_eq|].
    split; [reflexivity|].
    unfold mosq_calls.
    rewrite !List.filter_app, !system_calls_app. simpl.
    rewrite !app_nil_r. auto.
Qed.



(** The rows and the other files, after [db_init]. *)
Lemma db_init_rows (path : string) (e : Env) (w w1 : World) (rc : Z) :
  db_init path e w = Some (rc, w1) ->
  Sqlite.db_messages (database_at path w1) =
    Sqlite.db_messages (database_at path w) /\
  Sqlite.db_sequence (database_at path w1) =
    Sqlite.db_sequence (database_at path w) /\
  forall p, p <> path -> disk w1 !! p = disk w !! p.
Proof.
  intros Hrun.
  destruct (db_init_outcomes path e w)
    as (rc' & w1' & Hrun' & _ & _ & _ & Hbad & Hgood & _).
  rewrite Hrun in Hrun'. injection Hrun' as <- <-.
  destruct (Z.eq_dec (env_open_rc e) Sqlite.SQLITE_OK) as [Ho|Ho].
  - specialize (Hgood Ho).
    destruct (exec_script_keeps_rows ddl (database_at path w)) as [Hrows Hseq].
    unfold database_at at 1 3. rewrite Hgood, lookup_insert_eq.
    cbn [default]. split; [exact Hrows|]. split; [exact Hseq|].
    intros p Hp. now apply lookup_insert_ne.
  - destruct (Hbad Ho) as [_ Hdisk]. unfold database_at.
    rewrite Hdisk. auto.
Qed.

(** X6.  Whatever its outcome, [db_init] leaves the rows of the database
    at the path and its counter of ids as they were, and touches no other
    file. *)
Theorem db_init_keeps_rows (path : string) (e : Env) (w : World) :
  exists rc w1,
    db_init path e w = Some (rc, w1) /\
    Sqlite.db_messages (database_at path w1) =
      Sqlite.db_messages (database_at path w) /\
    Sqlite.db_sequence (database_at path w1) =
      Sqlite.db_sequence (database_at path w) /\
    forall p, p <> path -> disk w1 !! p = disk w !! p.
Proof.
  destruct (db_init_outcomes path e w) as (rc & w1 & Hrun & _).
  exists rc, w1. split; [exact Hrun|]. now apply (db_init_rows path e w w1 rc).
Qed.

End InitOutcomes.

(** ** Closing the store *)

Lemma db_close_run (e : Env) (w : World) :
  db_close e w =
    Some (tt,
          set_db None
            (set_stmt_insert None (set_trace (trace w ++ close_calls w) w))).
Proof.
  unfold db_close, close_calls, bind, get, emit, modify, ret.
  destruct (g_stmt_insert w) eqn:Hs, (g_db w) eqn:Hd; simpl;
    rewrite ?Hd; simpl;
    f_equal; f_equal; apply world_eq; simpl;
    rewrite <- ?app_assoc, ?app_nil_r; auto.
Qed.

(** X7.  [db_close] leaves both the statement and the connection NULL and
    the files as they are; it finalizes and closes only what was there.
    Called again it does nothing, and an insert after it does nothing. *)
Theorem db_close_releases (e e2 : Env) (w : World) :
  exists w',
    db_close e w = Some (tt, w') /\
    g_stmt_insert w' = None /\
    g_db w' = None /\
    disk w' = disk w /\
    trace w' = trace w ++ close_calls w /\
    (g_stmt_insert w = None -> g_db w = None -> w' = w) /\
    db_close e2 w' = Some (tt, w') /\
    forall (topic : option string) (payload : option (list byte))
           (payloadlen qos retain : Z),
      db_insert_message topic payload payloadlen qos retain e2 w' =
        Some (tt, w').
Proof.
  eexists. split; [apply db_close_run|]. simpl.
  repeat (split; [reflexivity|]).
  split.
  { intros Hs Hd. apply world_eq; simpl; auto.
    unfold close_calls. rewrite Hs, Hd. simpl. apply app_nil_r. }
  split.
  { rewrite db_close_run. f_equal. f_equal. apply world_eq; simpl; auto.
    unfold close_calls. simpl. apply app_nil_r. }
  intros. now apply db_insert_message_unprepared.
Qed.

(** ** What the loop does to the store *)

Section Serving.

Local Arguments run_network_repair_script : simpl never.
Local Arguments db_insert_message : simpl never.
Local Arguments fmt_d : simpl never.
Local Arguments CStr.snprintf_s : simpl never.
Local Arguments Sqlite.step : simpl never.

Lemma same_store_refl (w : World) : same_store w w.
Proof. repeat split. Qed.

(** The trigger works on its time stamp and on the trace alone. *)
Lemma after_repair_frame (e : Env) (w : World) :
  same_store w (after_repair e w) /\
  g_should_stop (after_repair e w) = g_should_stop w.
Proof.
  unfold after_repair.
  destruct (Z.lt_ge_cases (env_time e - g_last_script_run w)
              SCRIPT_MIN_INTERVAL_SEC) as [Hlt|Hge].
  - rewrite run_network_repair_script_throttled by exact Hlt.
    repeat split.
  - unfold run_network_repair_script, bind, time, ask, get. simpl.
    destruct (Z.ltb_spec (env_time e - g_last_script_run w)
                SCRIPT_MIN_INTERVAL_SEC); [lia|].
    unfold system, perror, emit, modify, bind, ask, fprintf_stderr, log_ts,
      ret.
    simpl.
    match goal with
    | |- context [if ?c then _ else _] => destruct c
    end; repeat split.
Qed.

Lemma on_signal_run (sig : Z) (e : Env) (w : World) :
  on_signal sig e w =
    Some (tt,
          set_trace
            (trace w ++
             match g_mosq w with Some _ => [EvMosqDisconnect] | None => [] end)
            (set_should_stop 1 w)).
Proof.
  unfold on_signal, mosquitto_disconnect, bind, get, emit, modify, ret.
  simpl. destruct (g_mosq w) eqn:Hm; simpl;
    f_equal; f_equal; apply world_eq; simpl; rewrite ?app_nil_r; auto.
Qed.

(** Reports other than messages leave the store alone. *)
Lemma dispatch_frame (ev : Mosq.net_event) (e : Env) (w : World) :
  (forall msg, ev <> Mosq.Publish msg) ->
  exists w', dispatch ev e w = Some (tt, w') /\ same_store w w'.
Proof.
  intros Hev. unfold dispatch, bind, get.
  destruct ev as [rc|rc|msg|sig].
  - destruct (g_mosq w) as [s|]; [|eexists; split; [reflexivity|repeat split]].
    destruct (Mosq.on_connect s) as [[]|];
      try (eexists; split; [reflexivity|repeat split]).
    rewrite handle_connect_run. eexists; split; [reflexivity|repeat split].
  - destruct (g_mosq w) as [s|]; [|eexists; split; [reflexivity|repeat split]].
    destruct (Mosq.on_disconnect s) as [[]|];
      try (eexists; split; [reflexivity|repeat split]).
    rewrite handle_disconnect_run. eexists; split; [reflexivity|].
    match goal with
    | |- same_store _ (after_repair e ?W) =>
        destruct (after_repair_frame e W) as [(H1 & H2 & H3 & H4 & H5) _]
    end.
    repeat split; assumption.
  - now destruct (Hev msg).
  - assert (Hsig : exists w', on_signal sig e w = Some (tt, w') /\
                              same_store w w')
      by (rewrite on_signal_run; eexists; split; [reflexivity|repeat split]).
    destruct (g_mosq w); exact Hsig.
Qed.

(** The database one report of a message leaves where [d] was. *)
Lemma step_database (e : Env) (m : Mosq.message) (st : Sqlite.stmt)
    (d : Sqlite.database) :
  snd (Sqlite.step (env_step_fault e)
         (Sqlite.mkStmt (Sqlite.stmt_db st)
            (insert_bindings e (Mosq.topic m) (Mosq.payload m)
               (Mosq.payloadlen m) (Mosq.qos m) (Z.b2z (Mosq.retain m)))
            false) d) =
  after_script [(e, Mosq.Publish (Some m))] d.
Proof.
  unfold after_script, accepted_rows, Sqlite.step, insert_bindings.
  destruct (env_step_fault e); simpl.
  - destruct d; simpl. now rewrite app_nil_r, Z.add_0_r.
  - destruct (Mosq.topic m); simpl.
    + reflexivity.
    + destruct d; simpl. now rewrite app_nil_r, Z.add_0_r.
Qed.

(** One report of a message, on a prepared statement. *)
Lemma handle_message_store (m : Mosq.message) (e : Env) (w : World)
    (st : Sqlite.stmt) (d : Sqlite.database) :
  g_stmt_insert w = Some st ->
  disk w !! Sqlite.stmt_db st = Some d ->
  payload_fits (Mosq.payload m) (Mosq.payloadlen m) ->
  exists w' st',
    handle_message (Some m) e w = Some (tt, w') /\
    g_stmt_insert w' = Some st' /\
    Sqlite.stmt_db st' = Sqlite.stmt_db st /\
    disk w' =
      <[Sqlite.stmt_db st := after_script [(e, Mosq.Publish (Some m))] d]>
        (disk w) /\
    cfg w' = cfg w /\ g_db w' = g_db w /\ g_mosq w' = g_mosq w /\
    g_should_stop w' = g_should_stop w /\
    g_last_script_run w' = g_last_script_run w.
Proof.
  intros Hst Hd Hfit. unfold handle_message. unfold bind at 1.
  rewrite (db_insert_message_run _ _ _ _ _ e w st d Hst Hd Hfit).
  unfold fprintf_stderr, emit, modify. cbn [trace].
  eexists _, _. split; [reflexivity|]. simpl.
  split; [reflexivity|]. rewrite step_stmt. split; [reflexivity|].
  rewrite step_database. repeat split.
Qed.

Lemma after_script_nil (d : Sqlite.database) : after_script [] d = d.
Proof.
  unfold after_script. destruct d; simpl. now rewrite app_nil_r, Z.add_0_r.
Qed.

Lemma after_script_skip (p : Env * Mosq.net_event)
    (rest : list (Env * Mosq.net_event)) (d : Sqlite.database) :
  (forall m, snd p <> Mosq.Publish (Some m)) ->
  after_script (p :: rest) d = after_script rest d.
Proof.
  intros Hp. unfold after_script. destruct p as [e [rc|rc|[m|]|sig]];
    try reflexivity.
  now destruct (Hp m).
Qed.

Lemma after_script_cons (e : Env) (m : Mosq.message)
    (rest : list (Env * Mosq.net_event)) (d : Sqlite.database) :
  after_script ((e, Mosq.Publish (Some m)) :: rest) d =
    after_script rest (after_script [(e, Mosq.Publish (Some m))] d).
Proof.
  unfold after_script. simpl.
  destruct (env_step_fault e); simpl.
  - now rewrite app_nil_r, Z.add_0_r.
  - destruct (Mosq.topic m); simpl.
    + change (Z.of_nat 1) with 1. rewrite <- app_assoc. simpl.
      f_equal. lia.
    + now rewrite app_nil_r, Z.add_0_r.
Qed.

(** The loop on a prepared statement with [handle_message] registered. *)
Lemma run_events_store (script : list (Env * Mosq.net_event)) :
  script_fits script ->
  forall (e0 : Env) (w : World) (st : Sqlite.stmt) (d : Sqlite.database)
         (s : Mosq.session),
    g_stmt_insert w = Some st ->
    disk w !! Sqlite.stmt_db st = Some d ->
    g_mosq w = Some s ->
    Mosq.on_message s = Some Mosq.cb_handle_message ->
    exists w' st',
      run_events script e0 w = Some (tt, w') /\
      g_stmt_insert w' = Some st' /\
      Sqlite.stmt_db st' = Sqlite.stmt_db st /\
      disk w' = <[Sqlite.stmt_db st := after_script script d]> (disk w) /\
      cfg w' = cfg w /\ g_db w' = g_db w /\ g_mosq w' = g_mosq w.
Proof.
  induction 1 as [|[e ev] rest Hev Hrest IH]; intros e0 w st d s Hst Hd Hm Hcb.
  - exists w, st. split; [reflexivity|]. split; [exact Hst|].
    split; [reflexivity|]. rewrite after_script_nil.
    split; [symmetry; now apply insert_id|]. repeat split.
  - cbn [run_events]. unfold bind at 1. unfold local.
    destruct ev as [rc|rc|[m|]|sig].
    5:{ destruct (dispatch_frame (Mosq.Signal sig) e w ltac:(discriminate))
          as (w1 & -> & Hc & Hdb & Hs1 & Hm1 & Hd1).
        destruct (IH e0 w1 st d s) as (w' & st' & Hr & H1 & H2 & H3 & H4 & H5 & H6);
          [congruence|congruence|congruence|exact Hcb|].
        exists w', st'. split; [exact Hr|]. split; [exact H1|].
        split; [exact H2|].
        rewrite after_script_skip by (intros; discriminate).
        split; [congruence|]. repeat split; congruence. }
    1:{ destruct (dispatch_frame (Mosq.Connack rc) e w ltac:(discriminate))
          as (w1 & -> & Hc & Hdb & Hs1 & Hm1 & Hd1).
        destruct (IH e0 w1 st d s) as (w' & st' & Hr & H1 & H2 & H3 & H4 & H5 & H6);
          [congruence|congruence|congruence|exact Hcb|].
        exists w', st'. split; [exact Hr|]. split; [exact H1|].
        split; [exact H2|].
        rewrite after_script_skip by (intros; discriminate).
        split; [congruence|]. repeat split; congruence. }
    1:{ destruct (dispatch_frame (Mosq.Disconnected rc) e w ltac:(discriminate))
          as (w1 & -> & Hc & Hdb & Hs1 & Hm1 & Hd1).
        destruct (IH e0 w1 st d s) as (w' & st' & Hr & H1 & H2 & H3 & H4 & H5 & H6);
          [congruence|congruence|congruence|exact Hcb|].
        exists w', st'. split; [exact Hr|]. split; [exact H1|].
        split; [exact H2|].
        rewrite after_script_skip by (intros; discriminate).
        split; [congruence|]. repeat split; congruence. }
    + assert (Hdisp : dispatch (Mosq.Publish (Some m)) e w =
                      handle_message (Some m) e w)
        by (unfold dispatch, bind, get; now rewrite Hm, Hcb).
      rewrite Hdisp.
      destruct (handle_message_store m e w st d Hst Hd Hev)
        as (w1 & st1 & -> & Hs1 & Hdb1 & Hd1 & Hc1 & Hg1 & Hm1 & _).
      destruct (IH e0 w1 st1 (after_script [(e, Mosq.Publish (Some m))] d) s)
        as (w' & st' & Hr & H1 & H2 & H3 & H4 & H5 & H6);
        [exact Hs1|rewrite Hdb1, Hd1; apply lookup_insert_eq|congruence
        |exact Hcb|].
      exists w', st'. split; [exact Hr|]. split; [exact H1|].
      split; [congruence|].
      split.
      { rewrite H3, Hdb1, Hd1, insert_insert_eq.
        now rewrite (after_script_cons e m rest d). }
      repeat split; congruence.
    + assert (Hdisp : dispatch (Mosq.Publish None) e w = Some (tt, w))
        by (unfold dispatch, bind, get; now rewrite Hm, Hcb).
      rewrite Hdisp.
      destruct (IH e0 w st d s Hst Hd Hm Hcb)
        as (w' & st' & Hr & H1 & H2 & H3 & H4 & H5 & H6).
      exists w', st'. split; [exact Hr|]. split; [exact H1|].
      split; [exact H2|].
      rewrite after_script_skip by (intros; discriminate).
      repeat split; assumption.
Qed.



Example sample_reports_rows :
  map Sqlite.row_id (accepted_rows 0 sample_reports) = [1; 2] /\
  map Sqlite.row_payload (accepted_rows 0 sample_reports) =
    [Sqlite.Text "42"; Sqlite.Text "on"].
Proof. split; reflexivity. Qed.

End Serving.

(** ** How [main] ends *)

Lemma close_calls_eq (w w' : World) :
  g_stmt_insert w = g_stmt_insert w' ->
  g_db w = g_db w' ->
  close_calls w = close_calls w'.
Proof. unfold close_calls. now intros -> ->. Qed.

Section MainOutcomes.

Local Arguments db_close : simpl never.
Local Arguments run_events : simpl never.
Local Arguments run_network_repair_script : simpl never.
Local Arguments db_init : simpl never.
Local Arguments fmt_d : simpl never.
Local Arguments CStr.snprintf_s : simpl never.
Local Arguments close_calls : simpl never.

Variable LONG_MAX : Z.

Ltac main_to_init Hinit :=
  unfold init_of, configured, world_after in Hinit;
  rewrite load_config_world in Hinit;
  unfold main; unfold bind at 1; rewrite load_config_world;
  unfold bind at 1; unfold install_sig_handlers, ret at 1;
  unfold bind at 1; unfold get at 1;
  unfold bind at 1; simpl in Hinit; simpl g_db_path; rewrite Hinit.

(** The store does not initialise. *)
Lemma main_init_failure (script : list (Env * Mosq.net_event)) (loop_rc : Z)
    (e : Env) (w w1 : World) (r : Z) :
  init_of LONG_MAX e w = Some (r, w1) ->
  r <> 0 ->
  main LONG_MAX script loop_rc e w =
    Some (1,
          set_trace
            (trace w1 ++
             [EvStderr ("Failed to init DB at " +:+
                        g_db_path (cfg (configured LONG_MAX e w)))]) w1).
Proof.
  intros Hinit Hr. main_to_init Hinit.
  destruct (Z.eqb_spec r 0) as [|_]; [contradiction|].
  reflexivity.
Qed.

(** The session object cannot be allocated. *)
Lemma main_new_failure (script : list (Env * Mosq.net_event)) (loop_rc : Z)
    (e : Env) (w w1 : World) :
  init_of LONG_MAX e w = Some (0, w1) ->
  env_mosq_new_fails e = true ->
  exists w',
    main LONG_MAX script loop_rc e w = Some (1, w') /\
    g_stmt_insert w' = None /\
    g_db w' = None /\
    g_mosq w' = None /\
    disk w' = disk w1 /\
    trace w' =
      trace w1 ++
      [EvMosqLibInit; EvMosqNew (client_id_of e);
       EvStderr "mosquitto_new failed"] ++
      close_calls w1 ++ [EvMosqLibCleanup].
Proof.
  intros Hinit Hnew. main_to_init Hinit.
  simpl negb. cbv iota.
  unfold emit, modify, getenv, ask, get, mosquitto_new, bind, ret,
    fprintf_stderr, emit, modify.
  simpl. rewrite Hnew. simpl. rewrite db_close_run.
  eexists. split; [reflexivity|]. simpl.
  repeat (split; [reflexivity|]).
  fold (client_id_of e).
  rewrite (close_calls_eq _ w1) by reflexivity.
  rewrite <- !app_assoc. reflexivity.
Qed.

(** The loop is entered. *)
Lemma main_loop (script : list (Env * Mosq.net_event)) (loop_rc : Z)
    (e : Env) (w w1 : World) (st : Sqlite.stmt) (d : Sqlite.database)
    (path : string) :
  init_of LONG_MAX e w = Some (0, w1) ->
  env_mosq_new_fails e = false ->
  script_fits script ->
  g_stmt_insert w1 = Some st ->
  disk w1 !! Sqlite.stmt_db st = Some d ->
  g_db w1 = Some path ->
  exists w',
    main LONG_MAX script loop_rc e w = Some (0, w') /\
    g_stmt_insert w' = None /\
    g_db w' = None /\
    disk w' = <[Sqlite.stmt_db st := after_script script d]> (disk w1) /\
    cfg w' = cfg w1 /\
    g_mosq w' =
      Some (Mosq.mkSession (client_id_of e) true
              (Some Mosq.cb_handle_connect) (Some Mosq.cb_handle_disconnect)
              (Some Mosq.cb_handle_message)
              (Some (1, g_reconnect_min (cfg w1),
                     negb (g_reconnect_max (cfg w1) =? 0)))) /\
    exists t,
      trace w' =
        trace w1 ++
        [EvMosqLibInit; EvMosqNew (client_id_of e);
         EvMosqConnect (g_broker_host (cfg w1)) (g_broker_port (cfg w1)) 30] ++
        t ++
        [EvMosqDestroy; EvMosqLibCleanup; EvSqlFinalize; EvSqlClose].
Proof.
  intros Hinit Hnew Hfit Hst Hd Hdb. main_to_init Hinit.
  simpl negb. cbv iota.
  unfold emit, modify, getenv, ask, get, mosquitto_new, bind, ret,
    mosquitto_connect_callback_set, mosquitto_disconnect_callback_set,
    mosquitto_message_callback_set, mosquitto_reconnect_delay_set,
    update_session, mosquitto_connect, fprintf_stderr, emit, modify.
  simpl. rewrite Hnew. simpl. fold (client_id_of e).
  match goal with
  | |- context [(if negb _ then _ else _) e ?W] => set (w_c := W)
  end.
  assert (Hc_cfg : cfg w_c = cfg w1) by reflexivity.
  assert (Hc_db : g_db w_c = g_db w1) by reflexivity.
  assert (Hc_st : g_stmt_insert w_c = g_stmt_insert w1) by reflexivity.
  assert (Hc_disk : disk w_c = disk w1) by reflexivity.
  assert (Hc_m : g_mosq w_c =
                 Some (Mosq.mkSession (client_id_of e) true
                         (Some Mosq.cb_handle_connect)
                         (Some Mosq.cb_handle_disconnect)
                         (Some Mosq.cb_handle_message)
                         (Some (1, g_reconnect_min (cfg w1),
                                negb (g_reconnect_max (cfg w1) =? 0)))))
    by reflexivity.
  assert (Hc_tr : trace w_c =
                  trace w1 ++
                  [EvMosqLibInit; EvMosqNew (client_id_of e);
                   EvMosqConnect (g_broker_host (cfg w1))
                     (g_broker_port (cfg w1)) 30])
    by (subst w_c; cbn [trace set_trace]; now rewrite <- !app_assoc).
  clearbody w_c.
  match goal with
  | |- context [match ?X with Some _ => _ | None => _ end] =>
      match X with
      | _ e w_c =>
          assert (Hrep : exists w_r t_r,
                    X = Some (tt, w_r) /\
                    same_store w_c w_r /\ trace w_r = trace w_c ++ t_r)
      end
  end.
  { destruct (negb (env_connect_rc e =? Mosq.MOSQ_ERR_SUCCESS)).
    - match goal with
      | |- context [run_network_repair_script e ?W] => set (w_f := W)
      end.
      destruct (steady_run_network_repair_script e w_f)
        as (rc & w_r & Hrun & _ & t_r & Ht).
      assert (Hw : w_r = after_repair e w_f)
        by (unfold after_repair; now rewrite Hrun).
      rewrite Hrun. eexists w_r, _. split; [reflexivity|].
      split; [rewrite Hw; apply (after_repair_frame e w_f)|].
      rewrite Ht. subst w_f. simpl. rewrite <- app_assoc. reflexivity.
    - exists w_c, []. split; [reflexivity|].
      split; [apply same_store_refl|now rewrite app_nil_r]. }
  destruct Hrep as (w_r & t_r & -> & (Hc & Hg & Hs & Hm & Hdk) & Ht_r).
  unfold mosquitto_loop_forever, bind, emit, modify, ret.
  match goal with
  | |- context [run_events script e ?W] => set (w_l := W)
  end.
  assert (Hl_cfg : cfg w_l = cfg w1) by (subst w_l; simpl; congruence).
  assert (Hl_db : g_db w_l = Some path) by (subst w_l; simpl; congruence).
  assert (Hl_st : g_stmt_insert w_l = Some st)
    by (subst w_l; simpl; congruence).
  assert (Hl_disk : disk w_l = disk w1) by (subst w_l; simpl; congruence).
  assert (Hl_m : g_mosq w_l =
                 Some (Mosq.mkSession (client_id_of e) true
                         (Some Mosq.cb_handle_connect)
                         (Some Mosq.cb_handle_disconnect)
                         (Some Mosq.cb_handle_message)
                         (Some (1, g_reconnect_min (cfg w1),
                                negb (g_reconnect_max (cfg w1) =? 0)))))
    by (subst w_l; simpl; congruence).
  assert (Hl_tr : trace w_l =
                  trace w1 ++
                  [EvMosqLibInit; EvMosqNew (client_id_of e);
                   EvMosqConnect (g_broker_host (cfg w1))
                     (g_broker_port (cfg w1)) 30] ++
                  t_r ++ [EvMosqLoopForever])
    by (subst w_l; simpl; rewrite Ht_r, Hc_tr, <- !app_assoc; reflexivity).
  clearbody w_l.
  destruct (run_events_store script Hfit e w_l st d _ Hl_st
              ltac:(rewrite Hl_disk; exact Hd) Hl_m eq_refl)
    as (w_e & st_e & Hev & He1 & He2 & He3 & He4 & He5 & He6).
  destruct (steady_run_events script Hfit e w_l)
    as ([] & w_e' & Hev' & _ & t_e & Ht_e).
  rewrite Hev in Hev'. injection Hev' as <-.
  rewrite Hev.
  assert (Hcl : close_calls w_e = [EvSqlFinalize; EvSqlClose])
    by (unfold close_calls; now rewrite He1, He5, Hl_db).
  destruct (negb (loop_rc =? Mosq.MOSQ_ERR_SUCCESS));
    rewrite db_close_run;
    (eexists; split; [reflexivity|]); simpl;
    (split; [reflexivity|]); (split; [reflexivity|]);
    (split; [congruence|]); (split; [congruence|]);
    (split; [congruence|]);
    rewrite (close_calls_eq _ w_e) by reflexivity;
    rewrite Hcl, Ht_e, Hl_tr.
  - exists (t_r ++ [EvMosqLoopForever] ++ t_e ++
            [EvStderr ("mosquitto_loop_forever ended: " +:+
                       env_mosq_strerror e loop_rc)]).
    rewrite <- !app_assoc. reflexivity.
  - exists (t_r ++ [EvMosqLoopForever] ++ t_e).
    rewrite <- !app_assoc. reflexivity.
Qed.

Lemma configured_world (e : Env) (w : World) :
  disk (configured LONG_MAX e w) = disk w /\
  trace (configured LONG_MAX e w) = trace w /\
  g_mosq (configured LONG_MAX e w) = g_mosq w.
Proof.
  unfold configured, world_after. rewrite load_config_world. repeat split.
Qed.

Lemma init_of_total (e : Env) (w : World) :
  exists r w1,
    init_of LONG_MAX e w = Some (r, w1) /\ (r = 0 \/ r = -1) /\
    mosq_calls (trace w1) = mosq_calls (trace w).
Proof.
  destruct (db_init_outcomes (g_db_path (cfg (configured LONG_MAX e w))) e
              (configured LONG_MAX e w))
    as (r & w1 & Hrun & Hr & _ & _ & _ & _ & _ & _ & _ & Hcalls & _).
  exists r, w1. split; [exact Hrun|]. split; [exact Hr|].
  rewrite Hcalls. now destruct (configured_world e w) as (_ & -> & _).
Qed.

(** What a successful [db_init] hands to the rest of [main]. *)
Lemma init_of_success (e : Env) (w w1 : World) :
  init_of LONG_MAX e w = Some (0, w1) ->
  let path := g_db_path (cfg (configured LONG_MAX e w)) in
  exists d,
    g_stmt_insert w1 = Some (Sqlite.mkStmt path Sqlite.unbound false) /\
    g_db w1 = Some path /\
    disk w1 = <[path := d]> (disk w) /\
    Sqlite.db_messages d = Sqlite.db_messages (database_at path w) /\
    Sqlite.db_sequence d = Sqlite.db_sequence (database_at path w).
Proof.
  intros Hinit path. unfold init_of in Hinit. fold path in Hinit.
  destruct (db_init_outcomes path e (configured LONG_MAX e w))
    as (r & w1' & Hrun & _ & Hok & _ & _ & Hdisk & Hdb & _).
  rewrite Hinit in Hrun. injection Hrun as <- <-.
  destruct (Hok eq_refl) as (Hopen & _ & _ & Hst).
  destruct (configured_world e w) as (Hcd & _).
  assert (Hat : database_at path (configured LONG_MAX e w) =
                database_at path w)
    by (unfold database_at; now rewrite Hcd).
  rewrite Hat in Hdisk.
  destruct (exec_script_keeps_rows ddl (database_at path w)) as [Hrows Hseq].
  eexists. split; [exact Hst|]. split; [exact Hdb|].
  split; [rewrite (Hdisk Hopen), Hcd; reflexivity|].
  split; [exact Hrows|exact Hseq].
Qed.

Lemma mosq_calls_app (t u : list event) :
  mosq_calls (t ++ u) = mosq_calls t ++ mosq_calls u.
Proof. apply List.filter_app. Qed.

(** X9.  [main] ends with exit code 0 or 1, and with 0 exactly when the
    store initialised and the session object could be allocated: neither a
    failing first connect nor the result of the loop changes the exit
    code.  With exit code 0 the last things done are to destroy the
    session, clean up the library, and finalize and close the store.  When
    the store does not initialise nothing is asked of libmosquitto and the
    last line written names the path; when the session object cannot be
    allocated the store is closed again before the library is cleaned
    up. *)
Theorem main_exit_code (script : list (Env * Mosq.net_event)) (loop_rc : Z)
    (e : Env) (w : World) :
  script_fits script ->
  exists rc w',
    main LONG_MAX script loop_rc e w = Some (rc, w') /\
    (rc = 0 \/ rc = 1) /\
    (rc = 0 <->
     (exists w1, init_of LONG_MAX e w = Some (0, w1)) /\
     env_mosq_new_fails e = false) /\
    (rc = 0 ->
     g_stmt_insert w' = None /\ g_db w' = None /\
     exists t,
       trace w' =
         t ++ [EvMosqDestroy; EvMosqLibCleanup; EvSqlFinalize; EvSqlClose]) /\
    ((forall w1, init_of LONG_MAX e w <> Some (0, w1)) ->
     mosq_calls (trace w') = mosq_calls (trace w) /\
     last (trace w') =
       Some (EvStderr ("Failed to init DB at " +:+
                       g_db_path (cfg (configured LONG_MAX e w))))) /\
    ((exists w1, init_of LONG_MAX e w = Some (0, w1)) ->
     env_mosq_new_fails e = true ->
     g_stmt_insert w' = None /\ g_db w' = None /\
     mosq_calls (trace w') =
       mosq_calls (trace w) ++
       [EvMosqLibInit; EvMosqNew (client_id_of e); EvMosqLibCleanup]).
Proof.
  intros Hfit.
  destruct (init_of_total e w) as (r & w1 & Hinit & Hr & Hcalls).
  destruct (Z.eq_dec r 0) as [->|Hr0].
  - destruct (init_of_success e w w1 Hinit) as (d & Hst & Hdb & Hdisk & _).
    destruct (env_mosq_new_fails e) eqn:Hnew.
    + destruct (main_new_failure script loop_rc e w w1 Hinit Hnew)
        as (w' & Hrun & H1 & H2 & _ & _ & Htr).
      exists 1, w'. split; [exact Hrun|]. split; [auto|].
      split; [split; [discriminate|intros [_ ?]; discriminate]|].
      split; [discriminate|].
      split; [intros Hno; now destruct (Hno w1)|].
      intros _ _. split; [exact H1|]. split; [exact H2|].
      rewrite Htr, !mosq_calls_app, Hcalls.
      unfold close_calls. rewrite Hst, Hdb. reflexivity.
    + destruct (main_loop script loop_rc e w w1 _ d _ Hinit Hnew Hfit Hst
                  ltac:(rewrite Hdisk; apply lookup_insert_eq) Hdb)
        as (w' & Hrun & H1 & H2 & _ & _ & _ & t & Htr).
      exists 0, w'. split; [exact Hrun|]. split; [auto|].
      split; [split; [intros _; split; [now exists w1|reflexivity]|reflexivity]|].
      split.
      { intros _. split; [exact H1|]. split; [exact H2|].
        rewrite Htr. eexists. rewrite !app_assoc. reflexivity. }
      split; [intros Hno; now destruct (Hno w1)|].
      intros _ ?; discriminate.
  - rewrite (main_init_failure script loop_rc e w w1 r Hinit Hr0).
    eexists 1, _. split; [reflexivity|]. split; [auto|].
    split.
    { split; [discriminate|]. intros [[w2 H2] _]. congruence. }
    split; [discriminate|].
    split.
    { intros _. cbn [trace set_trace]. split; [|apply last_snoc].
      rewrite mosq_calls_app, Hcalls. cbn. apply app_nil_r. }
    intros [w2 H2]. congruence.
Qed.

(** X10.  When the store initialises and the session object is allocated,
    the session [main] leaves behind is a clean session under the client
    id of the environment, or else one made of the process id; it has
    [handle_connect], [handle_disconnect] and [handle_message] registered;
    and [mosquitto_reconnect_delay_set], whose parameters are the delay,
    the maximal delay and whether the delay grows, has been given [true],
    the configured minimum and the configured maximum in this order, that
    is a delay of 1, the configured minimum as the maximal delay, and a
    growing delay unless the configured maximum is 0.  The connect was asked
    for the configured host and port with a keep-alive of 30. *)
Theorem main_configures_session (script : list (Env * Mosq.net_event))
    (loop_rc : Z) (e : Env) (w w1 : World) :
  init_of LONG_MAX e w = Some (0, w1) ->
  env_mosq_new_fails e = false ->
  script_fits script ->
  exists w' s,
    main LONG_MAX script loop_rc e w = Some (0, w') /\
    cfg w' = cfg (configured LONG_MAX e w) /\
    g_mosq w' = Some s /\
    Mosq.client_id s = client_id_of e /\
    Mosq.clean_session s = true /\
    Mosq.on_connect s = Some Mosq.cb_handle_connect /\
    Mosq.on_disconnect s = Some Mosq.cb_handle_disconnect /\
    Mosq.on_message s = Some Mosq.cb_handle_message /\
    Mosq.reconnect_delay s =
      Some (1, g_reconnect_min (cfg w'),
            negb (g_reconnect_max (cfg w') =? 0)) /\
    In (EvMosqConnect (g_broker_host (cfg w')) (g_broker_port (cfg w')) 30)
       (trace w').
Proof.
  intros Hinit Hnew Hfit.
  destruct (init_of_success e w w1 Hinit) as (d & Hst & Hdb & Hdisk & _).
  destruct (main_loop script loop_rc e w w1 _ d _ Hinit Hnew Hfit Hst
              ltac:(rewrite Hdisk; apply lookup_insert_eq) Hdb)
    as (w' & Hrun & _ & _ & _ & Hcfg & Hm & t & Htr).
  assert (Hcfg1 : cfg w1 = cfg (configured LONG_MAX e w)).
  { unfold init_of in Hinit.
    destruct (db_init_cases (g_db_path (cfg (configured LONG_MAX e w))) e
                (configured LONG_MAX e w))
      as (r & w1' & Hrun' & _ & _ & _ & Hc & _).
    rewrite Hinit in Hrun'. now injection Hrun' as <- <-. }
  eexists w', _. split; [exact Hrun|]. split; [congruence|].
  split; [exact Hm|]. rewrite Hcfg. cbn.
  repeat (split; [reflexivity|]).
  rewrite Htr. apply in_or_app. right. cbn. auto.
Qed.


End MainOutcomes.

Lemma main_exit_code_witness :
  exists rc w',
    main (2 ^ 63 - 1) sample_reports 0 (quiet_env 1700000000)
      (initial_world ∅) = Some (rc, w') /\
    (rc = 0 \/ rc = 1).
Proof.
  destruct (main_exit_code (2 ^ 63 - 1) sample_reports 0
              (quiet_env 1700000000) (initial_world ∅))
    as (rc & w' & Hrun & Hrc & _).
  - repeat constructor; simpl; lia.
  - exists rc, w'. split; [exact Hrun|exact Hrc].
Defined.

Lemma main_configures_session_witness :
  exists w' s,
    main (2 ^ 63 - 1) sample_reports 0 (quiet_env 1700000000)
      (initial_world ∅) = Some (0, w') /\
    g_mosq w' = Some s /\
    Mosq.reconnect_delay s = Some (1, 2, true).
Proof.
  destruct (main_configures_session (2 ^ 63 - 1) sample_reports 0
              (quiet_env 1700000000) (initial_world ∅) ready_world)
    as (w' & s & Hrun & Hcfg & Hm & _ & _ & _ & _ & _ & Hdelay & _).
  - vm_compute. reflexivity.
  - reflexivity.
  - repeat constructor; simpl; lia.
  - exists w', s. split; [exact Hrun|]. split; [exact Hm|].
    rewrite Hdelay, Hcfg. vm_compute. reflexivity.
Defined.


(** ** The line on the console *)

Lemma until_nul_terminated (buf : list byte) :
  until_nul (buf ++ [x00]) = until_nul buf.
Proof.
  induction buf as [|b buf IH]; [reflexivity|].
  simpl. destruct (Byte.eqb b x00); [reflexivity|now rewrite IH].
Qed.

(** X12.  For a message whose payload is there, [handle_message] ends by
    writing one line that shows after the topic exactly the text the store
    writer makes of the payload, cut at the first NUL like it; the line is
    written whether or not a row went in, and also when no statement is
    prepared.  When the statement is prepared and the copy could be
    allocated, the text on the line is the text bound to the payload
    parameter. *)
Theorem handle_message_console_line (m : Mosq.message) (src : list byte)
    (e : Env) (w : World) :
  Mosq.payload m = Some src ->
  0 <= Mosq.payloadlen m <= Z.of_nat (length src) ->
  let text := stored_payload false (Mosq.payload m) (Mosq.payloadlen m) in
  exists w',
    handle_message (Some m) e w = Some (tt, w') /\
    last (trace w') =
      Some (EvStderr ("MSG " +:+ fmt_s (Mosq.topic m) +:+ " => " +:+ text)) /\
    (env_malloc_fails e = false -> g_stmt_insert w <> None ->
     payload_binding w' = Some (Sqlite.Text text)).
Proof.
  intros Hp Hlen text.
  assert (Hfit : payload_fits (Mosq.payload m) (Mosq.payloadlen m))
    by (rewrite Hp; simpl; lia).
  assert (Htext : fmt_precision_s (Mosq.payloadlen m) (Mosq.payload m) = text).
  { subst text. rewrite Hp. unfold fmt_precision_s, stored_payload.
    destruct (Z.ltb_spec (Mosq.payloadlen m) 0); [lia|].
    destruct (Z.leb_spec 0 (Mosq.payloadlen m)); [|lia].
    cbn [andb negb]. unfold c_string. now rewrite until_nul_terminated. }
  destruct (steady_db_insert_message (Mosq.topic m) (Mosq.payload m)
              (Mosq.payloadlen m) (Mosq.qos m) (Z.b2z (Mosq.retain m))
              Hfit e w) as ([] & w1 & Hrun & _).
  unfold handle_message. unfold bind at 1. rewrite Hrun.
  unfold fprintf_stderr, emit, modify.
  eexists. split; [reflexivity|]. cbn [trace set_trace].
  split; [rewrite last_snoc, Htext; reflexivity|].
  intros Hmal Hst.
  destruct (g_stmt_insert w) as [st|] eqn:Hs; [clear Hst|congruence].
  destruct (db_insert_message_binding (Mosq.topic m) (Mosq.payload m)
              (Mosq.payloadlen m) (Mosq.qos m) (Z.b2z (Mosq.retain m))
              e w st Hs Hfit) as (w1' & Hrun' & Hb & _).
  rewrite Hrun in Hrun'. injection Hrun' as <-.
  rewrite Hmal in Hb. exact Hb.
Qed.

Lemma handle_message_console_line_witness :
  exists w',
    handle_message
      (Some (Mosq.mkMessage 1 (Some "obk/a") (Some ["o"; "n"; x00; "x"]%byte)
               4 0 false))
      (quiet_env 1700000001) serving_world = Some (tt, w') /\
    last (trace w') = Some (EvStderr "MSG obk/a => on").
Proof.
  destruct (handle_message_console_line
              (Mosq.mkMessage 1 (Some "obk/a") (Some ["o"; "n"; x00; "x"]%byte)
                 4 0 false)
              ["o"; "n"; x00; "x"]%byte (quiet_env 1700000001) serving_world)
    as (w' & Hrun & Hlast & _).
  - reflexivity.
  - simpl. lia.
  - exists w'. split; [exact Hrun|exact Hlast].
Defined.

(** ** The stop flag *)

Section StopFlag.

Lemma blind_ret {A} (a : A) : blind (ret a).
Proof. intros e w1 w2 H. simpl. auto. Qed.

Lemma blind_bind {A B} (m : M A) (k : A -> M B) :
  blind m -> (forall a, blind (k a)) -> blind (bind m k).
Proof.
  intros Hm Hk e w1 w2 H. unfold bind. specialize (Hm e w1 w2 H).
  destruct (m e w1) as [[a1 w1']|], (m e w2) as [[a2 w2']|]; try tauto.
  destruct Hm as [-> H']. apply Hk, H'.
Qed.

Lemma blind_fault {A} : blind (@fault A).
Proof. intros e w1 w2 H. exact I. Qed.

Lemma blind_ask {A} (f : Env -> A) : blind (ask f).
Proof. intros e w1 w2 H. simpl. auto. Qed.

Lemma blind_get {A} (f : World -> A) :
  (forall w1 w2, same_but_stop w1 w2 -> f w1 = f w2) -> blind (get f).
Proof. intros Hf e w1 w2 H. simpl. auto. Qed.

Lemma blind_modify (f : World -> World) :
  (forall w1 w2, same_but_stop w1 w2 -> same_but_stop (f w1) (f w2)) ->
  blind (modify f).
Proof. intros Hf e w1 w2 H. simpl. auto. Qed.

Lemma blind_local {A} (e0 : Env) (m : M A) : blind m -> blind (local e0 m).
Proof. intros Hm e w1 w2 H. apply (Hm e0 w1 w2 H). Qed.

Ltac respects :=
  let w1 := fresh "w" in
  let w2 := fresh "w" in
  intros w1 w2 (? & ? & ? & ? & ? & ? & ?);
  unfold same_but_stop; simpl; repeat split; congruence.

Lemma blind_emit (ev : event) : blind (emit ev).
Proof. apply blind_modify. respects. Qed.

Ltac blind_step :=
  lazymatch goal with
  | |- blind (bind _ _) => apply blind_bind; [|intros ?]
  | |- blind (ret _) => apply blind_ret
  | |- blind (ask _) => apply blind_ask
  | |- blind (emit _) => apply blind_emit
  | |- blind fault => apply blind_fault
  | |- blind (local _ _) => apply blind_local
  | |- blind (get _) => apply blind_get; respects
  | |- blind (modify _) => apply blind_modify; respects
  | |- blind (if ?b then _ else _) => destruct b
  | |- blind (match ?x with _ => _ end) => destruct x
  end.

Ltac blind_run := repeat first [solve [auto 2] | blind_step].

Lemma blind_run_network_repair_script : blind run_network_repair_script.
Proof.
  unfold run_network_repair_script, time, log_ts, fprintf_stderr, system,
    perror.
  blind_run.
Qed.

Lemma blind_sqlite3_open (path : string) : blind (sqlite3_open path).
Proof.
  unfold sqlite3_open. blind_run.
  apply blind_modify. intros w1 w2 H.
  assert (Hd : disk w1 = disk w2) by apply H. rewrite Hd.
  destruct (disk w2 !! path); [exact H|].
  destruct H as (? & ? & ? & ? & ? & ? & ?).
  unfold same_but_stop; simpl; repeat split; congruence.
Qed.

Lemma blind_sqlite3_exec (sql : string) (script : list Sqlite.ddl_stmt) :
  blind (sqlite3_exec sql script).
Proof.
  unfold sqlite3_exec. blind_run.
Qed.

Lemma blind_sqlite3_prepare_insert : blind sqlite3_prepare_insert.
Proof. unfold sqlite3_prepare_insert. blind_run. Qed.

Lemma blind_db_init (path : string) : blind (db_init path).
Proof.
  pose proof (blind_sqlite3_open path).
  pose proof (blind_sqlite3_exec ddl_sql ddl).
  pose proof blind_sqlite3_prepare_insert.
  unfold db_init, sqlite3_exec_pragma, fprintf_stderr. blind_run.
Qed.

Lemma blind_db_close : blind db_close.
Proof. unfold db_close. blind_run. Qed.

Lemma blind_on_stmt (ev : event) (f : Sqlite.stmt -> Z * Sqlite.stmt) :
  blind (on_stmt ev f).
Proof.
  unfold on_stmt. blind_run.
Qed.

Lemma blind_sqlite3_step : blind sqlite3_step.
Proof.
  unfold sqlite3_step. blind_run.
Qed.

Lemma blind_db_insert_message (topic : option string)
    (payload : option (list byte)) (payloadlen qos retain : Z) :
  blind (db_insert_message topic payload payloadlen qos retain).
Proof.
  pose proof blind_sqlite3_step.
  pose proof blind_on_stmt.
  unfold db_insert_message, time, sqlite3_reset, sqlite3_clear_bindings,
    sqlite3_bind_int64, sqlite3_bind_text, sqlite3_bind_int, malloc, memcpy,
    fprintf_stderr.
  blind_run.
Qed.

Lemma blind_handle_connect (rc : Z) : blind (handle_connect rc).
Proof.
  unfold handle_connect, log_ts, mosquitto_subscribe, fprintf_stderr.
  blind_run.
Qed.

Lemma blind_handle_disconnect (rc : Z) : blind (handle_disconnect rc).
Proof.
  pose proof blind_run_network_repair_script.
  unfold handle_disconnect, log_ts. blind_run.
Qed.

Lemma blind_handle_message (msg : option Mosq.message) :
  blind (handle_message msg).
Proof.
  pose proof blind_db_insert_message.
  unfold handle_message, fprintf_stderr. blind_run.
Qed.

Lemma blind_on_signal (sig : Z) : blind (on_signal sig).
Proof. unfold on_signal, mosquitto_disconnect. blind_run. Qed.

Lemma blind_dispatch (ev : Mosq.net_event) : blind (dispatch ev).
Proof.
  pose proof blind_handle_connect. pose proof blind_handle_disconnect.
  pose proof blind_handle_message. pose proof blind_on_signal.
  unfold dispatch. blind_run.
Qed.

Lemma blind_run_events (script : list (Env * Mosq.net_event)) :
  blind (run_events script).
Proof.
  induction script as [|[e ev] rest IH]; simpl; [apply blind_ret|].
  apply blind_bind; [apply blind_local, blind_dispatch|intros _; exact IH].
Qed.

Lemma blind_load_config (LONG_MAX : Z) : blind (load_config LONG_MAX).
Proof. unfold load_config, getenv. blind_run. Qed.

Lemma blind_main (LONG_MAX : Z) (script : list (Env * Mosq.net_event))
    (loop_rc : Z) :
  blind (main LONG_MAX script loop_rc).
Proof.
  pose proof (blind_load_config LONG_MAX).
  pose proof blind_db_init. pose proof blind_db_close.
  pose proof blind_run_network_repair_script.
  pose proof (blind_run_events script).
  unfold main, install_sig_handlers, getenv, mosquitto_new,
    mosquitto_connect_callback_set, mosquitto_disconnect_callback_set,
    mosquitto_message_callback_set, mosquitto_reconnect_delay_set,
    update_session, mosquitto_connect, mosquitto_loop_forever, fprintf_stderr.
  blind_run.
Qed.

(** X13.  [g_should_stop] is written and never read.  The signal handler
    sets it to 1 and, when there is a session, asks the library to
    disconnect; it does nothing else.  And whatever the flag holds, the
    loop and [main] as a whole do the same: the same fault or none, the
    same exit code, the same store, the same trace. *)
Theorem stop_flag_is_never_read :
  (forall (sig : Z) (e : Env) (w : World),
     on_signal sig e w =
       Some (tt,
             set_trace
               (trace w ++
                match g_mosq w with
                | Some _ => [EvMosqDisconnect]
                | None => []
                end)
               (set_should_stop 1 w))) /\
  (forall script : list (Env * Mosq.net_event), blind (run_events script)) /\
  (forall (LONG_MAX : Z) (script : list (Env * Mosq.net_event)) (loop_rc : Z),
     blind (main LONG_MAX script loop_rc)).
Proof.
  split; [exact on_signal_run|].
  split; [exact blind_run_events|exact blind_main].
Qed.

End StopFlag.

(** ** What the loop asks of the library and of the shell *)

Section LoopTrace.

Local Arguments run_network_repair_script : simpl never.
Local Arguments db_insert_message : simpl never.
Local Arguments fmt_d : simpl never.
Local Arguments CStr.snprintf_s : simpl never.
Local Arguments Sqlite.step : simpl never.
Local Arguments stored_payload : simpl never.

Lemma after_repair_calls (e : Env) (w : World) :
  let ran := SCRIPT_MIN_INTERVAL_SEC <=? env_time e - g_last_script_run w in
  mosq_calls (trace (after_repair e w)) = mosq_calls (trace w) /\
  system_calls (trace (after_repair e w)) =
    system_calls (trace w) ++ (if ran then [repair_cmd w] else []) /\
  g_last_script_run (after_repair e w) =
    if ran then env_time e else g_last_script_run w.
Proof.
  intros ran. subst ran. unfold after_repair.
  destruct (Z.leb_spec SCRIPT_MIN_INTERVAL_SEC
              (env_time e - g_last_script_run w)) as [Hge|Hlt].
  - destruct (run_network_repair_script_runs e w Hge)
      as (rc & w' & -> & _ & Hl & _ & _ & _ & _ & ->).
    rewrite mosq_calls_app, system_calls_app.
    destruct (env_system e (repair_cmd w) =? -1); cbn;
      rewrite ?app_nil_r; auto.
  - rewrite run_network_repair_script_throttled by exact Hlt. cbn.
    rewrite mosq_calls_app, system_calls_app. cbn.
    rewrite !app_nil_r. auto.
Qed.

(** An insert asks nothing of libmosquitto and nothing of the shell. *)
Lemma db_insert_message_quiet (topic : option string)
    (payload : option (list byte)) (payloadlen qos retain : Z)
    (e : Env) (w : World) :
  payload_fits payload payloadlen ->
  exists w',
    db_insert_message topic payload payloadlen qos retain e w = Some (tt, w') /\
    cfg w' = cfg w /\
    g_mosq w' = g_mosq w /\
    g_last_script_run w' = g_last_script_run w /\
    mosq_calls (trace w') = mosq_calls (trace w) /\
    system_calls (trace w') = system_calls (trace w).
Proof.
  intros Hfit.
  destruct (g_stmt_insert w) as [st|] eqn:Hst.
  - destruct (disk w !! Sqlite.stmt_db st) as [d|] eqn:Hd.
    + rewrite (db_insert_message_run topic payload payloadlen qos retain
                 e w st d Hst Hd Hfit).
      eexists. split; [reflexivity|]. cbn [cfg g_mosq g_last_script_run trace].
      repeat (split; [reflexivity|]).
      rewrite !mosq_calls_app, !system_calls_app.
      match goal with
      | |- context [if ?c then _ else _] => destruct c
      end; cbn; rewrite ?app_nil_r; auto.
    + rewrite (db_insert_message_orphan topic payload payloadlen qos retain
                 e w st Hst Hd Hfit).
      eexists. split; [reflexivity|]. cbn [cfg g_mosq g_last_script_run trace].
      repeat (split; [reflexivity|]).
      rewrite !mosq_calls_app, !system_calls_app. cbn.
      rewrite ?app_nil_r; auto.
  - rewrite (db_insert_message_unprepared topic payload payloadlen qos retain
               e w Hst).
    exists w. repeat split.
Qed.

(** One report, with the three callbacks registered. *)
Lemma loop_step (ev : Mosq.net_event) (e : Env) (w : World)
    (s : Mosq.session) :
  g_mosq w = Some s ->
  registered s ->
  event_fits ev ->
  exists w',
    dispatch ev e w = Some (tt, w') /\
    cfg w' = cfg w /\
    g_mosq w' = g_mosq w /\
    mosq_calls (trace w') =
      mosq_calls (trace w) ++ step_calls (g_topic (cfg w)) ev /\
    system_calls (trace w') =
      system_calls (trace w) ++
      (if fires (g_last_script_run w) (e, ev) then [repair_cmd w] else []) /\
    g_last_script_run w' =
      if fires (g_last_script_run w) (e, ev) then env_time e
      else g_last_script_run w.
Proof.
  intros Hm (Hc & Hd & Hmsg) Hfit.
  assert (Hdisp :
    dispatch ev e w =
      match ev with
      | Mosq.Connack rc => handle_connect rc e w
      | Mosq.Disconnected rc => handle_disconnect rc e w
      | Mosq.Publish msg => handle_message msg e w
      | Mosq.Signal sig => on_signal sig e w
      end).
  { unfold dispatch, bind, get. rewrite Hm.
    destruct ev; rewrite ?Hc, ?Hd, ?Hmsg; reflexivity. }
  rewrite Hdisp. clear Hdisp. unfold fires. cbn [fst snd].
  destruct ev as [rc|rc|[m|]|sig].
  - rewrite handle_connect_run.
    eexists. split; [reflexivity|].
    cbn [cfg g_mosq g_last_script_run trace set_trace].
    repeat (split; [reflexivity|]). cbn [step_calls].
    rewrite mosq_calls_app, system_calls_app.
    destruct (rc =? 0); cbn; rewrite ?app_nil_r; auto.
  - rewrite handle_disconnect_run.
    eexists. split; [reflexivity|].
    match goal with
    | |- context [after_repair e ?W] =>
        destruct (after_repair_frame e W) as [(F1 & _ & _ & F4 & _) _];
        destruct (after_repair_calls e W) as (C1 & C2 & C3)
    end.
    cbn [cfg g_mosq g_last_script_run trace set_trace] in *.
    split; [exact F1|]. split; [exact F4|].
    rewrite C1, C2, C3, mosq_calls_app, system_calls_app. cbn.
    rewrite !app_nil_r. auto.
  - unfold handle_message. unfold bind at 1.
    destruct (db_insert_message_quiet (Mosq.topic m) (Mosq.payload m)
                (Mosq.payloadlen m) (Mosq.qos m) (Z.b2z (Mosq.retain m))
                e w Hfit) as (w1 & -> & Q1 & Q2 & Q3 & Q4 & Q5).
    unfold fprintf_stderr, emit, modify.
    eexists. split; [reflexivity|].
    cbn [cfg g_mosq g_last_script_run trace set_trace].
    rewrite mosq_calls_app, system_calls_app, Q4, Q5. cbn.
    rewrite !app_nil_r. auto.
  - exists w. cbn. rewrite !app_nil_r. repeat split.
  - rewrite on_signal_run, Hm. eexists. split; [reflexivity|].
    cbn [cfg g_mosq g_last_script_run trace set_trace set_should_stop].
    rewrite mosq_calls_app, system_calls_app. cbn.
    rewrite !app_nil_r. auto.
Qed.

Lemma last_default_cons (t d : Z) (l : list Z) :
  default d (last (t :: l)) = default t (last l).
Proof. rewrite last_cons. now destruct (last l). Qed.

Lemma repair_times_spaced (script : list (Env * Mosq.net_event)) (t : Z) :
  spaced t (repair_times t script).
Proof.
  revert t. induction script as [|p rest IH]; intros t; [exact I|].
  cbn [repair_times]. destruct (fires t p) eqn:F; [|apply IH].
  split; [|apply IH]. unfold fires in F.
  destruct (snd p); try discriminate. now apply Z.leb_le in F.
Qed.

(** The loop, report by report. *)
Lemma run_events_trace (script : list (Env * Mosq.net_event)) :
  script_fits script ->
  forall (e0 : Env) (w : World) (s : Mosq.session),
    g_mosq w = Some s ->
    registered s ->
    exists w',
      run_events script e0 w = Some (tt, w') /\
      cfg w' = cfg w /\
      g_mosq w' = g_mosq w /\
      mosq_calls (trace w') =
        mosq_calls (trace w) ++ library_calls (g_topic (cfg w)) script /\
      system_calls (trace w') =
        system_calls (trace w) ++
        map (fun _ => repair_cmd w)
          (repair_times (g_last_script_run w) script) /\
      g_last_script_run w' =
        default (g_last_script_run w)
          (last (repair_times (g_last_script_run w) script)).
Proof.
  induction 1 as [|[e ev] rest Hev Hrest IH]; intros e0 w s Hm Hreg.
  - exists w. cbn. rewrite !app_nil_r. repeat split.
  - cbn [run_events]. unfold bind at 1. unfold local.
    destruct (loop_step ev e w s Hm Hreg Hev)
      as (w1 & -> & S1 & S2 & S3 & S4 & S5).
    destruct (IH e0 w1 s ltac:(congruence) Hreg)
      as (w' & Hrun & T1 & T2 & T3 & T4 & T5).
    exists w'. split; [exact Hrun|].
    split; [congruence|]. split; [congruence|].
    assert (Hcmd : repair_cmd w1 = repair_cmd w)
      by (unfold repair_cmd; now rewrite S1).
    rewrite T3, T4, T5, S3, S4, S5, S1, Hcmd.
    cbn [library_calls flat_map repair_times snd fst].
    rewrite <- !app_assoc.
    destruct (fires (g_last_script_run w) (e, ev)); cbn [map].
    + rewrite last_default_cons. auto.
    + rewrite app_nil_l. auto.
Qed.



(** X15.  With the three callbacks registered, the loop hands the repair
    command to the shell for a reported disconnect exactly when that
    disconnect comes 20 seconds or more after the last run on record, and
    for nothing else: messages, connects and signals neither run it nor
    move the record.  So any run during the loop is at least 20 seconds
    after the run before it, and the command is the same each time. *)
Theorem run_events_repairs (script : list (Env * Mosq.net_event))
    (e0 : Env) (w : World) (s : Mosq.session) :
  g_mosq w = Some s ->
  registered s ->
  script_fits script ->
  let times := repair_times (g_last_script_run w) script in
  exists w',
    run_events script e0 w = Some (tt, w') /\
    system_calls (trace w') =
      system_calls (trace w) ++ map (fun _ => repair_cmd w) times /\
    spaced (g_last_script_run w) times /\
    g_last_script_run w' = default (g_last_script_run w) (last times).
Proof.
  intros Hm Hreg Hfit times.
  destruct (run_events_trace script Hfit e0 w s Hm Hreg)
    as (w' & Hrun & _ & _ & _ & H4 & H5).
  exists w'. split; [exact Hrun|]. split; [exact H4|].
  split; [apply repair_times_spaced|exact H5].
Qed.

Lemma run_events_repairs_witness :
  exists w',
    run_events
      (sample_reports ++
       [(quiet_env 1700000010, Mosq.Disconnected 7);
        (quiet_env 1700000030, Mosq.Disconnected 7)])
      (quiet_env 1700000000) serving_world = Some (tt, w') /\
    system_calls (trace w') =
      ["sh -c './handle_network_error.sh'";
       "sh -c './handle_network_error.sh'"].
Proof.
  destruct (run_events_repairs
              (sample_reports ++
               [(quiet_env 1700000010, Mosq.Disconnected 7);
                (quiet_env 1700000030, Mosq.Disconnected 7)])
              (quiet_env 1700000000) serving_world
              (Mosq.mkSession "mqtt2sqlite-1" true
                 (Some Mosq.cb_handle_connect)
                 (Some Mosq.cb_handle_disconnect)
                 (Some Mosq.cb_handle_message) None))
    as (w' & Hrun & Hcalls & _).
  - reflexivity.
  - repeat split.
  - repeat constructor; simpl; lia.
  - exists w'. split; [exact Hrun|exact Hcalls].
Defined.

End LoopTrace.

(** * Properties of reset_wemos *)

Section ResetPulse.

Import ResetWemos.

Variables UINT_MAX ULONG_MAX O_NONBLOCK : Z.

Lemma clear_bit_spec (m n i : Z) :
  0 <= n -> 0 <= i ->
  Z.testbit (Z.land m (Z.lnot (2 ^ n))) i =
    if i =? n then false else Z.testbit m i.
Proof.
  intros Hn Hi. rewrite Z.land_spec, Z.lnot_spec, Z.pow2_bits_eqb by lia.
  rewrite (Z.eqb_sym n i). destruct (i =? n); simpl.
  - apply andb_false_r.
  - apply andb_true_r.
Qed.

Lemma set_bit_spec (m n i : Z) :
  0 <= n -> 0 <= i ->
  Z.testbit (Z.lor m (2 ^ n)) i = if i =? n then true else Z.testbit m i.
Proof.
  intros Hn Hi. rewrite Z.lor_spec, Z.pow2_bits_eqb by lia.
  rewrite (Z.eqb_sym n i). destruct (i =? n); simpl.
  - apply orb_true_r.
  - apply orb_false_r.
Qed.

Lemma pulse_of_nonneg (args : list string) :
  0 <= UINT_MAX -> 0 <= pulse_of UINT_MAX ULONG_MAX args.
Proof.
  intros H. unfold pulse_of.
  destruct args as [|d [|p rest]]; try lia.
  apply Z.mod_pos_bound. lia.
Qed.

Lemma timespec_ms_msleep (ms : Z) :
  0 <= ms ->
  timespec_ms (ms / 1000) (ms mod 1000 * 1000000) = Some ms.
Proof.
  intros H. unfold timespec_ms.
  pose proof (Z.mod_pos_bound ms 1000 ltac:(lia)).
  pose proof (Z.div_pos ms 1000 H ltac:(lia)).
  rewrite Z.mod_mul by lia. rewrite Z.div_mul by lia.
  destruct (Z.leb_spec 0 (ms / 1000)); [|lia].
  destruct (Z.leb_spec 0 (ms mod 1000 * 1000000)); [|lia].
  destruct (Z.ltb_spec (ms mod 1000 * 1000000) 1000000000); [|lia].
  cbn. f_equal. pose proof (Z.div_mod ms 1000 ltac:(lia)). lia.
Qed.

Lemma msleep_nowrap (ms : Z) :
  999000000 <= ULONG_MAX ->
  (ms mod 1000 * 1000000) mod (ULONG_MAX + 1) = ms mod 1000 * 1000000.
Proof.
  intros H. pose proof (Z.mod_pos_bound ms 1000 ltac:(lia)).
  apply Z.mod_small. lia.
Qed.

(** The run in which every checked call succeeds. *)
Lemma main_succeeds (k : Kernel) (args : list string) :
  999000000 <= ULONG_MAX ->
  0 <= UINT_MAX ->
  all_succeed k args ->
  let fd := k_open k (device_of args) in
  let pulse := pulse_of UINT_MAX ULONG_MAX args in
  let m1 := Z.land (k_lines k) (Z.lnot TIOCM_DTR) in
  let m2 := Z.lor m1 TIOCM_RTS in
  let m3 := Z.land m2 (Z.lnot TIOCM_RTS) in
  exists t,
    main UINT_MAX ULONG_MAX O_NONBLOCK args k [] = (inl 0, t) /\
    t = [Open (device_of args); GetFl fd] ++
        (if 0 <=? k_getfl k
         then [SetFl fd (Z.land (k_getfl k) (Z.lnot O_NONBLOCK))]
         else []) ++
        [ModemGet fd; ModemSet fd m1; Nanosleep 0 50000000; ModemSet fd m2;
         Nanosleep (pulse / 1000) (pulse mod 1000 * 1000000);
         ModemSet fd m3; Nanosleep 0 50000000; Close fd] /\
    sleeps t = [Some 50; Some pulse; Some 50].
Proof.
  intros Hul Hui (Hopen & Hget & Hs0 & Hs1 & Hs2) fd pulse m1 m2 m3.
  unfold main. fold (device_of args). fold (pulse_of UINT_MAX ULONG_MAX args).
  fold pulse.
  assert (Eopen : (k_open k (device_of args) <? 0) = false) by lia.
  assert (Eget : (k_tiocmget k <? 0) = false) by lia.
  assert (Es0 : (k_tiocmset k 0%nat <? 0) = false) by lia.
  assert (Es1 : (k_tiocmset k 1%nat <? 0) = false) by lia.
  assert (Es2 : (k_tiocmset k 2%nat <? 0) = false) by lia.
  unfold open, die, fcntl_getfl, fcntl_setfl, ioctl_tiocmget, ioctl_tiocmset,
    msleep, close, pcall, answer, pret, exit, pbind.
  cbn [fst snd app]. rewrite Eopen, Eget.
  change (50 / 1000) with 0. change (50 mod 1000 * 1000000) with 50000000.
  rewrite (Z.mod_small 50000000) by lia. rewrite msleep_nowrap by exact Hul.
  pose proof (pulse_of_nonneg args Hui) as Hpulse. fold pulse in Hpulse.
  destruct (0 <=? k_getfl k);
    cbn [app List.filter length is_modem_set]; rewrite Es0;
    cbn [app List.filter length is_modem_set]; rewrite Es1;
    cbn [app List.filter length is_modem_set]; rewrite Es2;
    cbn [app List.filter length is_modem_set];
    (eexists; split; [reflexivity|]; split; [reflexivity|]);
    unfold sleeps; cbn -[timespec_ms Z.div Z.modulo Z.mul];
    rewrite (timespec_ms_msleep pulse Hpulse); reflexivity.
Qed.

(** The lines the three writes ask for, bit by bit: DTR is bit 1 and RTS
    is bit 2. *)
Lemma pulse_bits (lines i : Z) :
  0 <= i ->
  let m1 := Z.land lines (Z.lnot TIOCM_DTR) in
  let m2 := Z.lor m1 TIOCM_RTS in
  let m3 := Z.land m2 (Z.lnot TIOCM_RTS) in
  Z.testbit m1 i = (if i =? 1 then false else Z.testbit lines i) /\
  Z.testbit m2 i =
    (if i =? 1 then false else if i =? 2 then true else Z.testbit lines i) /\
  Z.testbit m3 i =
    (if i =? 1 then false else if i =? 2 then false else Z.testbit lines i).
Proof.
  intros Hi m1 m2 m3. subst m1 m2 m3.
  change TIOCM_DTR with (2 ^ 1). change TIOCM_RTS with (2 ^ 2).
  rewrite !clear_bit_spec, !set_bit_spec, !clear_bit_spec by lia.
  destruct (Z.eqb_spec i 1), (Z.eqb_spec i 2); try lia; auto.
Qed.

(** X16.  When [open], [ioctl(TIOCMGET)] and the three [ioctl(TIOCMSET)]
    succeed, [reset_wemos] returns 0 after exactly this: it opens the
    device, reads the flags of the descriptor and, if that worked, writes
    them back without [O_NONBLOCK]; it reads the modem lines, writes them
    back with DTR off, sleeps 50 ms, writes them with RTS on, sleeps the
    pulse, writes them with RTS off, sleeps 50 ms and closes the device.
    Each sleep is a valid [timespec] of exactly that many milliseconds.  In
    all three writes DTR is off, only the second has RTS on, and every other
    line is as it was read. *)
Theorem reset_pulse_sequence (k : Kernel) (args : list string) :
  999000000 <= ULONG_MAX ->
  0 <= UINT_MAX ->
  all_succeed k args ->
  let fd := k_open k (device_of args) in
  let pulse := pulse_of UINT_MAX ULONG_MAX args in
  let m1 := Z.land (k_lines k) (Z.lnot TIOCM_DTR) in
  let m2 := Z.lor m1 TIOCM_RTS in
  let m3 := Z.land m2 (Z.lnot TIOCM_RTS) in
  exists t,
    main UINT_MAX ULONG_MAX O_NONBLOCK args k [] = (inl 0, t) /\
    t = [Open (device_of args); GetFl fd] ++
        (if 0 <=? k_getfl k
         then [SetFl fd (Z.land (k_getfl k) (Z.lnot O_NONBLOCK))]
         else []) ++
        [ModemGet fd; ModemSet fd m1; Nanosleep 0 50000000; ModemSet fd m2;
         Nanosleep (pulse / 1000) (pulse mod 1000 * 1000000);
         ModemSet fd m3; Nanosleep 0 50000000; Close fd] /\
    sleeps t = [Some 50; Some pulse; Some 50] /\
    modem_writes t = [m1; m2; m3] /\
    forall i, 0 <= i ->
      Z.testbit m1 i = (if i =? 1 then false else Z.testbit (k_lines k) i) /\
      Z.testbit m2 i =
        (if i =? 1 then false
         else if i =? 2 then true else Z.testbit (k_lines k) i) /\
      Z.testbit m3 i =
        (if i =? 1 then false
         else if i =? 2 then false else Z.testbit (k_lines k) i).
Proof.
  intros Hul Hui Hall fd pulse m1 m2 m3.
  destruct (main_succeeds k args Hul Hui Hall) as (t & Hrun & Ht & Hsl).
  exists t. split; [exact Hrun|]. split; [exact Ht|]. split; [exact Hsl|].
  split.
  - rewrite Ht. destruct (0 <=? k_getfl k); reflexivity.
  - intros i Hi. apply (pulse_bits (k_lines k) i Hi).
Qed.

Ltac reset_failed :=
  cbn [app List.filter length is_modem_set fst snd];
  eexists _, _; split; [reflexivity|];
  split; [right; reflexivity|];
  split; [split; [discriminate|unfold all_succeed; lia]|];
  split; [intros _; split; [eexists; reflexivity|reflexivity]|];
  split; [try reflexivity; lia|];
  split; [discriminate|].

(** X17.  [reset_wemos] ends with exit code 0 or 1, and with 0 exactly
    when [open], [ioctl(TIOCMGET)] and the three [ioctl(TIOCMSET)] all
    succeeded; what the two [fcntl] calls answer does not matter.  After
    the first of these calls that fails it makes no further call but the
    [perror] for it and does not close the device; after a failed [open]
    it has done nothing else.  With exit code 0 the last call is the
    [close].  In no run, failed or not, does it ask for DTR to be on. *)
Theorem reset_exit_code (k : Kernel) (args : list string) :
  exists r t,
    main UINT_MAX ULONG_MAX O_NONBLOCK args k [] = (r, t) /\
    (r = inl 0 \/ r = inr 1) /\
    (r = inl 0 <-> all_succeed k args) /\
    (r = inr 1 ->
     (exists msg, last t = Some (Perror msg)) /\
     List.filter is_close t = []) /\
    (k_open k (device_of args) < 0 ->
     t = [Open (device_of args); Perror "open"]) /\
    (r = inl 0 -> last t = Some (Close (k_open k (device_of args)))) /\
    Forall (fun m => Z.testbit m 1 = false) (modem_writes t).
Proof.
  destruct (pulse_bits (k_lines k) 1 ltac:(lia)) as (B1 & B2 & B3).
  cbn [Z.eqb Pos.eqb] in B1, B2, B3.
  unfold main. fold (device_of args). fold (pulse_of UINT_MAX ULONG_MAX args).
  unfold open, die, fcntl_getfl, fcntl_setfl, ioctl_tiocmget, ioctl_tiocmset,
    msleep, close, pcall, answer, pret, exit, pbind.
  cbn [fst snd app].
  destruct (Z.ltb_spec (k_open k (device_of args)) 0) as [Ho|Ho].
  { reset_failed. constructor. }
  destruct (0 <=? k_getfl k);
    (destruct (Z.ltb_spec (k_tiocmget k) 0) as [Hg|Hg];
     [reset_failed; constructor|]);
    cbn [app List.filter length is_modem_set fst snd];
    (destruct (Z.ltb_spec (k_tiocmset k 0%nat) 0) as [H0|H0];
     [reset_failed; repeat constructor; assumption|]);
    cbn [app List.filter length is_modem_set fst snd];
    (destruct (Z.ltb_spec (k_tiocmset k 1%nat) 0) as [H1|H1];
     [reset_failed; repeat constructor; assumption|]);
    cbn [app List.filter length is_modem_set fst snd];
    (destruct (Z.ltb_spec (k_tiocmset k 2%nat) 0) as [H2|H2];
     [reset_failed; repeat constructor; assumption|]);
    cbn [app List.filter length is_modem_set fst snd];
    (eexists _, _; split; [reflexivity|]);
    (split; [left; reflexivity|]);
    (split; [split; [intros _; unfold all_succeed; lia|reflexivity]|]);
    (split; [discriminate|]);
    (split; [lia|]);
    (split; [reflexivity|]);
    repeat constructor; assumption.
Qed.

Lemma decimal_value_nonneg (ds : string) (acc : Z) :
  Decimal.all_chars CStr.isdigit ds = true -> 0 <= acc ->
  0 <= CStr.decimal_value acc ds.
Proof.
  revert acc. induction ds as [|c ds IH]; intros acc Hds Hacc; [exact Hacc|].
  simpl in Hds. apply andb_prop in Hds as [Hc Hds]. simpl.
  apply IH; [exact Hds|]. unfold CStr.isdigit in Hc. unfold CStr.digit_value.
  lia.
Qed.

(** What [strtoul10] does on a string that is cut as white space, sign,
    at least one digit, and a rest that does not go on with a digit. *)
Lemma strtoul10_scan (ws sg ds rest : string) :
  Decimal.all_chars CStr.isspace ws = true ->
  (sg = "" \/ sg = "+" \/ sg = "-") ->
  ds <> "" ->
  Decimal.all_chars CStr.isdigit ds = true ->
  match rest with
  | String c _ => CStr.isdigit c = false
  | EmptyString => True
  end ->
  strtoul10 ULONG_MAX (ws +:+ sg +:+ ds +:+ rest) =
    let m := CStr.decimal_value 0 ds in
    if m >? ULONG_MAX then ULONG_MAX
    else if String.eqb sg "-" then (- m) mod (ULONG_MAX + 1)
    else m.
Proof.
  intros Hws Hsg Hne Hds Hrest.
  destruct ds as [|d0 ds']; [congruence|clear Hne].
  pose proof Hds as Hds0. simpl in Hds0. apply andb_prop in Hds0 as [Hd0 _].
  destruct (digit_not_sign _ Hd0) as [Hm Hp].
  pose proof (digit_not_space _ Hd0) as Hsp.
  assert (Hspan :
    CStr.span_length CStr.isspace (ws +:+ sg +:+ String d0 ds' +:+ rest) =
      String.length ws).
  { rewrite span_app by exact Hws.
    destruct Hsg as [-> | [-> | ->]]; simpl; rewrite ?append_nil, ?append_cons;
      simpl; rewrite ?Hsp; lia. }
  assert (Hdig :
    CStr.span_length CStr.isdigit (String d0 ds' +:+ rest) =
      String.length (String d0 ds')).
  { rewrite span_app by exact Hds.
    destruct rest as [|c t]; simpl; [lia|rewrite Hrest; lia]. }
  unfold strtoul10. rewrite Hspan, advance_app.
  assert (Hsign :
    CStr.starts_with "-" (sg +:+ String d0 ds' +:+ rest) = String.eqb sg "-" /\
    (if CStr.starts_with "-" (sg +:+ String d0 ds' +:+ rest)
        || CStr.starts_with "+" (sg +:+ String d0 ds' +:+ rest)
     then 1%nat else 0%nat) = String.length sg).
  { destruct Hsg as [-> | [-> | ->]]; rewrite ?append_nil, ?append_cons; simpl.
    - apply Ascii.eqb_neq in Hm, Hp. rewrite Hm, Hp. split; reflexivity.
    - split; reflexivity.
    - split; reflexivity. }
  destruct Hsign as [Hneg Hlen]. rewrite Hlen, Hneg.
  rewrite advance_app, Hdig, prefix_app.
  cbn [String.length]. reflexivity.
Qed.

(** X18.  The length of the pulse is 120 ms unless a second argument is
    given, and then whatever [strtoul] makes of it, taken as an
    [unsigned]: nothing is rejected.  A number that fits is taken as it
    is, and what follows its digits is ignored; an argument that starts
    with something else than white space, a sign or a digit gives a pulse
    of 0 ms; a number with a minus sign is negated in [unsigned], so that
    [-1] asks for the longest pulse there is.  The pulse always fits an
    [unsigned]. *)
Theorem pulse_of_argument (args : list string) :
  65535 <= UINT_MAX ->
  UINT_MAX <= ULONG_MAX ->
  (UINT_MAX + 1 | ULONG_MAX + 1) ->
  0 <= pulse_of UINT_MAX ULONG_MAX args <= UINT_MAX /\
  ((length args < 2)%nat -> pulse_of UINT_MAX ULONG_MAX args = 120) /\
  (forall (d ws sg ds rest : string) (more : list string),
     args = d :: (ws +:+ sg +:+ ds +:+ rest) :: more ->
     Decimal.all_chars CStr.isspace ws = true ->
     (sg = "" \/ sg = "+" \/ sg = "-") ->
     ds <> "" ->
     Decimal.all_chars CStr.isdigit ds = true ->
     match rest with
     | String c _ => CStr.isdigit c = false
     | EmptyString => True
     end ->
     CStr.decimal_value 0 ds <= UINT_MAX ->
     pulse_of UINT_MAX ULONG_MAX args =
       if String.eqb sg "-"
       then (- CStr.decimal_value 0 ds) mod (UINT_MAX + 1)
       else CStr.decimal_value 0 ds) /\
  (forall (d p : string) (more : list string),
     args = d :: p :: more ->
     match p with
     | String c _ =>
         CStr.isspace c = false /\ CStr.isdigit c = false /\
         c <> "-"%char /\ c <> "+"%char
     | EmptyString => True
     end ->
     pulse_of UINT_MAX ULONG_MAX args = 0).
Proof.
  intros Hui Hul Hdiv.
  split.
  { unfold pulse_of. destruct args as [|d [|p rest]]; try lia.
    pose proof (Z.mod_pos_bound (strtoul10 ULONG_MAX p) (UINT_MAX + 1)
                  ltac:(lia)). lia. }
  split.
  { unfold pulse_of. destruct args as [|d [|p rest]]; simpl; intros; lia. }
  split.
  - intros d ws sg ds rest more -> Hws Hsg Hne Hds Hrest Hfit.
    unfold pulse_of.
    rewrite (strtoul10_scan ws sg ds rest Hws Hsg Hne Hds Hrest). cbv zeta.
    pose proof (decimal_value_nonneg ds 0 Hds ltac:(lia)) as Hpos.
    destruct (Z.gtb_spec (CStr.decimal_value 0 ds) ULONG_MAX) as [Hgt|_];
      [lia|].
    destruct (String.eqb sg "-").
    + apply Z.mod_mod_divide. exact Hdiv.
    + apply Z.mod_small. lia.
  - intros d p more -> Hp. unfold pulse_of, strtoul10.
    destruct p as [|c p']; [reflexivity|].
    destruct Hp as (Hsp & Hdg & Hm & Hpl).
    apply Ascii.eqb_neq in Hm, Hpl.
    simpl. rewrite Hsp. simpl. rewrite Hm, Hpl. simpl. rewrite Hdg.
    reflexivity.
Qed.

End ResetPulse.

Lemma reset_pulse_sequence_witness :
  exists t,
    ResetWemos.main (2 ^ 32 - 1) (2 ^ 32 - 1) 2048 ["/dev/ttyUSB1"; "250"]
      (ResetWemos.working_kernel 6) [] = (inl 0, t) /\
    ResetWemos.modem_writes t = [4; 4; 0] /\
    ResetWemos.sleeps t = [Some 50; Some 250; Some 50].
Proof.
  destruct (reset_pulse_sequence (2 ^ 32 - 1) (2 ^ 32 - 1) 2048
              (ResetWemos.working_kernel 6) ["/dev/ttyUSB1"; "250"])
    as (t & Hrun & _ & Hsleeps & Hwrites & _).
  - lia.
  - lia.
  - repeat split; simpl; lia.
  - exists t. split; [exact Hrun|]. split; [exact Hwrites|exact Hsleeps].
Defined.

Lemma pulse_of_argument_witness :
  ResetWemos.pulse_of (2 ^ 32 - 1) (2 ^ 64 - 1) ["/dev/ttyUSB0"; "-1"] =
    2 ^ 32 - 1.
Proof.
  destruct (pulse_of_argument (2 ^ 32 - 1) (2 ^ 64 - 1)
              ["/dev/ttyUSB0"; "-1"])
    as (_ & _ & Hnum & _).
  - lia.
  - lia.
  - exists (2 ^ 32). reflexivity.
  - rewrite (Hnum "/dev/ttyUSB0" "" "-" "1" "" [] eq_refl eq_refl
               (or_intror (or_intror eq_refl)) ltac:(discriminate) eq_refl I
               ltac:(vm_compute; discriminate)).
    reflexivity.
Defined.

(** ** The only fault *)

Section OverRead.

Local Arguments Sqlite.step : simpl never.

Variables (topic : option string) (payloadlen qos retain : Z).









End OverRead.
